(** * Aero GGUF benchmark harness: [benchmarks/gguf/gguf_compare.py]

    A shallow embedding of the orchestration-and-aggregation engine and
    the properties its specification states about it.

    Conventions of the embedding.
    - Python [float] values are idealised as exact rationals [Q]: NaN,
      infinities and rounding are outside the model.  Equalities between
      computed numbers are therefore stated with [==].
    - A Python exception is a value of [exn]; a function that may raise
      returns [res A].
    - Functions of the Python runtime the source calls ([str.format],
      [re.search], [float], [math.sqrt], [subprocess.run], ...) are
      variables of the section that holds the program; small executable
      reference models of them are given first and are used to run the
      program on concrete inputs. *)

From Stdlib Require Import ZArith QArith Qround Lia Lqa.
From Stdlib Require Import Sorting.Sorted Sorting.Permutation.
From Stdlib Require Import Strings.String Strings.Ascii.
From Stdlib Require Import DecimalString.
From stdpp Require Import base option list strings gmap.

Set Default Proof Using "Type".

Local Open Scope string_scope.
Local Open Scope Z_scope.

(** ** Exceptions and results *)

Inductive exn : Type :=
| ValueError (msg : string)
| KeyError (key : string)
| IndexError
| TypeError
| ReError
| ZeroDivisionError
| TimeoutExpired
| FormatError
| OSError
| UnicodeDecodeError.

Inductive res (A : Type) : Type :=
| Ok (a : A)
| Raise (e : exn).
Arguments Ok {A} a.
Arguments Raise {A} e.

Definition res_bind {A B} (m : res A) (k : A -> res B) : res B :=
  match m with
  | Ok a => k a
  | Raise e => Raise e
  end.

Notation "'let*' x ':=' m 'in' k" := (res_bind m (fun x => k))
  (at level 10, x name, m at level 100, k at level 200).

(** ** Numbers *)

Definition Qltb (x y : Q) : bool := negb (Qle_bool y x).

(** [int(k)]: truncation towards zero. *)
Definition py_int (k : Q) : Z :=
  if Qle_bool 0 k then Qfloor k else Qceiling k.

(** [min(values)] and [max(values)] on a sequence with first element [x]:
    Python keeps the first extremal element. *)
Definition min_from (x : Q) (xs : list Q) : Q :=
  fold_left (fun m y => if Qltb y m then y else m) xs x.

Definition max_from (x : Q) (xs : list Q) : Q :=
  fold_left (fun m y => if Qltb m y then y else m) xs x.

Definition py_min (values : list Q) : res Q :=
  match values with
  | [] => Raise (ValueError "min() arg is an empty sequence")
  | x :: xs => Ok (min_from x xs)
  end.

Definition py_max (values : list Q) : res Q :=
  match values with
  | [] => Raise (ValueError "max() arg is an empty sequence")
  | x :: xs => Ok (max_from x xs)
  end.

(** [sorted(l, key=key)] / [l.sort(key=key)]: a stable ascending sort. *)
Fixpoint insert_by {A} (key : A -> Q) (x : A) (l : list A) : list A :=
  match l with
  | [] => [x]
  | y :: l' =>
      if Qle_bool (key x) (key y) then x :: l else y :: insert_by key x l'
  end.

Definition sorted_by {A} (key : A -> Q) (l : list A) : list A :=
  fold_right (insert_by key) [] l.

Definition py_sorted (values : list Q) : list Q := sorted_by (fun v => v) values.

(** [xs[i]] for an integer index: negative indices count from the end,
    anything out of range raises [IndexError]. *)
Definition py_index {A} (xs : list A) (i : Z) : res A :=
  let n := Z.of_nat (length xs) in
  let j := if i <? 0 then i + n else i in
  if (j <? 0) || (n <=? j) then Raise IndexError
  else match nth_error xs (Z.to_nat j) with
       | Some x => Ok x
       | None => Raise IndexError
       end.

Definition Qsum (values : list Q) : Q := fold_right Qplus (0 # 1)%Q values.

Definition Qlen {A} (values : list A) : Q := inject_Z (Z.of_nat (length values)).

(** ** Statistics *)

Definition percentile (values : list Q) (p : Q) : res Q :=
  match values with
  | [] => Raise (ValueError "percentile() requires at least one value")
  | _ :: _ =>
      if Qle_bool p 0 then py_min values
      else if Qle_bool 100 p then py_max values
      else
        let sorted_values := py_sorted values in
        let k := ((Qlen sorted_values - 1) * (p / 100))%Q in
        let lower := py_int k in
        let upper := Z.min (lower + 1) (Z.of_nat (length sorted_values) - 1) in
        if lower =? upper then py_index sorted_values lower
        else
          let fraction := (k - inject_Z lower)%Q in
          let* lo := py_index sorted_values lower in
          let* hi := py_index sorted_values upper in
          Ok (lo * (1 - fraction) + hi * fraction)%Q
  end.

(** [statistics.mean] and [statistics.median] of the standard library. *)
Definition statistics_mean (data : list Q) : res Q :=
  match data with
  | [] => Raise (ValueError "mean requires at least one data point")
  | _ :: _ => Ok (Qsum data / Qlen data)%Q
  end.

Definition statistics_median (data : list Q) : res Q :=
  let data' := py_sorted data in
  let n := Z.of_nat (length data') in
  if n =? 0 then Raise (ValueError "no median for empty data")
  else if Z.odd n then py_index data' (n / 2)
  else
    let i := n / 2 in
    let* a := py_index data' (i - 1) in
    let* b := py_index data' i in
    Ok ((a + b) / 2)%Q.

Record stats : Type := mk_stats {
  st_mean : Q;
  st_median : Q;
  st_min : Q;
  st_max : Q;
  st_p95 : Q;
  st_stdev : Q
}.

(** The dictionary [summarize] returns: [{}] or the six statistics. *)
Inductive summary_dict : Type :=
| EmptySummary
| Summary (s : stats).

Definition summary_median (s : summary_dict) : option Q :=
  match s with
  | EmptySummary => None
  | Summary st => Some (st_median st)
  end.

Section Statistics.
(** [math.sqrt], as used by [statistics.pstdev]. *)
Variable py_sqrt : Q -> Q.

(** [statistics.pstdev]: square root of the population variance, the
    mean of the squared deviations from the mean (divisor [n]). *)
Definition statistics_pstdev (data : list Q) : res Q :=
  let* mu := statistics_mean data in
  Ok (py_sqrt (Qsum (map (fun x => (x - mu) * (x - mu)) data) / Qlen data))%Q.

Definition summarize (values : list Q) : res summary_dict :=
  match values with
  | [] => Ok EmptySummary
  | _ :: _ =>
      let data := values in
      let* mean := statistics_mean data in
      let* median := statistics_median data in
      let* mn := py_min data in
      let* mx := py_max data in
      let* p95 := percentile data 95 in
      let* stdev :=
        if (1 <? Z.of_nat (length data)) then statistics_pstdev data
        else Ok (0 # 1)%Q in
      Ok (Summary (mk_stats mean median mn mx p95 stdev))
  end.
End Statistics.

(** An executable stand-in for [math.sqrt]: the square root rounded down
    to six decimals. *)
Definition sqrt_6dp (q : Q) : Q :=
  (inject_Z (Z.sqrt (Qfloor (q * 1000000000000))) / 1000000)%Q.

(** ** Metric descriptor *)

Record MetricConfig : Type := mk_metric {
  m_key : string;
  m_unit : string;
  m_direction : string  (* "higher" or "lower" *)
}.

(** ** Division and text helpers *)

(** [x / y] on floats: a zero divisor raises [ZeroDivisionError]. *)
Definition py_div (x y : Q) : res Q :=
  if Qeq_bool y 0 then Raise ZeroDivisionError else Ok (x / y)%Q.

Definition py_len (s : string) : Z := Z.of_nat (String.length s).

Definition dquote : ascii := ascii_of_nat 34.

(** [html.escape(s)] with its default [quote=True]. *)
Fixpoint html_escape (s : string) : string :=
  match s with
  | EmptyString => EmptyString
  | String c rest =>
      let tail := html_escape rest in
      if Ascii.eqb c "&" then "&amp;" ++ tail
      else if Ascii.eqb c "<" then "&lt;" ++ tail
      else if Ascii.eqb c ">" then "&gt;" ++ tail
      else if Ascii.eqb c dquote then "&quot;" ++ tail
      else if Ascii.eqb c "'" then "&#x27;" ++ tail
      else String c tail
  end.

(** ** Ranking *)

Definition ranking_key (direction : string) (value : Q) : Q :=
  if String.eqb direction "higher" then (- value)%Q else value.

(** ** The bar chart *)

(** The lines [build_svg_chart] emits, one constructor per f-string of the
    source, with the interpolated numbers kept as numbers (their decimal
    rendering, [:.2f] and [:.4f], is not modelled). *)
Inductive svg_line : Type :=
| SvgOpen (width height : Z)
| SvgBackground
| SvgTitle (x : Z) (metric_key metric_unit : string)
| SvgLabel (x y : Z) (label : string)
| SvgBar (x y : Z) (bar_w : Q)
| SvgValue (x : Q) (y : Z) (value : Q)
| SvgClose.

Inductive chart : Type :=
| ChartNone                         (* "<p>No successful benchmark runs to chart.</p>" *)
| ChartSvg (svg_lines : list svg_line).

Definition bar_area : Z := 560.
Definition row_h : Z := 36.
Definition top_pad : Z := 30.
Definition bottom_pad : Z := 30.

(** The scale denominator: the local [max_value] after its guard. *)
Definition chart_max_value (rows : list (string * Q)) : res Q :=
  let* max_value := py_max (map snd rows) in
  Ok (if Qle_bool max_value 0 then 1%Q else max_value).

(** The body of [for idx, (name, value) in enumerate(rows)]. *)
Fixpoint chart_rows_lines (left_pad : Z) (max_value : Q) (idx : Z)
    (rows : list (string * Q)) : res (list svg_line) :=
  match rows with
  | [] => Ok []
  | (name, value) :: rest =>
      let y := top_pad + idx * row_h in
      let* ratio := py_div value max_value in
      let bar_w := (ratio * inject_Z bar_area)%Q in
      let label := html_escape name in
      let* more := chart_rows_lines left_pad max_value (idx + 1) rest in
      Ok (SvgLabel (left_pad - 10) (y + 20) label
          :: SvgBar left_pad (y + 6) bar_w
          :: SvgValue (inject_Z left_pad + bar_w + 8)%Q (y + 20) value
          :: more)
  end.

Definition build_svg_chart (rows : list (string * Q)) (metric : MetricConfig)
    : res chart :=
  match rows with
  | [] => Ok ChartNone
  | _ :: _ =>
      let max_label_len :=
        fold_right Z.max 0 (map (fun r => py_len (fst r)) rows) in
      let left_pad := Z.max 160 (max_label_len * 8 + 20) in
      let width := left_pad + bar_area + 140 in
      let height := top_pad + bottom_pad + row_h * Z.of_nat (length rows) in
      let* max_value := chart_max_value rows in
      let* body := chart_rows_lines left_pad max_value 0 rows in
      Ok (ChartSvg
            ([SvgOpen width height; SvgBackground;
              SvgTitle left_pad (html_escape (m_key metric)) (html_escape (m_unit metric))]
             ++ body ++ [SvgClose]))
  end.

(** The widths of the bars of a chart, in order. *)
Definition bars_of (ls : list svg_line) : list Q :=
  flat_map (fun l => match l with SvgBar _ _ w => [w] | _ => [] end) ls.

Definition bar_widths (c : chart) : list Q :=
  match c with
  | ChartNone => []
  | ChartSvg ls => bars_of ls
  end.

(** ** Result rows *)

(** Python dictionaries whose iteration order the program observes are
    association lists in insertion order: [d[k] = v] replaces the value of
    an existing key in place and appends a new key. *)
Fixpoint dict_get {V} (k : string) (d : list (string * V)) : option V :=
  match d with
  | [] => None
  | (k', v) :: rest => if String.eqb k k' then Some v else dict_get k rest
  end.

Fixpoint dict_set {V} (k : string) (v : V) (d : list (string * V))
    : list (string * V) :=
  match d with
  | [] => [(k, v)]
  | (k', v') :: rest =>
      if String.eqb k k' then (k, v) :: rest else (k', v') :: dict_set k v rest
  end.

Definition dict_mem {V} (k : string) (d : list (string * V)) : bool :=
  match dict_get k d with Some _ => true | None => false end.

(** One entry of a backend's ["runs"] list. *)
Inductive run_entry : Type :=
| RunTimedOut (run_index : Z) (error : string)
| RunMeasured (run_index : Z) (ok : bool) (exit_code : Z) (wall_seconds : Q)
    (primary_metric : option Q) (aux_metrics : list (string * Q))
    (stdout_tail stderr_tail : string).

Definition entry_index (e : run_entry) : Z :=
  match e with
  | RunTimedOut i _ => i
  | RunMeasured i _ _ _ _ _ _ _ => i
  end.

Definition entry_ok (e : run_entry) : bool :=
  match e with
  | RunTimedOut _ _ => false
  | RunMeasured _ ok _ _ _ _ _ _ => ok
  end.

Record backend_summary : Type := mk_summary {
  sm_primary_metric : summary_dict;
  sm_wall_seconds : summary_dict;
  sm_success_runs : Z;
  sm_failed_runs : Z;
  sm_aux_metrics : list (string * summary_dict);
  sm_median_vs_best : option Q    (* absent until the ranking sets it *)
}.

Record result_row : Type := mk_row {
  row_name : string;
  row_status : string;
  row_command : string;
  row_cwd : string;
  row_runs : list run_entry;
  row_summary : backend_summary
}.

(** [row["summary"]["primary_metric"].get("median")]. *)
Definition row_median (row : result_row) : option Q :=
  summary_median (sm_primary_metric (row_summary row)).

(** [float(row["summary"]["primary_metric"]["median"])], read only on rows
    that passed [is_good]; the default stands for the unreachable lookup
    failure. *)
Definition median_of (row : result_row) : Q :=
  match row_median row with Some m => m | None => 0%Q end.

(** The filter shared by [main] ([good]), the Markdown report ([ranked])
    and the HTML report ([chart_rows]). *)
Definition is_good (row : result_row) : bool :=
  String.eqb (row_status row) "ok" &&
  match row_median row with Some _ => true | None => false end.

(** [ranked] of [generate_markdown_report]: filtered, then sorted in place
    by the ranking key. *)
Definition ranked (metric : MetricConfig) (rows : list result_row)
    : list result_row :=
  sorted_by (fun r => ranking_key (m_direction metric) (median_of r))
            (filter is_good rows).

(** [chart_rows] of [generate_html_report]. *)
Definition chart_rows (metric : MetricConfig) (rows : list result_row)
    : list (string * Q) :=
  sorted_by (fun item => ranking_key (m_direction metric) (snd item))
            (map (fun r => (row_name r, median_of r)) (filter is_good rows)).

(** [best_median] of [main]: absent when no row is good. *)
Definition best_median (metric : MetricConfig) (rows : list result_row)
    : option Q :=
  match map median_of (filter is_good rows) with
  | [] => None
  | m :: ms =>
      Some (if String.eqb (m_direction metric) "higher"
            then max_from m ms else min_from m ms)
  end.

Definition set_median_vs_best (row : result_row) (ratio : Q) : result_row :=
  let sm := row_summary row in
  mk_row (row_name row) (row_status row) (row_command row) (row_cwd row)
         (row_runs row)
         (mk_summary (sm_primary_metric sm) (sm_wall_seconds sm)
                     (sm_success_runs sm) (sm_failed_runs sm)
                     (sm_aux_metrics sm) (Some ratio)).

(** The ratio written into one good row. *)
Definition median_ratio (metric : MetricConfig) (best : Q) (row : result_row)
    : res Q :=
  let med := median_of row in
  if String.eqb (m_direction metric) "higher" then py_div med best
  else if Qeq_bool med 0 then Ok 0%Q else py_div best med.

(** The loop [for row in good: row["summary"]["median_vs_best"] = ...].
    [good] holds the very dictionaries of [result_rows], so the
    assignment is seen through [result_rows]: the model rewrites the good
    rows of [result_rows] in place. *)
Fixpoint assign_ratios (metric : MetricConfig) (best : Q)
    (rows : list result_row) : res (list result_row) :=
  match rows with
  | [] => Ok []
  | row :: rest =>
      let* row' :=
        if is_good row
        then let* ratio := median_ratio metric best row in
             Ok (set_median_vs_best row ratio)
        else Ok row in
      let* rest' := assign_ratios metric best rest in
      Ok (row' :: rest')
  end.

(** Lines 658-674 of [main]: the rows after the ranking pass, with
    [best_median]. *)
Definition rank_results (metric : MetricConfig) (result_rows : list result_row)
    : res (list result_row * option Q) :=
  match best_median metric result_rows with
  | None => Ok (result_rows, None)
  | Some best =>
      if Qltb 0 best
      then let* rows' := assign_ratios metric best result_rows in
           Ok (rows', Some best)
      else Ok (result_rows, Some best)
  end.

(** ** Strings *)

(** Strings are byte strings; [strip] and [lower] act on ASCII. *)
Definition is_space (c : ascii) : bool :=
  let n := nat_of_ascii c in
  (((9 <=? n) && (n <=? 13)) || ((28 <=? n) && (n <=? 32)))%nat.

Fixpoint lstrip (s : string) : string :=
  match s with
  | EmptyString => EmptyString
  | String c rest => if is_space c then lstrip rest else s
  end.

Definition string_rev (s : string) : string :=
  string_of_list_ascii (rev (list_ascii_of_string s)).

Definition strip (s : string) : string :=
  string_rev (lstrip (string_rev (lstrip s))).

Definition lower_char (c : ascii) : ascii :=
  let n := nat_of_ascii c in
  if ((65 <=? n) && (n <=? 90))%nat then ascii_of_nat (n + 32) else c.

Fixpoint lower (s : string) : string :=
  match s with
  | EmptyString => EmptyString
  | String c rest => String (lower_char c) (lower rest)
  end.

(** [raw.split(",")]; [cur] is the current item, reversed. *)
Fixpoint split_comma_go (cur : string) (s : string) : list string :=
  match s with
  | EmptyString => [string_rev cur]
  | String c rest =>
      if Ascii.eqb c "," then string_rev cur :: split_comma_go EmptyString rest
      else split_comma_go (String c cur) rest
  end.

Definition split_comma (s : string) : list string := split_comma_go EmptyString s.

(** [token in name]. *)
Fixpoint is_substring (token name : string) : bool :=
  String.prefix token name ||
  match name with
  | EmptyString => false
  | String _ rest => is_substring token rest
  end.

Definition nonempty (s : string) : bool :=
  match s with EmptyString => false | String _ _ => true end.

(** [str(n)] for an integer. *)
Definition str_of_Z (n : Z) : string := NilZero.string_of_int (Z.to_int n).

(** [s[-n:]]. *)
Definition last_chars (n : nat) (s : string) : string :=
  let len := String.length s in
  String.substring (len - n) (Nat.min n len) s.

Definition parse_backend_filters (raw : string) : list string :=
  map (fun item => lower (strip item))
      (filter (fun item => nonempty (strip item) = true) (split_comma raw)).

Definition backend_is_selected (name : string) (filters : list string) : bool :=
  match filters with
  | [] => true
  | _ :: _ =>
      let lower_name := lower name in
      existsb (fun token => String.eqb token lower_name || is_substring token lower_name)
              filters
  end.

(** ** A reference model of [str.format] with keyword arguments

    It covers replacement fields that are plain names, and the doubled
    braces.  Fields are rendered from left to right, so the first problem
    met decides the exception.  A field with a conversion, a format
    specification, an attribute or an index is outside the fragment and is
    answered with [FormatError]. *)
Definition is_digit (c : ascii) : bool :=
  let n := nat_of_ascii c in ((48 <=? n) && (n <=? 57))%nat.

Fixpoint all_chars (f : ascii -> bool) (s : string) : bool :=
  match s with
  | EmptyString => true
  | String c rest => f c && all_chars f rest
  end.

Definition plain_field_char (c : ascii) : bool :=
  negb (Ascii.eqb c "." || Ascii.eqb c "[" || Ascii.eqb c "!" || Ascii.eqb c ":").

Definition render_field (name : string) (variables : gmap string string)
    : res string :=
  if all_chars is_digit name then Raise IndexError
  else if negb (all_chars plain_field_char name) then Raise FormatError
  else match variables !! name with
       | Some v => Ok v
       | None => Raise (KeyError name)
       end.

(** [field] is [None] in literal text and [Some acc] inside a replacement
    field whose name read so far is [acc], reversed. *)
Fixpoint format_go (variables : gmap string string) (field : option string)
    (s : string) : res string :=
  match field with
  | None =>
      match s with
      | EmptyString => Ok EmptyString
      | String c rest =>
          if Ascii.eqb c "{" then
            match rest with
            | String c' rest' =>
                if Ascii.eqb c' "{"
                then let* out := format_go variables None rest' in
                     Ok (String "{" out)
                else format_go variables (Some EmptyString) rest
            | EmptyString =>
                Raise (ValueError "Single '{' encountered in format string")
            end
          else if Ascii.eqb c "}" then
            match rest with
            | String c' rest' =>
                if Ascii.eqb c' "}"
                then let* out := format_go variables None rest' in
                     Ok (String "}" out)
                else Raise (ValueError "Single '}' encountered in format string")
            | EmptyString =>
                Raise (ValueError "Single '}' encountered in format string")
            end
          else let* out := format_go variables None rest in
               Ok (String c out)
      end
  | Some acc =>
      match s with
      | EmptyString => Raise (ValueError "expected '}' before end of string")
      | String c rest =>
          if Ascii.eqb c "}" then
            let* v := render_field (string_rev acc) variables in
            let* out := format_go variables None rest in
            Ok (v ++ out)
          else if Ascii.eqb c "{" then Raise FormatError
          else format_go variables (Some (String c acc)) rest
      end
  end.

Definition py_format (template : string) (variables : gmap string string)
    : res string :=
  format_go variables None template.

(** ** Configuration *)

(** A JSON value where the program expects a regex or a list of them.
    An item of a list goes through [str]; [JItemOther] carries the text
    [str] gives for an item that is not a string. *)
Inductive jitem : Type :=
| JItemStr (s : string)
| JItemOther (str_text : string).

Inductive jvalue : Type :=
| JNull
| JString (s : string)
| JList (items : list jitem)
| JOther.

Definition str_of_item (x : jitem) : string :=
  match x with
  | JItemStr s => s
  | JItemOther t => t
  end.

Definition normalize_regexes (raw : jvalue) : res (list string) :=
  match raw with
  | JNull => Ok []
  | JString s => Ok [s]
  | JList items => Ok (map str_of_item items)
  | JOther => Raise (ValueError "metric regex must be string or list of strings")
  end.

(** One entry of ["backends"], each field read the way the program reads
    it: [b_enabled] is false only for a literal JSON [false]; the strings
    are the [str(...)] of the field or of its default. *)
Record backend : Type := mk_backend {
  b_enabled : bool;
  b_name : string;
  b_command : string;
  b_cwd : string;
  b_env : list (string * string);
  b_metric_regexes : jvalue;
  b_parse : list (string * jvalue);
  b_aux_metrics : list (string * jvalue)
}.

Record config : Type := mk_config {
  benchmark_name : string;
  model_path : string;
  model_name : option string;
  prompt : string;
  max_tokens : Z;
  runs : Z;
  warmup_runs : Z;
  timeout_seconds : Z;
  strict : bool;
  metric : MetricConfig;                       (* as written, with defaults *)
  metric_fallback_to_wall_time : option bool;  (* absent: decided by the key *)
  variables : list (string * string);
  backends : list backend
}.

(** The command line; a negative count means that the option is not given. *)
Record cli_args : Type := mk_args {
  arg_dry_run : bool;
  arg_runs : Z;
  arg_warmup_runs : Z;
  arg_backend : string
}.

Definition from_config (raw : config) : res MetricConfig :=
  let direction := lower (m_direction (metric raw)) in
  if negb (String.eqb direction "higher" || String.eqb direction "lower")
  then Raise (ValueError "metric.direction must be 'higher' or 'lower'")
  else Ok (mk_metric (m_key (metric raw)) (m_unit (metric raw)) direction).

(** ** Processes *)

(** One call of [subprocess.run], as [run_once] issues it. *)
Record spawn : Type := mk_spawn {
  sp_backend : string;
  sp_command : string;
  sp_cwd : string;
  sp_env : gmap string string;
  sp_timeout : Z
}.

(** What one call of [subprocess.run] does: the process outlives the
    timeout and the call raises [TimeoutExpired]; the call returns the
    completed process, with its exit code, its decoded streams and the
    time it took; or the call raises something else ([OSError] for a
    working directory that does not exist, [UnicodeDecodeError] for
    output that [text=True] cannot decode, ...). *)
Inductive proc_outcome : Type :=
| ProcTimeout
| ProcExit (returncode : Z) (stdout stderr : string) (wall_s : Q)
| ProcRaises (e : exn).

(** ** Regular expressions *)

Record re_flags : Type := mk_flags { IGNORECASE : bool; MULTILINE : bool }.

(** What [re.search] does: it rejects the pattern, finds no match, or
    finds a match, of which [groups] lists the capture groups 1, 2, ...;
    a group that took no part in the match is [None]. *)
Inductive re_outcome : Type :=
| RePatternError
| ReNoMatch
| ReMatch (groups : list (option string)).

Definition newline : string := String (ascii_of_nat 10) EmptyString.

(** ** The program *)

Record run_output : Type := mk_run_output {
  ro_backend : string;
  ro_command : string;
  ro_exit_code : Z;
  ro_wall_seconds : Q;
  ro_primary_metric : option Q;
  ro_aux_metrics : list (string * Q);
  ro_stdout : string;
  ro_stderr : string
}.

(** The accumulators of the measured loop. *)
Record measure_state : Type := mk_measure {
  measured_runs : list run_entry;
  success_metrics : list Q;
  success_wall : list Q;
  aux_values : list (string * list Q);
  failed_runs : Z
}.

(** How [main] stops. *)
Inductive exit_kind : Type :=
| Returned (code : Z)
| Raised (e : exn).

(** A loop either runs to its end or leaves [main]. *)
Inductive flow (S : Type) : Type :=
| Done (s : S)
| Exit (x : exit_kind) (s : S).
Arguments Done {S} s.
Arguments Exit {S} x s.

(** What is observable of one run of [main]: how it stopped, every process
    it spawned, the locals [result_rows] and [measured_runs] at that
    point, and the rows of the reports it wrote, if it wrote them. *)
Record outcome : Type := mk_outcome {
  out_exit : exit_kind;
  out_trace : list spawn;
  out_result_rows : list result_row;
  out_measured_runs : list run_entry;
  out_written : option (list result_row)
}.

(** ** A reference model of [float] on decimal literals

    [float(s)] for [s] made of an optional sign, digits and at most one
    point, with blanks around it; every other text is answered with
    [None] (for Python, [ValueError]), so exponents, [inf] and [nan] are
    outside the fragment. *)
Fixpoint decimal_go (s : string) (num : Z) (scale : positive)
    (seen_point seen_digit : bool) : option Q :=
  match s with
  | EmptyString => if seen_digit then Some (num # scale)%Q else None
  | String c rest =>
      if is_digit c then
        let d := Z.of_nat (nat_of_ascii c - 48) in
        decimal_go rest (num * 10 + d)
                   (if seen_point then scale * 10 else scale)%positive
                   seen_point true
      else if Ascii.eqb c "." then
        if seen_point then None else decimal_go rest num scale true seen_digit
      else None
  end.

Definition float_of_decimal (s : string) : option Q :=
  match strip s with
  | String c rest =>
      if Ascii.eqb c "-" then option_map Qopp (decimal_go rest 0 1 false false)
      else if Ascii.eqb c "+" then decimal_go rest 0 1 false false
      else decimal_go (String c rest) 0 1 false false
  | EmptyString => None
  end.

(** ** A reference model of [re.search] on a fragment of the syntax

    Literals, [.], the escapes [\d \s \w \D \S \W \n \t] and escaped
    punctuation, bracket classes with ranges, the greedy quantifiers
    [* + ?], alternation, capturing groups and [(?:...)].  Matching is by
    backtracking, leftmost first, as in Python.  Anchors, counted and lazy
    quantifiers and the other extensions are outside the fragment and are
    answered with [RePatternError]. *)
Inductive regex : Type :=
| REmpty
| RChar (accept : ascii -> bool)
| RSeq (r1 r2 : regex)
| RAlt (r1 r2 : regex)
| RStar (r : regex)
| RGroup (n : nat) (r : regex).

Definition upper_char (c : ascii) : ascii :=
  let n := nat_of_ascii c in
  if ((97 <=? n) && (n <=? 122))%nat then ascii_of_nat (n - 32) else c.

Definition is_alpha (c : ascii) : bool :=
  let n := nat_of_ascii (lower_char c) in ((97 <=? n) && (n <=? 122))%nat.

Definition is_word (c : ascii) : bool :=
  is_alpha c || is_digit c || Ascii.eqb c "_".

Definition re_space (c : ascii) : bool :=
  let n := nat_of_ascii c in (((9 <=? n) && (n <=? 13)) || (n =? 32))%nat.

(** The set of characters an escape [\c] stands for. *)
Definition escape_class (c : ascii) : option (ascii -> bool) :=
  if Ascii.eqb c "d" then Some is_digit
  else if Ascii.eqb c "D" then Some (fun a => negb (is_digit a))
  else if Ascii.eqb c "s" then Some re_space
  else if Ascii.eqb c "S" then Some (fun a => negb (re_space a))
  else if Ascii.eqb c "w" then Some is_word
  else if Ascii.eqb c "W" then Some (fun a => negb (is_word a))
  else if Ascii.eqb c "n" then Some (Ascii.eqb (ascii_of_nat 10))
  else if Ascii.eqb c "t" then Some (Ascii.eqb (ascii_of_nat 9))
  else if is_alpha c || is_digit c then None
  else Some (Ascii.eqb c).

Definition in_range (lo hi a : ascii) : bool :=
  ((nat_of_ascii lo <=? nat_of_ascii a) && (nat_of_ascii a <=? nat_of_ascii hi))%nat.

(** The inside of a bracket class, up to its closing bracket. *)
Fixpoint parse_class (p : list ascii) (acc : ascii -> bool)
    : option ((ascii -> bool) * list ascii) :=
  match p with
  | [] => None
  | c :: rest =>
      if Ascii.eqb c "]" then Some (acc, rest)
      else if Ascii.eqb c "\" then
        match rest with
        | e :: rest' =>
            match escape_class e with
            | Some f => parse_class rest' (fun a => acc a || f a)
            | None => None
            end
        | [] => None
        end
      else
        match rest with
        | d :: hi :: rest' =>
            if Ascii.eqb d "-" && negb (Ascii.eqb hi "]")
            then parse_class rest' (fun a => acc a || in_range c hi a)
            else parse_class rest (fun a => acc a || Ascii.eqb c a)
        | _ => parse_class rest (fun a => acc a || Ascii.eqb c a)
        end
  end.

Inductive parse_level : Type := LAlt | LSeq | LItem | LAtom.

Definition is_quantifier (c : ascii) : bool :=
  Ascii.eqb c "*" || Ascii.eqb c "+" || Ascii.eqb c "?".

(** Recursive descent; [g] counts the groups opened so far. *)
Fixpoint parse_regex (fuel : nat) (lvl : parse_level) (p : list ascii) (g : nat)
    : option (regex * list ascii * nat) :=
  match fuel with
  | O => None
  | S fuel' =>
      match lvl with
      | LAlt =>
          match parse_regex fuel' LSeq p g with
          | Some (r1, c :: rest, g1) =>
              if Ascii.eqb c "|" then
                match parse_regex fuel' LAlt rest g1 with
                | Some (r2, rest2, g2) => Some (RAlt r1 r2, rest2, g2)
                | None => None
                end
              else Some (r1, c :: rest, g1)
          | other => other
          end
      | LSeq =>
          match p with
          | [] => Some (REmpty, p, g)
          | c :: _ =>
              if Ascii.eqb c ")" || Ascii.eqb c "|" then Some (REmpty, p, g)
              else
                match parse_regex fuel' LItem p g with
                | Some (r1, rest, g1) =>
                    match parse_regex fuel' LSeq rest g1 with
                    | Some (r2, rest2, g2) => Some (RSeq r1 r2, rest2, g2)
                    | None => None
                    end
                | None => None
                end
          end
      | LItem =>
          match parse_regex fuel' LAtom p g with
          | Some (r, q :: rest, g1) =>
              if is_quantifier q then
                match rest with
                | q' :: _ =>
                    if is_quantifier q' || Ascii.eqb q' "{" then None
                    else Some (if Ascii.eqb q "*" then RStar r
                               else if Ascii.eqb q "+" then RSeq r (RStar r)
                               else RAlt r REmpty, rest, g1)
                | [] =>
                    Some (if Ascii.eqb q "*" then RStar r
                          else if Ascii.eqb q "+" then RSeq r (RStar r)
                          else RAlt r REmpty, rest, g1)
                end
              else if Ascii.eqb q "{" then None
              else Some (r, q :: rest, g1)
          | other => other
          end
      | LAtom =>
          match p with
          | [] => None
          | c :: rest =>
              if Ascii.eqb c "(" then
                match rest with
                | q :: colon :: rest' =>
                    if Ascii.eqb q "?" then
                      if Ascii.eqb colon ":" then
                        match parse_regex fuel' LAlt rest' g with
                        | Some (r, close :: rest2, g1) =>
                            if Ascii.eqb close ")" then Some (r, rest2, g1) else None
                        | _ => None
                        end
                      else None
                    else
                      match parse_regex fuel' LAlt rest (S g) with
                      | Some (r, close :: rest2, g1) =>
                          if Ascii.eqb close ")"
                          then Some (RGroup (S g) r, rest2, g1) else None
                      | _ => None
                      end
                | _ =>
                    match parse_regex fuel' LAlt rest (S g) with
                    | Some (r, close :: rest2, g1) =>
                        if Ascii.eqb close ")"
                        then Some (RGroup (S g) r, rest2, g1) else None
                    | _ => None
                    end
                end
              else if Ascii.eqb c "[" then
                match rest with
                | n :: rest' =>
                    if Ascii.eqb n "^" then
                      match parse_class rest' (fun _ => false) with
                      | Some (f, rest2) => Some (RChar (fun a => negb (f a)), rest2, g)
                      | None => None
                      end
                    else
                      match parse_class rest (fun _ => false) with
                      | Some (f, rest2) => Some (RChar f, rest2, g)
                      | None => None
                      end
                | [] => None
                end
              else if Ascii.eqb c "\" then
                match rest with
                | e :: rest' =>
                    match escape_class e with
                    | Some f => Some (RChar f, rest', g)
                    | None => None
                    end
                | [] => None
                end
              else if Ascii.eqb c "." then
                Some (RChar (fun a => negb (Ascii.eqb a (ascii_of_nat 10))), rest, g)
              else if is_quantifier c || Ascii.eqb c "^" || Ascii.eqb c "$"
                      || Ascii.eqb c "{" || Ascii.eqb c ")" || Ascii.eqb c "|"
              then None
              else Some (RChar (Ascii.eqb c), rest, g)
          end
      end
  end.

Definition set_capture (n : nat) (text : list ascii)
    (caps : list (nat * string)) : list (nat * string) :=
  (n, string_of_list_ascii text) :: filter (fun kv => fst kv <> n) caps.

Definition get_capture (caps : list (nat * string)) (n : nat) : option string :=
  option_map snd (find (fun kv => Nat.eqb (fst kv) n) caps).

(** Backtracking matcher, in continuation-passing style; [ci] is
    [re.IGNORECASE]. *)
Fixpoint rmatch (ci : bool) (r : regex) (s : list ascii)
    (caps : list (nat * string))
    (k : list ascii -> list (nat * string) -> option (list (nat * string)))
    {struct r} : option (list (nat * string)) :=
  match r with
  | REmpty => k s caps
  | RChar accept =>
      match s with
      | a :: s' =>
          if accept a || (ci && (accept (lower_char a) || accept (upper_char a)))
          then k s' caps else None
      | [] => None
      end
  | RSeq r1 r2 => rmatch ci r1 s caps (fun s' caps' => rmatch ci r2 s' caps' k)
  | RAlt r1 r2 =>
      match rmatch ci r1 s caps k with
      | Some result => Some result
      | None => rmatch ci r2 s caps k
      end
  | RStar r' =>
      (fix star (fuel : nat) (s : list ascii) (caps : list (nat * string))
         : option (list (nat * string)) :=
         match fuel with
         | O => k s caps
         | S fuel' =>
             match rmatch ci r' s caps
                     (fun s' caps' =>
                        if (length s' <? length s)%nat
                        then star fuel' s' caps' else None) with
             | Some result => Some result
             | None => k s caps
             end
         end) (S (length s)) s caps
  | RGroup n r' =>
      rmatch ci r' s caps
        (fun s' caps' =>
           k s' (set_capture n (firstn (length s - length s') s) caps'))
  end.

Fixpoint rsearch (ci : bool) (r : regex) (s : list ascii)
    : option (list (nat * string)) :=
  match rmatch ci r s [] (fun _ caps => Some caps) with
  | Some caps => Some caps
  | None =>
      match s with
      | [] => None
      | _ :: s' => rsearch ci r s'
      end
  end.

Definition re_search_model (pattern text : string) (flags : re_flags)
    : re_outcome :=
  let p := list_ascii_of_string pattern in
  match parse_regex (4 * length p + 4) LAlt p 0 with
  | Some (r, [], n_groups) =>
      match rsearch (IGNORECASE flags) r (list_ascii_of_string text) with
      | Some caps => ReMatch (map (get_capture caps) (seq 1 n_groups))
      | None => ReNoMatch
      end
  | _ => RePatternError
  end.

(** The message of [format_command] for a [KeyError] on [k]. *)
Definition missing_variable (k template : string) : string :=
  "missing template variable '" ++ k ++ "' in command: " ++ template.

Section Program.
(** The Python runtime. *)
Variable str_format : string -> gmap string string -> res string.
Variable re_search : string -> string -> re_flags -> re_outcome.
Variable py_float : string -> option Q.       (* [None]: [ValueError] *)
Variable py_sqrt : Q -> Q.
Variable os_environ : gmap string string.
(** [to_posix] of a path, taken under [REPO_ROOT] unless absolute. *)
Variable resolve_path : string -> string.
Variable repo_root : string.                  (* [to_posix(REPO_ROOT)] *)
Variable path_name : string -> string.        (* [Path(p).name] *)
(** The [n]-th process the program spawns (counting from 0). *)
Variable subprocess_run : nat -> spawn -> proc_outcome.

Definition build_template_variables (cfg : config) : gmap string string :=
  let user :=
    fold_left (fun m kv => <[fst kv := snd kv]> m) (variables cfg) ∅ in
  let path :=
    if nonempty (model_path cfg) then resolve_path (model_path cfg)
    else model_path cfg in
  let name :=
    match model_name cfg with
    | Some n => n
    | None => if nonempty path then path_name path else EmptyString
    end in
  <["max_tokens" := str_of_Z (max_tokens cfg)]>
    (<["prompt" := prompt cfg]>
      (<["model_name" := name]>
        (<["model_path" := path]>
          (<["repo_root" := repo_root]> user)))).

Definition format_command (template : string) (vars : gmap string string)
    : res string :=
  match str_format template vars with
  | Ok s => Ok s
  | Raise (KeyError k) => Raise (ValueError (missing_variable k template))
  | Raise e => Raise e
  end.

Fixpoint parse_numeric_metric (text : string) (regexes : list string)
    : res (option Q) :=
  match regexes with
  | [] => Ok None
  | pattern :: rest =>
      match re_search pattern text (mk_flags true true) with
      | RePatternError => Raise ReError
      | ReNoMatch => parse_numeric_metric text rest
      | ReMatch groups =>
          match groups with
          | [] => Raise IndexError                (* [match.group(1)] *)
          | None :: _ => Raise TypeError          (* [float(None)] *)
          | Some capture :: _ =>
              match py_float capture with
              | Some v => Ok (Some v)
              | None => parse_numeric_metric text rest
              end
          end
      end
  end.

(** The loop of [run_once] over [aux_regexes.items()]. *)
Fixpoint extract_aux (combined : string)
    (aux_regexes : list (string * list string))
    (aux_metrics : list (string * Q)) : res (list (string * Q)) :=
  match aux_regexes with
  | [] => Ok aux_metrics
  | (k, regexes) :: rest =>
      let* value := parse_numeric_metric combined regexes in
      extract_aux combined rest
        (match value with
         | Some v => dict_set k v aux_metrics
         | None => aux_metrics
         end)
  end.

Definition run_once (backend_name command cwd : string) (timeout_s : Z)
    (env : gmap string string) (metric_regexes : list string)
    (aux_regexes : list (string * list string))
    (fallback_to_wall_time : bool) (trace : list spawn)
    : res run_output * list spawn :=
  let sp := mk_spawn backend_name command cwd env timeout_s in
  let trace' := (trace ++ [sp])%list in
  match subprocess_run (length trace) sp with
  | ProcTimeout => (Raise TimeoutExpired, trace')
  | ProcExit returncode stdout stderr wall_s =>
      let combined := stdout ++ newline ++ stderr in
      (let* parsed := parse_numeric_metric combined metric_regexes in
       let primary_metric :=
         match parsed with
         | None => if fallback_to_wall_time then Some wall_s else None
         | Some v => Some v
         end in
       let* aux_metrics := extract_aux combined aux_regexes [] in
       Ok (mk_run_output backend_name command returncode wall_s
                         primary_metric aux_metrics stdout stderr),
       trace')
  | ProcRaises e => (Raise e, trace')
  end.

(** The first loop of [main]: the command of every enabled, selected
    backend, by name. *)
Fixpoint resolve_commands (vars : gmap string string) (filters : list string)
    (bs : list backend) (backend_commands : gmap string string)
    : res (gmap string string) :=
  match bs with
  | [] => Ok backend_commands
  | b :: rest =>
      if negb (b_enabled b) then resolve_commands vars filters rest backend_commands
      else
        let name := strip (b_name b) in
        if negb (nonempty name)
        then Raise (ValueError "Each backend must have a non-empty 'name'")
        else if negb (backend_is_selected name filters)
        then resolve_commands vars filters rest backend_commands
        else
          let command_tmpl := strip (b_command b) in
          if negb (nonempty command_tmpl)
          then Raise (ValueError ("Backend '" ++ name ++ "' is missing 'command'"))
          else
            let* command := format_command command_tmpl vars in
            resolve_commands vars filters rest (<[name := command]> backend_commands)
  end.

(** [env = os.environ.copy()] extended with the backend's expanded
    values. *)
Fixpoint build_env (vars : gmap string string) (items : list (string * string))
    (env : gmap string string) : res (gmap string string) :=
  match items with
  | [] => Ok env
  | (k, v) :: rest =>
      let* v' := format_command v vars in
      build_env vars rest (<[k := v']> env)
  end.

Definition select_metric_regexes (metric : MetricConfig) (fallback : bool)
    (b : backend) : res (list string) :=
  let* explicit := normalize_regexes (b_metric_regexes b) in
  let* metric_regexes :=
    match explicit with
    | [] =>
        normalize_regexes
          (match dict_get (m_key metric) (b_parse b) with
           | Some v => v
           | None => JNull
           end)
    | _ :: _ => Ok explicit
    end in
  match metric_regexes with
  | [] =>
      if negb fallback
      then Raise (ValueError ("Backend '" ++ b_name b
                              ++ "' has no metric regexes for '" ++ m_key metric
                              ++ "' and fallback is disabled."))
      else Ok metric_regexes
  | _ :: _ => Ok metric_regexes
  end.

(** The two loops that fill [aux_regexes]. *)
Fixpoint aux_from_section (aux_section : list (string * jvalue))
    (aux_regexes : list (string * list string))
    : res (list (string * list string)) :=
  match aux_section with
  | [] => Ok aux_regexes
  | (k, value) :: rest =>
      let* regexes := normalize_regexes value in
      aux_from_section rest (dict_set k regexes aux_regexes)
  end.

Fixpoint aux_from_parse (metric_key : string)
    (parse_section : list (string * jvalue))
    (aux_regexes : list (string * list string))
    : res (list (string * list string)) :=
  match parse_section with
  | [] => Ok aux_regexes
  | (k, value) :: rest =>
      if String.eqb k metric_key then aux_from_parse metric_key rest aux_regexes
      else if dict_mem k aux_regexes
      then aux_from_parse metric_key rest aux_regexes
      else
        let* regexes := normalize_regexes value in
        aux_from_parse metric_key rest (dict_set k regexes aux_regexes)
  end.

Definition build_aux_regexes (metric : MetricConfig) (b : backend)
    : res (list (string * list string)) :=
  let* aux_regexes := aux_from_section (b_aux_metrics b) [] in
  aux_from_parse (m_key metric) (b_parse b) aux_regexes.

(** [aux_values.setdefault(key, []).append(float(val))] for every
    auxiliary metric of a successful run. *)
Definition record_aux (aux_values : list (string * list Q))
    (aux_metrics : list (string * Q)) : list (string * list Q) :=
  fold_left
    (fun acc kv =>
       let old := match dict_get (fst kv) acc with Some l => l | None => [] end in
       dict_set (fst kv) (old ++ [snd kv])%list acc)
    aux_metrics aux_values.

(** [range(1, n + 1)]. *)
Definition py_range1 (n : Z) : list Z := map Z.of_nat (seq 1 (Z.to_nat n)).

Section Loops.
(** [run_once] with the arguments of the backend at hand. *)
Variable call : list spawn -> res run_output * list spawn.
Variable strict_mode : bool.
Variable timeout_s : Z.

(** The warmup loop; the record of a warmup run is dropped. *)
Fixpoint warmup_loop (n : nat) (trace : list spawn)
    : flow unit * list spawn :=
  match n with
  | O => (Done tt, trace)
  | S n' =>
      match call trace with
      | (Ok _, trace') => warmup_loop n' trace'
      | (Raise TimeoutExpired, trace') =>
          if strict_mode then (Exit (Raised TimeoutExpired) tt, trace')
          else warmup_loop n' trace'
      | (Raise e, trace') => (Exit (Raised e) tt, trace')
      end
  end.

(** One iteration of the measured loop, for run index [i]. *)
Definition measure_step (i : Z) (st : measure_state) (trace : list spawn)
    : flow measure_state * list spawn :=
  match call trace with
  | (Raise TimeoutExpired, trace') =>
      let st' :=
        mk_measure
          (measured_runs st
           ++ [RunTimedOut i ("timeout after " ++ str_of_Z timeout_s ++ "s")])%list
          (success_metrics st) (success_wall st) (aux_values st)
          (failed_runs st + 1) in
      if strict_mode then (Exit (Returned 2) st', trace') else (Done st', trace')
  | (Raise e, trace') => (Exit (Raised e) st, trace')
  | (Ok record, trace') =>
      let ok :=
        (ro_exit_code record =? 0) &&
        match ro_primary_metric record with Some _ => true | None => false end in
      let measured_runs' :=
        (measured_runs st
         ++ [RunMeasured i ok (ro_exit_code record) (ro_wall_seconds record)
               (ro_primary_metric record) (ro_aux_metrics record)
               (last_chars 1200 (ro_stdout record))
               (last_chars 1200 (ro_stderr record))])%list in
      if ok then
        (* [float(record["primary_metric"])]: present, since [ok] *)
        let value :=
          match ro_primary_metric record with Some v => v | None => 0%Q end in
        (Done (mk_measure measured_runs'
                 (success_metrics st ++ [value])%list
                 (success_wall st ++ [ro_wall_seconds record])%list
                 (record_aux (aux_values st) (ro_aux_metrics record))
                 (failed_runs st)),
         trace')
      else
        let st' :=
          mk_measure measured_runs' (success_metrics st) (success_wall st)
                     (aux_values st) (failed_runs st + 1) in
        if strict_mode then (Exit (Returned 2) st', trace') else (Done st', trace')
  end.

Fixpoint measure_loop (indices : list Z) (st : measure_state)
    (trace : list spawn) : flow measure_state * list spawn :=
  match indices with
  | [] => (Done st, trace)
  | i :: rest =>
      match measure_step i st trace with
      | (Done st', trace') => measure_loop rest st' trace'
      | (Exit x st', trace') => (Exit x st', trace')
      end
  end.
End Loops.

Definition initial_measure : measure_state := mk_measure [] [] [] [] 0.

(** [{k: summarize(v) for k, v in aux_values.items()}]. *)
Fixpoint summarize_aux (aux_values : list (string * list Q))
    : res (list (string * summary_dict)) :=
  match aux_values with
  | [] => Ok []
  | (k, v) :: rest =>
      let* s := summarize py_sqrt v in
      let* more := summarize_aux rest in
      Ok ((k, s) :: more)
  end.

Definition build_row (name command cwd : string) (st : measure_state)
    : res result_row :=
  let* primary := summarize py_sqrt (success_metrics st) in
  let* wall := summarize py_sqrt (success_wall st) in
  let* aux := summarize_aux (aux_values st) in
  let summary :=
    mk_summary primary wall (Z.of_nat (length (success_metrics st)))
               (failed_runs st) aux None in
  let status :=
    match success_metrics st with [] => "failed" | _ :: _ => "ok" end in
  Ok (mk_row name status command cwd (measured_runs st) summary).

(** How the body of the second loop of [main] ends for one backend. *)
Inductive backend_flow : Type :=
| RowDone (row : result_row)
| RowExit (x : exit_kind) (measured : list run_entry).

(** The loops of the second loop's body, for one backend: warmup,
    measured runs, summary. *)
Definition run_loops (call : list spawn -> res run_output * list spawn)
    (strict_mode : bool) (timeout_s n_warmup n_runs : Z)
    (name command cwd : string) (trace : list spawn)
    : backend_flow * list spawn :=
  match warmup_loop call strict_mode (Z.to_nat n_warmup) trace with
  | (Exit x _, trace') => (RowExit x [], trace')
  | (Done _, trace') =>
      match measure_loop call strict_mode timeout_s (py_range1 n_runs)
                         initial_measure trace' with
      | (Exit x st, trace'') => (RowExit x (measured_runs st), trace'')
      | (Done st, trace'') =>
          match build_row name command cwd st with
          | Raise e => (RowExit (Raised e) (measured_runs st), trace'')
          | Ok row => (RowDone row, trace'')
          end
      end
  end.

(** What the body prepares before it runs anything: the environment and
    the extraction rules, packed into the call of [run_once] that both
    loops repeat. *)
Definition backend_call (metric : MetricConfig) (vars : gmap string string)
    (fallback : bool) (timeout_s : Z) (b : backend) (command : string)
    : res (list spawn -> res run_output * list spawn) :=
  let* env := build_env vars (b_env b) os_environ in
  let* metric_regexes := select_metric_regexes metric fallback b in
  let* aux_regexes := build_aux_regexes metric b in
  Ok (run_once (b_name b) command (resolve_path (b_cwd b)) timeout_s env
               metric_regexes aux_regexes fallback).

(** The body of the second loop for an enabled backend [b] whose name
    is in [backend_commands], with [command] its entry there. *)
Definition run_backend (metric : MetricConfig) (vars : gmap string string)
    (strict_mode fallback : bool) (n_runs n_warmup timeout_s : Z)
    (b : backend) (command : string) (trace : list spawn)
    : backend_flow * list spawn :=
  match backend_call metric vars fallback timeout_s b command with
  | Raise e => (RowExit (Raised e) [], trace)
  | Ok call =>
      run_loops call strict_mode timeout_s n_warmup n_runs
                (b_name b) command (resolve_path (b_cwd b)) trace
  end.

(** How the second loop of [main] ends. *)
Inductive schedule_flow : Type :=
| Completed (result_rows : list result_row)
| Stopped (x : exit_kind) (result_rows : list result_row)
          (measured : list run_entry).

Fixpoint run_backends (metric : MetricConfig) (vars : gmap string string)
    (strict_mode fallback : bool) (n_runs n_warmup timeout_s : Z)
    (backend_commands : gmap string string) (bs : list backend)
    (result_rows : list result_row) (trace : list spawn)
    : schedule_flow * list spawn :=
  match bs with
  | [] => (Completed result_rows, trace)
  | b :: rest =>
      if negb (b_enabled b)
      then run_backends metric vars strict_mode fallback n_runs n_warmup
                        timeout_s backend_commands rest result_rows trace
      else
        match backend_commands !! b_name b with
        | None =>
            run_backends metric vars strict_mode fallback n_runs n_warmup
                         timeout_s backend_commands rest result_rows trace
        | Some command =>
            match run_backend metric vars strict_mode fallback n_runs
                              n_warmup timeout_s b command trace with
            | (RowExit x measured, trace') =>
                (Stopped x result_rows measured, trace')
            | (RowDone row, trace') =>
                run_backends metric vars strict_mode fallback n_runs n_warmup
                             timeout_s backend_commands rest
                             (result_rows ++ [row])%list trace'
            end
        end
  end.

(** The run counts and the fallback policy [main] works with. *)
Definition effective_runs (args : cli_args) (cfg : config) : Z :=
  if arg_runs args <? 0 then runs cfg else arg_runs args.

Definition effective_warmup_runs (args : cli_args) (cfg : config) : Z :=
  if arg_warmup_runs args <? 0 then warmup_runs cfg else arg_warmup_runs args.

Definition effective_fallback (metric : MetricConfig) (cfg : config) : bool :=
  match metric_fallback_to_wall_time cfg with
  | Some b => b
  | None => String.eqb (m_key metric) "wall_seconds"
  end.

(** The end of [main], after the second loop: ranking and reports. *)
Definition finish (metric : MetricConfig)
    (sched : schedule_flow * list spawn) : outcome :=
  match sched with
  | (Stopped x result_rows measured, trace) =>
      mk_outcome x trace result_rows measured None
  | (Completed result_rows, trace) =>
      match rank_results metric result_rows with
      | Raise e => mk_outcome (Raised e) trace result_rows [] None
      | Ok (rows', _) => mk_outcome (Returned 0) trace rows' [] (Some rows')
      end
  end.

(** [main]; [loaded] is the configuration file, absent when the path
    does not exist. *)
Definition main (args : cli_args) (loaded : option config) : outcome :=
  match loaded with
  | None => mk_outcome (Returned 1) [] [] [] None
  | Some cfg =>
  match from_config cfg with
  | Raise e => mk_outcome (Raised e) [] [] [] None
  | Ok metric =>
      let n_runs := effective_runs args cfg in
      let n_warmup := effective_warmup_runs args cfg in
      let timeout_s := timeout_seconds cfg in
      let fallback := effective_fallback metric cfg in
      let vars := build_template_variables cfg in
      match backends cfg with
      | [] => mk_outcome (Returned 1) [] [] [] None
      | _ :: _ =>
      let backend_filters := parse_backend_filters (arg_backend args) in
      match resolve_commands vars backend_filters (backends cfg) ∅ with
      | Raise e => mk_outcome (Raised e) [] [] [] None
      | Ok backend_commands =>
          if bool_decide (backend_commands = ∅)
          then mk_outcome (Returned 1) [] [] [] None
          else if arg_dry_run args
          then mk_outcome (Returned 0) [] [] [] None
          else
            finish metric
              (run_backends metric vars (strict cfg) fallback n_runs
                            n_warmup timeout_s backend_commands
                            (backends cfg) [] [])
      end end
  end end.

End Program.

(** ** Metric extraction, as the specification words it *)

Section ExtractionSpec.
Variable re_search : string -> string -> re_flags -> re_outcome.
Variable py_float : string -> option Q.

(** The number one pattern yields on a text: the first capture group of
    its case-insensitive match, when that parses as a number. *)
Definition numeric_capture (text pattern : string) : option Q :=
  match re_search pattern text (mk_flags true true) with
  | ReMatch (Some capture :: _) => py_float capture
  | _ => None
  end.

(** Extraction: the number of the first pattern, in declaration order,
    that yields one; absent when none does. *)
Fixpoint first_numeric_capture (text : string) (regexes : list string)
    : option Q :=
  match regexes with
  | [] => None
  | pattern :: rest =>
      match numeric_capture text pattern with
      | Some v => Some v
      | None => first_numeric_capture text rest
      end
  end.

(** A pattern within the contract of the backend interface on a text:
    the regex library accepts it, and when it matches, its capture
    group 1 exists and took part in the match. *)
Definition pattern_in_contract (text pattern : string) : bool :=
  match re_search pattern text (mk_flags true true) with
  | RePatternError => false
  | ReNoMatch => true
  | ReMatch (Some _ :: _) => true
  | ReMatch _ => false
  end.
End ExtractionSpec.

(** ** The state after a failed measured run *)

(** The entry a measured timeout records, and the accumulators after it. *)
Definition timeout_entry (timeout_s i : Z) : run_entry :=
  RunTimedOut i ("timeout after " ++ str_of_Z timeout_s ++ "s").

Definition after_timeout (timeout_s i : Z) (st : measure_state) : measure_state :=
  mk_measure (measured_runs st ++ [timeout_entry timeout_s i]) (success_metrics st)
             (success_wall st) (aux_values st) (failed_runs st + 1).

(** Whether a completed run counts as successful. *)
Definition run_ok (record : run_output) : bool :=
  (ro_exit_code record =? 0) &&
  match ro_primary_metric record with Some _ => true | None => false end.

(** The entry a completed run records, and the accumulators after a
    completed run that failed. *)
Definition measured_entry (i : Z) (record : run_output) : run_entry :=
  RunMeasured i (run_ok record) (ro_exit_code record) (ro_wall_seconds record)
              (ro_primary_metric record) (ro_aux_metrics record)
              (last_chars 1200 (ro_stdout record))
              (last_chars 1200 (ro_stderr record)).

Definition after_failure (i : Z) (record : run_output) (st : measure_state)
    : measure_state :=
  mk_measure (measured_runs st ++ [measured_entry i record]) (success_metrics st)
             (success_wall st) (aux_values st) (failed_runs st + 1).

(** ** Notions used to state the properties of the schedule *)

(** [call] spawns one process per call, for backend [name], running
    [command]. *)
Definition spawns_for (name command : string)
    (call : list spawn -> res run_output * list spawn) : Prop :=
  forall t, exists sp,
    snd (call t) = (t ++ [sp])%list /\
    sp_backend sp = name /\ sp_command sp = command.

(** The backends the second loop of [main] runs: enabled, and with their
    name, as written, a key of [backend_commands]. *)
Definition is_scheduled (backend_commands : gmap string string) (b : backend)
    : bool :=
  b_enabled b &&
  match backend_commands !! b_name b with Some _ => true | None => false end.

(** The backends the first loop of [main] resolves a command for:
    enabled, and selected by the filter under their stripped name. *)
Definition is_resolved (filters : list string) (b : backend) : bool :=
  b_enabled b && backend_is_selected (strip (b_name b)) filters.

(** ** A concrete runtime and concrete configurations

    The reference models above, a repository rooted at [/repo], an empty
    inherited environment, and a scripted process table in the manner of
    [mock_backend.py]: a command that starts with [hang] times out, one
    that starts with [fail] exits with code 1 and prints no metric, any
    other prints a throughput line and exits with code 0. *)
Definition resolve_path_model (p : string) : string :=
  if String.prefix "/" p then p else "/repo/" ++ p.

Fixpoint path_name_go (cur : string) (s : string) : string :=
  match s with
  | EmptyString => string_rev cur
  | String c rest =>
      if Ascii.eqb c "/" then path_name_go EmptyString rest
      else path_name_go (String c cur) rest
  end.

Definition path_name_model (p : string) : string := path_name_go EmptyString p.

Definition mock_process (n : nat) (sp : spawn) : proc_outcome :=
  if String.prefix "hang" (sp_command sp) then ProcTimeout
  else if String.prefix "fail" (sp_command sp)
  then ProcExit 1 EmptyString "error: model not found" (1 # 10)
  else ProcExit 0 ("backend=" ++ sp_backend sp ++ newline
                   ++ "tokens/sec: 41.7000" ++ newline)
                EmptyString (1 # 4).

Definition demo_main : cli_args -> option config -> outcome :=
  main py_format re_search_model float_of_decimal sqrt_6dp ∅
       resolve_path_model "/repo" path_name_model mock_process.

Definition demo_args : cli_args := mk_args false (-1) (-1) EmptyString.

Definition demo_metric : MetricConfig :=
  mk_metric "tokens_per_second" "tokens/s" "higher".

Definition demo_backend (name command : string) (env : list (string * string))
    : backend :=
  mk_backend true name command "." env JNull
             [("tokens_per_second", JString "tokens/sec:\s*([0-9.]+)")] [].

Definition demo_config (strict_mode : bool) (n_runs n_warmup : Z)
    (bs : list backend) : config :=
  mk_config "demo" "models/m.gguf" None "hi" 16 n_runs n_warmup 900 strict_mode
            demo_metric None [] bs.

(** Three backends, the second failing on every run. *)
Definition three_backends : list backend :=
  [demo_backend "b1" "mock --model {model_name}" [];
   demo_backend "b2" "fail --model {model_name}" [];
   demo_backend "b3" "mock --tokens {max_tokens}" []].

(** A second backend whose environment refers to an undefined variable,
    and one whose command template does. *)
Definition bad_env_backends : list backend :=
  [demo_backend "b1" "mock" [];
   demo_backend "b2" "mock" [("CACHE_DIR", "{cache_dir}/b2")]].

Definition bad_template_backends : list backend :=
  [demo_backend "b1" "mock" [];
   demo_backend "b2" "mock --threads {threads}" []].


Definition padded_twin_backends : list backend :=
  [demo_backend " twin " "mock --first" [];
   demo_backend " twin " "mock --second" []].


(** A backend with both extraction mappings. *)
Definition aux_backend : backend :=
  mk_backend true "b" "mock" "." [] JNull
    [("tokens_per_second", JString "tokens/sec:\s*([0-9.]+)");
     ("peak_vram_gb", JString "vram=([0-9.]+)");
     ("prompt_eval_ms", JList [JItemStr "prompt_eval_ms:\s*([0-9.]+)"])]
    [("peak_vram_gb", JString "peak_vram_gb:\s*([0-9.]+)")].

(** A result row with status "ok" and the given median. *)
Definition row_with_median (name : string) (m : Q) : result_row :=
  mk_row name "ok" "mock" "/repo/." []
         (mk_summary (Summary (mk_stats m m m m m 0)) EmptySummary 1 0 [] None).

Definition row_ratio (row : result_row) : option Q :=
  sm_median_vs_best (row_summary row).

(** The runs of [main] examined below. *)
Definition strict_halt_run : outcome :=
  demo_main demo_args (Some (demo_config true 2 1 three_backends)).

Definition lenient_run : outcome :=
  demo_main demo_args (Some (demo_config false 2 1 three_backends)).

Definition bad_env_run : outcome :=
  demo_main demo_args (Some (demo_config true 2 1 bad_env_backends)).

Definition bad_template_run : outcome :=
  demo_main demo_args (Some (demo_config true 2 1 bad_template_backends)).


Definition padded_twin_run : outcome :=
  demo_main demo_args (Some (demo_config true 1 0 padded_twin_backends)).



(** What the first backend of [bad_env_run] leaves behind: its processes
    and its row. *)
Definition bad_env_trace : list spawn :=
  Eval vm_compute in out_trace bad_env_run.

Definition bad_env_rows : list result_row :=
  Eval vm_compute in out_result_rows bad_env_run.



(** ** Consistency of the accumulators and of a row *)

(** The accumulators of the measured loop agree with the recorded runs. *)
Definition measure_consistent (st : measure_state) : Prop :=
  length (success_wall st) = length (success_metrics st) /\
  length (filter (fun e => entry_ok e = true) (measured_runs st))
    = length (success_metrics st) /\
  Z.of_nat (length (measured_runs st))
    = (Z.of_nat (length (success_metrics st)) + failed_runs st)%Z.

(** The counters, the status and the run list of a row agree. *)
Definition row_consistent (row : result_row) : Prop :=
  sm_success_runs (row_summary row)
    = Z.of_nat (length (filter (fun e => entry_ok e = true) (row_runs row))) /\
  (sm_success_runs (row_summary row) + sm_failed_runs (row_summary row))%Z
    = Z.of_nat (length (row_runs row)) /\
  (row_status row = "ok" \/ row_status row = "failed") /\
  (row_status row = "ok" <-> (0 < sm_success_runs (row_summary row))%Z) /\
  (row_status row = "ok" <-> row_median row <> None) /\
  (is_good row = true <-> row_status row = "ok").

(** The ways the loops of a backend leave [main]: an exception, or exit
    code 2 under strict mode. *)
Definition loop_exit (strict_mode : bool) (x : exit_kind) : Prop :=
  (exists e, x = Raised e) \/ (x = Returned 2 /\ strict_mode = true).

(** ** Output file stem *)

Fixpoint map_chars (f : ascii -> ascii) (s : string) : string :=
  match s with
  | EmptyString => EmptyString
  | String c rest => String (f c) (map_chars f rest)
  end.

(** A character [output_stem] keeps; [py_isalnum] is [str.isalnum] on one
    character. *)
Definition stem_char_ok (py_isalnum : ascii -> bool) (ch : ascii) : bool :=
  py_isalnum ch || Ascii.eqb ch "_" || Ascii.eqb ch "-".

Definition output_stem (py_isalnum : ascii -> bool) (cfg : config) : string :=
  let name :=
    match strip (benchmark_name cfg) with
    | EmptyString => "gguf_compare"
    | String c rest => String c rest
    end in
  map_chars (fun ch => if stem_char_ok py_isalnum ch then ch else "_"%char) name.

(** [str.isalnum] on ASCII. *)
Definition is_alnum_ascii (c : ascii) : bool := is_alpha c || is_digit c.

(** A call of [run_once] for a well-behaved backend, and what its first
    call returns. *)
Definition mock_call : list spawn -> res run_output * list spawn :=
  run_once re_search_model float_of_decimal mock_process "b1" "mock" "/repo/."
           900 ∅ ["tokens/sec:\s*([0-9.]+)"] [] false.

Definition mock_record : run_output :=
  Eval vm_compute in
    match fst (mock_call []) with
    | Ok record => record
    | Raise _ => mk_run_output EmptyString EmptyString 0 0 None [] EmptyString EmptyString
    end.

(** A configuration whose user variables try to set a computed name. *)
Definition shadowing_config : config :=
  mk_config "demo" "models/m.gguf" None "hi" 16 2 1 900 true demo_metric None
            [("prompt", "from the user"); ("threads", "8")] three_backends.

(** A configuration with a direction in capitals and a name to sanitise. *)
Definition shouting_config : config :=
  mk_config " my bench! " "models/m.gguf" None "hi" 16 2 1 900 true
            (mk_metric "tokens_per_second" "tokens/s" "HIGHER") None [] three_backends.

(** Auxiliary rules of which one finds no number. *)
Definition two_aux_rules : list (string * list string) :=
  [("peak_vram_gb", ["peak_vram_gb:\s*([0-9.]+)"]);
   ("prompt_eval_ms", ["prompt_eval_ms:\s*([0-9.]+)"])].

(** Command lines: a dry run, and a filter that no backend matches. *)
Definition dry_args : cli_args := mk_args true (-1) (-1) EmptyString.


Definition two_rows : list result_row :=
  [row_with_median "a" 50; row_with_median "b" 100].

(** A process whose working directory does not exist. *)
Definition broken_process (n : nat) (sp : spawn) : proc_outcome := ProcRaises OSError.

Definition broken_call : list spawn -> res run_output * list spawn :=
  run_once re_search_model float_of_decimal broken_process "b1" "mock" "/gone"
           900 ∅ ["tokens/sec:\s*([0-9.]+)"] [] false.

(** [",".join(items)], which undoes [split(",")]. *)
Fixpoint join_comma (items : list string) : string :=
  match items with
  | [] => EmptyString
  | item :: rest =>
      match rest with
      | [] => item
      | _ :: _ => item ++ "," ++ join_comma rest
      end
  end.

Definition no_comma (s : string) : bool :=
  all_chars (fun c => negb (Ascii.eqb c ",")) s.





(* ================================================================= *)
(** * Properties *)

(** ** Facts about the numeric helpers *)

Local Open Scope Q_scope.

Lemma Qltb_lt (x y : Q) : Qltb x y = true <-> x < y.
Proof.
  unfold Qltb. rewrite negb_true_iff, <- not_true_iff_false, Qle_bool_iff.
  split; [apply Qnot_le_lt | apply Qlt_not_le].
Qed.

Lemma Qltb_ge (x y : Q) : Qltb x y = false <-> y <= x.
Proof. unfold Qltb. rewrite negb_false_iff. apply Qle_bool_iff. Qed.

Definition is_minimum (v : Q) (values : list Q) : Prop :=
  In v values /\ Forall (fun y => v <= y) values.

Definition is_maximum (v : Q) (values : list Q) : Prop :=
  In v values /\ Forall (fun y => y <= v) values.

Lemma min_from_spec (xs : list Q) : forall x, is_minimum (min_from x xs) (x :: xs).
Proof.
  unfold min_from, is_minimum.
  induction xs as [|y ys IH]; intros x; simpl.
  - split; [now left | repeat constructor; apply Qle_refl].
  - destruct (Qltb y x) eqn:E.
    + apply Qltb_lt in E. destruct (IH y) as [Hin Hall]. split.
      * simpl in Hin. tauto.
      * inversion Hall as [|? ? Hy Hys]; subst.
        constructor; [apply Qle_trans with y; [exact Hy | apply Qlt_le_weak, E]|].
        constructor; assumption.
    + apply Qltb_ge in E. destruct (IH x) as [Hin Hall]. split.
      * simpl in Hin. tauto.
      * inversion Hall as [|? ? Hx Hys]; subst.
        constructor; [exact Hx|].
        constructor; [apply Qle_trans with x; assumption | assumption].
Qed.

Lemma max_from_spec (xs : list Q) : forall x, is_maximum (max_from x xs) (x :: xs).
Proof.
  unfold max_from, is_maximum.
  induction xs as [|y ys IH]; intros x; simpl.
  - split; [now left | repeat constructor; apply Qle_refl].
  - destruct (Qltb x y) eqn:E.
    + apply Qltb_lt in E. destruct (IH y) as [Hin Hall]. split.
      * simpl in Hin. tauto.
      * inversion Hall as [|? ? Hy Hys]; subst.
        constructor; [apply Qle_trans with y; [apply Qlt_le_weak, E | exact Hy]|].
        constructor; assumption.
    + apply Qltb_ge in E. destruct (IH x) as [Hin Hall]. split.
      * simpl in Hin. tauto.
      * inversion Hall as [|? ? Hx Hys]; subst.
        constructor; [exact Hx|].
        constructor; [apply Qle_trans with x; assumption | assumption].
Qed.

(** The stable insertion sort yields a sorted permutation. *)
Section SortedBy.
Context {A : Type} (key : A -> Q).

Definition key_le (x y : A) : Prop := key x <= key y.

Lemma insert_by_perm (x : A) (l : list A) : Permutation (x :: l) (insert_by key x l).
Proof.
  induction l as [|y l IH]; simpl; [reflexivity|].
  destruct (Qle_bool (key x) (key y)); [reflexivity|].
  rewrite perm_swap. now constructor.
Qed.

Lemma sorted_by_perm (l : list A) : Permutation l (sorted_by key l).
Proof.
  induction l as [|x l IH]; simpl; [reflexivity|].
  rewrite <- insert_by_perm. now constructor.
Qed.

Lemma sorted_by_length (l : list A) : length (sorted_by key l) = length l.
Proof. symmetry. apply Permutation_length, sorted_by_perm. Qed.

Lemma insert_by_sorted (x : A) (l : list A) :
  StronglySorted key_le l -> StronglySorted key_le (insert_by key x l).
Proof.
  induction 1 as [|y l Hs IH Hall]; simpl.
  - repeat constructor.
  - destruct (Qle_bool (key x) (key y)) eqn:E.
    + apply Qle_bool_iff in E. constructor; [now constructor|].
      constructor; [exact E|].
      eapply Forall_impl; [exact Hall|].
      intros z Hz. unfold key_le in *. eapply Qle_trans; eassumption.
    + assert (Hyx : key y <= key x).
      { apply Qlt_le_weak, Qnot_le_lt. intros H. apply Qle_bool_iff in H. congruence. }
      constructor; [exact IH|].
      apply (Permutation_Forall (insert_by_perm x l)).
      constructor; assumption.
Qed.

Lemma sorted_by_sorted (l : list A) : StronglySorted key_le (sorted_by key l).
Proof.
  induction l as [|x l IH]; simpl; [constructor | now apply insert_by_sorted].
Qed.
End SortedBy.

(** ** Percentile *)

Lemma py_index_ok {A} (xs : list A) (i : Z) :
  (0 <= i < Z.of_nat (length xs))%Z ->
  exists x, py_index xs i = Ok x /\ nth_error xs (Z.to_nat i) = Some x.
Proof.
  intros [H0 Hn]. unfold py_index.
  destruct (Z.ltb_spec i 0) as [Hneg|_]; [lia|].
  destruct (Z.ltb_spec i 0) as [Hneg|_]; [lia|].
  destruct (Z.leb_spec (Z.of_nat (length xs)) i) as [Hge|_]; [lia|]. simpl.
  destruct (nth_error xs (Z.to_nat i)) as [x|] eqn:E; [eauto|].
  apply nth_error_None in E. lia.
Qed.

Lemma floor_ceiling_cases (k : Q) :
  (Qceiling k = Qfloor k /\ k == inject_Z (Qfloor k)) \/
  (Qceiling k = (Qfloor k + 1)%Z /\ inject_Z (Qfloor k) < k).
Proof.
  pose proof (Qfloor_le k) as Hf. pose proof (Qlt_floor k) as Hf'.
  pose proof (Qle_ceiling k) as Hc. pose proof (Qceiling_lt k) as Hc'.
  assert (H1 : (Qfloor k <= Qceiling k)%Z).
  { rewrite Zle_Qle. eapply Qle_trans; eassumption. }
  assert (H2 : (Qceiling k - 1 < Qfloor k + 1)%Z).
  { rewrite Zlt_Qlt. eapply Qlt_trans; eassumption. }
  destruct (Z.eq_dec (Qceiling k) (Qfloor k)) as [E|NE].
  - left. split; [exact E|]. rewrite E in Hc. apply Qle_antisym; assumption.
  - right. assert (E : Qceiling k = (Qfloor k + 1)%Z) by lia. split; [exact E|].
    rewrite E in Hc'. replace (Qfloor k + 1 - 1)%Z with (Qfloor k) in Hc' by lia.
    exact Hc'.
Qed.

Lemma Qlen_pos {A} (x : A) (xs : list A) : 1 <= Qlen (x :: xs).
Proof.
  unfold Qlen. change 1 with (inject_Z 1). rewrite <- Zle_Qle. simpl length. lia.
Qed.

Lemma percentile_rank_bounds (n p : Q) :
  1 <= n -> 0 < p -> p < 100 ->
  0 <= (n - 1) * (p / 100) /\ (n - 1) * (p / 100) <= n - 1 /\
  (1 < n -> (n - 1) * (p / 100) < n - 1).
Proof.
  intros Hn H0 H100.
  assert (Hc0 : 0 < p / 100) by (apply Qlt_shift_div_l; lra).
  assert (Hc1 : p / 100 < 1) by (apply Qlt_shift_div_r; lra).
  set (c := p / 100) in *. clearbody c. repeat split; try nra.
Qed.

Lemma py_int_nonneg (k : Q) : 0 <= k -> py_int k = Qfloor k.
Proof.
  intros H. unfold py_int.
  destruct (Qle_bool 0 k) eqn:E; [reflexivity|].
  apply Qle_bool_iff in H. congruence.
Qed.

Lemma percentile_between (values : list Q) (p : Q) :
  values <> [] -> 0 < p -> p < 100 ->
  let sorted_values := py_sorted values in
  let k := (Qlen values - 1) * (p / 100) in
  exists v lo hi,
    percentile values p = Ok v /\
    nth_error sorted_values (Z.to_nat (Qfloor k)) = Some lo /\
    nth_error sorted_values (Z.to_nat (Qceiling k)) = Some hi /\
    v == lo * (1 - (k - inject_Z (Qfloor k))) + hi * (k - inject_Z (Qfloor k)).
Proof.
  intros Hne H0 H100 sorted_values k.
  destruct values as [|x xs]; [congruence|].
  unfold percentile.
  destruct (Qle_bool p 0) eqn:E0; [apply Qle_bool_iff in E0; lra|].
  destruct (Qle_bool 100 p) eqn:E1; [apply Qle_bool_iff in E1; lra|].
  fold sorted_values.
  assert (Hlen : length sorted_values = length (x :: xs)) by apply sorted_by_length.
  assert (HQlen : Qlen sorted_values = Qlen (x :: xs)) by (unfold Qlen; now rewrite Hlen).
  rewrite HQlen. fold k. rewrite Hlen.
  pose proof (Qlen_pos x xs) as Hn1.
  destruct (percentile_rank_bounds (Qlen (x :: xs)) p Hn1 H0 H100) as (Hk0 & Hk1 & Hk2).
  fold k in Hk0, Hk1, Hk2.
  rewrite (py_int_nonneg k Hk0).
  pose proof (Qfloor_le k) as Hfl.
  set (n := Z.of_nat (length (x :: xs))) in *.
  assert (Hn : (1 <= n)%Z) by (subst n; simpl length; lia).
  assert (HQn : Qlen (x :: xs) = inject_Z n) by reflexivity.
  assert (Hlo0 : (0 <= Qfloor k)%Z).
  { apply Qfloor_resp_le in Hk0. exact Hk0. }
  assert (Hlo1 : (Qfloor k <= n - 1)%Z).
  { rewrite Zle_Qle. eapply Qle_trans; [exact Hfl|].
    rewrite HQn in Hk1. unfold Zminus. rewrite inject_Z_plus. exact Hk1. }
  destruct (floor_ceiling_cases k) as [[Hc Hkint]|[Hc Hklt]].
  - (* k is an integer: both order statistics coincide *)
    destruct (py_index_ok sorted_values (Qfloor k)) as (lo & Hlo & Hnth); [lia|].
    rewrite Hc.
    destruct (Z.eqb_spec (Qfloor k) (Z.min (Qfloor k + 1) (n - 1))) as [Heq|Hneq].
    + exists lo, lo, lo. rewrite Hlo. repeat split; try assumption. ring.
    + assert (Hup : Z.min (Qfloor k + 1) (n - 1) = (Qfloor k + 1)%Z) by lia.
      rewrite Hup.
      destruct (py_index_ok sorted_values (Qfloor k + 1)) as (hi & Hhi & _); [lia|].
      rewrite Hlo, Hhi. cbn [res_bind].
      eexists _, lo, lo. repeat split; try assumption.
      assert (Hf : k - inject_Z (Qfloor k) == 0) by lra.
      rewrite Hf. ring.
  - (* k lies strictly between two consecutive ranks *)
    assert (Hlt : (Qfloor k < n - 1)%Z).
    { rewrite Zlt_Qlt. eapply Qlt_le_trans; [exact Hklt|].
      rewrite HQn in Hk1. unfold Zminus. rewrite inject_Z_plus. exact Hk1. }
    destruct (py_index_ok sorted_values (Qfloor k)) as (lo & Hlo & Hnlo); [lia|].
    destruct (py_index_ok sorted_values (Qfloor k + 1)) as (hi & Hhi & Hnhi); [lia|].
    rewrite Hc.
    destruct (Z.eqb_spec (Qfloor k) (Z.min (Qfloor k + 1) (n - 1))) as [Heq|Hneq]; [lia|].
    assert (Hup : Z.min (Qfloor k + 1) (n - 1) = (Qfloor k + 1)%Z) by lia.
    rewrite Hup, Hlo, Hhi. cbn [res_bind].
    eexists _, lo, hi. repeat split; assumption.
Qed.

Lemma py_sorted_sorted (values : list Q) : StronglySorted Qle (py_sorted values).
Proof. exact (sorted_by_sorted (fun v : Q => v) values). Qed.

Lemma py_sorted_perm (values : list Q) : Permutation values (py_sorted values).
Proof. exact (sorted_by_perm (fun v : Q => v) values). Qed.

(** C5. For a non-empty series, [percentile values p] is the minimum when
    [p <= 0], the maximum when [p >= 100], and otherwise the linear
    interpolation between the order statistics of ranks [floor k] and
    [ceil k] of the sorted series, [k = (n - 1) * p / 100]; in particular
    [percentile values 0] is [min(values)] and [percentile values 100] is
    [max(values)]. *)
Theorem percentile_order_statistics (values : list Q) (p : Q) :
  values <> [] ->
  let sorted_values := py_sorted values in
  let k := (Qlen values - 1) * (p / 100) in
  (p <= 0 ->
     exists v, percentile values p = Ok v /\ is_minimum v values) /\
  (100 <= p ->
     exists v, percentile values p = Ok v /\ is_maximum v values) /\
  (0 < p /\ p < 100 ->
     exists v lo hi,
       percentile values p = Ok v /\
       nth_error sorted_values (Z.to_nat (Qfloor k)) = Some lo /\
       nth_error sorted_values (Z.to_nat (Qceiling k)) = Some hi /\
       v == lo * (1 - (k - inject_Z (Qfloor k))) + hi * (k - inject_Z (Qfloor k))) /\
  percentile values 0 = py_min values /\
  percentile values 100 = py_max values /\
  StronglySorted Qle sorted_values /\ Permutation values sorted_values.
Proof.
  intros Hne sorted_values k.
  split; [|split; [|split; [|split; [|split; [|split]]]]].
  - intros Hp. destruct values as [|x xs]; [congruence|].
    exists (min_from x xs). split; [|apply min_from_spec].
    unfold percentile. apply Qle_bool_iff in Hp. now rewrite Hp.
  - intros Hp. destruct values as [|x xs]; [congruence|].
    exists (max_from x xs). split; [|apply max_from_spec].
    unfold percentile.
    destruct (Qle_bool p 0) eqn:E0; [apply Qle_bool_iff in E0; lra|].
    apply Qle_bool_iff in Hp. now rewrite Hp.
  - intros [H0 H100]. now apply percentile_between.
  - destruct values; [congruence | reflexivity].
  - destruct values; [congruence | reflexivity].
  - apply py_sorted_sorted.
  - apply py_sorted_perm.
Qed.


(** ** Summaries *)




Lemma py_index_In {A} (xs : list A) (i : Z) (x : A) :
  py_index xs i = Ok x -> In x xs.
Proof.
  unfold py_index.
  destruct (_ || _); [discriminate|].
  destruct (nth_error xs _) as [y|] eqn:E; [|discriminate].
  intros [= <-]. eapply nth_error_In, E.
Qed.

Lemma median_between (lo hi : Q) (data : list Q) :
  data <> [] ->
  Forall (fun y => lo <= y) data -> Forall (fun y => y <= hi) data ->
  exists m, statistics_median data = Ok m /\ lo <= m <= hi.
Proof.
  intros Hne Hlo Hhi.
  assert (Hlo' : Forall (fun y => lo <= y) (py_sorted data))
    by (eapply Permutation_Forall; [apply py_sorted_perm | exact Hlo]).
  assert (Hhi' : Forall (fun y => y <= hi) (py_sorted data))
    by (eapply Permutation_Forall; [apply py_sorted_perm | exact Hhi]).
  assert (Hlen : (0 < Z.of_nat (length (py_sorted data)))%Z).
  { unfold py_sorted. rewrite sorted_by_length. destruct data; [congruence | simpl; lia]. }
  unfold statistics_median.
  set (s := py_sorted data) in *. set (n := Z.of_nat (length s)) in *.
  rewrite Forall_forall in Hlo', Hhi'.
  destruct (Z.eqb_spec n 0) as [E|_]; [lia|].
  destruct (Z.odd n) eqn:Hodd.
  - destruct (py_index_ok s (n / 2)) as (m & Hm & _).
    { split; [apply Z.div_pos; lia | apply Z.div_lt; lia]. }
    exists m. split; [exact Hm|].
    apply py_index_In in Hm. apply list_elem_of_In in Hm. auto.
  - assert (Heven : (n = 2 * (n / 2))%Z).
    { rewrite (Z.div_mod n 2) at 1 by lia.
      rewrite Zmod_odd, Hodd. lia. }
    destruct (py_index_ok s (n / 2 - 1)) as (a & Ha & _); [lia|].
    destruct (py_index_ok s (n / 2)) as (b & Hb & _); [lia|].
    rewrite Ha, Hb. cbn [res_bind].
    exists ((a + b) / 2). split; [reflexivity|].
    apply py_index_In, list_elem_of_In in Ha, Hb.
    pose proof (Hlo' a Ha). pose proof (Hlo' b Hb).
    pose proof (Hhi' a Ha). pose proof (Hhi' b Hb).
    split; [apply Qle_shift_div_l | apply Qle_shift_div_r]; lra.
Qed.


(** ** The bar chart: properties *)

Lemma py_div_ok (x d : Q) : ~ d == 0 -> py_div x d = Ok (x / d).
Proof.
  intros Hd. unfold py_div.
  destruct (Qeq_bool d 0) eqn:E; [|reflexivity].
  apply Qeq_bool_iff in E. contradiction.
Qed.

Lemma chart_rows_lines_bars (left_pad : Z) (d : Q) (rows : list (string * Q)) :
  ~ d == 0 ->
  forall idx, exists body,
    chart_rows_lines left_pad d idx rows = Ok body /\
    bars_of body = map (fun r => snd r / d * inject_Z bar_area) rows.
Proof.
  intros Hd. induction rows as [|[name value] rest IH]; intros idx.
  - exists []. split; reflexivity.
  - destruct (IH (idx + 1)%Z) as (more & Hmore & Hbars).
    cbn [chart_rows_lines]. rewrite (py_div_ok value d Hd). cbn [res_bind].
    rewrite Hmore. cbn [res_bind].
    eexists. split; [reflexivity|].
    cbn [bars_of flat_map app map snd]. fold (bars_of more). now rewrite Hbars.
Qed.

(** C8. For a non-empty list of rows, whatever the sign of the medians,
    [build_svg_chart] raises nothing: its scale denominator is the largest
    median when that is positive and [1.0] otherwise, so it is never zero,
    and the chart holds one bar per row, of width
    [value / denominator * 560]. *)
Theorem chart_never_divides_by_zero (rows : list (string * Q)) (metric : MetricConfig) :
  rows <> [] ->
  exists largest d c,
    is_maximum largest (map snd rows) /\
    chart_max_value rows = Ok d /\
    (largest <= 0 -> d = 1) /\ (0 < largest -> d = largest) /\
    ~ d == 0 /\
    build_svg_chart rows metric = Ok c /\
    bar_widths c = map (fun r => snd r / d * inject_Z bar_area) rows /\
    length (bar_widths c) = length rows.
Proof.
  intros Hne. destruct rows as [|[name value] rest]; [congruence|].
  set (rows := (name, value) :: rest) in *.
  set (largest := max_from value (map snd rest)).
  set (d := if Qle_bool largest 0 then 1 else largest).
  assert (Hmax : py_max (map snd rows) = Ok largest) by reflexivity.
  assert (Hscale : chart_max_value rows = Ok d).
  { unfold chart_max_value. rewrite Hmax. reflexivity. }
  assert (Hd : ~ d == 0).
  { subst d. destruct (Qle_bool largest 0) eqn:E; [lra|].
    intros H0. rewrite H0 in E. discriminate. }
  destruct (chart_rows_lines_bars
              (Z.max 160 (fold_right Z.max 0%Z (map (fun r => py_len (fst r)) rows) * 8 + 20))
              d rows Hd 0%Z) as (body & Hbody & Hbars).
  exists largest, d. eexists.
  split; [apply (max_from_spec (map snd rest) value)|].
  split; [exact Hscale|].
  split; [intros Hle; subst d; apply Qle_bool_iff in Hle; now rewrite Hle|].
  split.
  { intros Hlt. subst d. destruct (Qle_bool largest 0) eqn:E; [|reflexivity].
    apply Qle_bool_iff in E. lra. }
  split; [exact Hd|].
  unfold build_svg_chart. fold rows. rewrite Hscale. cbn [res_bind].
  rewrite Hbody. cbn [res_bind].
  split; [reflexivity|].
  assert (Hw : bars_of ([SvgOpen
      (Z.max 160 (fold_right Z.max 0%Z (map (fun r => py_len (fst r)) rows) * 8 + 20)
       + bar_area + 140)
      (top_pad + bottom_pad + row_h * Z.of_nat (length rows)); SvgBackground;
      SvgTitle (Z.max 160 (fold_right Z.max 0%Z (map (fun r => py_len (fst r)) rows) * 8 + 20))
        (html_escape (m_key metric)) (html_escape (m_unit metric))] ++ body ++ [SvgClose])
      = map (fun r => snd r / d * inject_Z bar_area) rows).
  { unfold bars_of. rewrite !flat_map_app. cbn [flat_map app].
    fold (bars_of body). rewrite Hbars. apply app_nil_r. }
  cbn [bar_widths]. split; [exact Hw|].
  rewrite Hw. apply length_map.
Qed.

(** ** Ranking: properties *)

Lemma ranked_perm (metric : MetricConfig) (rows : list result_row) :
  Permutation (filter is_good rows) (ranked metric rows).
Proof. apply sorted_by_perm. Qed.

Lemma ranked_sorted (metric : MetricConfig) (rows : list result_row) :
  StronglySorted
    (fun a b => ranking_key (m_direction metric) (median_of a)
                <= ranking_key (m_direction metric) (median_of b))
    (ranked metric rows).
Proof.
  exact (sorted_by_sorted
           (fun r => ranking_key (m_direction metric) (median_of r))
           (filter is_good rows)).
Qed.

Lemma best_median_spec (metric : MetricConfig) (rows : list result_row) :
  let medians := map median_of (filter is_good rows) in
  match best_median metric rows with
  | None => filter is_good rows = []
  | Some b =>
      filter is_good rows <> [] /\
      if String.eqb (m_direction metric) "higher"
      then is_maximum b medians else is_minimum b medians
  end.
Proof.
  intros medians. unfold best_median. fold medians.
  destruct (filter is_good rows) as [|r rs] eqn:E; [reflexivity|].
  subst medians. cbn [map]. split; [discriminate|].
  destruct (String.eqb (m_direction metric) "higher");
    [apply max_from_spec | apply min_from_spec].
Qed.

Lemma assign_ratios_spec (metric : MetricConfig) (best : Q) (rows : list result_row) :
  0 < best ->
  (String.eqb (m_direction metric) "higher" = false ->
   Forall (fun r => is_good r = true -> best <= median_of r) rows) ->
  exists rows',
    assign_ratios metric best rows = Ok rows' /\
    Forall2 (fun r r' =>
               if is_good r
               then exists q, r' = set_median_vs_best r q /\
                              q == (if String.eqb (m_direction metric) "higher"
                                    then median_of r / best
                                    else best / median_of r)
               else r' = r) rows rows'.
Proof.
  intros Hbest Hlow. induction rows as [|r rest IH].
  - exists []. split; [reflexivity | constructor].
  - destruct IH as (rest' & Hrest & Hall).
    { intros Hdir. specialize (Hlow Hdir). now inversion Hlow. }
    cbn [assign_ratios]. rewrite Hrest.
    destruct (is_good r) eqn:Hgood.
    + unfold median_ratio.
      destruct (String.eqb (m_direction metric) "higher") eqn:Hdir.
      * rewrite py_div_ok by lra. cbn [res_bind].
        eexists. split; [reflexivity|].
        constructor; [|exact Hall]. rewrite Hgood. eexists. split; reflexivity.
      * specialize (Hlow eq_refl). inversion Hlow as [|? ? Hr _]; subst.
        specialize (Hr Hgood).
        assert (Hmed : ~ median_of r == 0) by lra.
        destruct (Qeq_bool (median_of r) 0) eqn:E;
          [apply Qeq_bool_iff in E; contradiction|].
        rewrite py_div_ok by exact Hmed. cbn [res_bind].
        eexists. split; [reflexivity|].
        constructor; [|exact Hall]. rewrite Hgood. eexists. split; reflexivity.
    + cbn [res_bind]. eexists. split; [reflexivity|].
      constructor; [|exact Hall]. now rewrite Hgood.
Qed.

Lemma minimum_below_good (b : Q) (rows : list result_row) :
  is_minimum b (map median_of (filter is_good rows)) ->
  Forall (fun r => is_good r = true -> b <= median_of r) rows.
Proof.
  intros [_ Hall]. rewrite Forall_forall in Hall.
  apply Forall_forall. intros r Hr Hgood.
  apply Hall. apply list_elem_of_fmap. exists r. split; [reflexivity|].
  apply list_elem_of_filter. split; [now rewrite Hgood | exact Hr].
Qed.

(** C4 (amended). The ranking is the list of the rows with status "ok" and
    a defined median, sorted ascending by the raw median for direction
    "lower" and by the negated median for "higher".  The best median is
    the largest ("higher") or the smallest ("lower") of their medians; a
    ranked row's ratio is its median divided by the best median for
    "higher" and the best median divided by its median for "lower".
    Ratios are omitted exactly when no row is ranked or the best median
    is not positive (zero or negative). *)
Theorem ranking_and_ratios (metric : MetricConfig) (rows : list result_row) :
  let higher := String.eqb (m_direction metric) "higher" in
  let good := filter is_good rows in
  let medians := map median_of good in
  Permutation good (ranked metric rows) /\
  StronglySorted
    (fun a b => if higher then - median_of a <= - median_of b
                else median_of a <= median_of b)
    (ranked metric rows) /\
  exists rows' best,
    rank_results metric rows = Ok (rows', best) /\
    (best = None <-> good = []) /\
    (forall b, best = Some b ->
       (if higher then is_maximum b medians else is_minimum b medians) /\
       (b <= 0 -> rows' = rows) /\
       (0 < b ->
        Forall2 (fun r r' =>
                   if is_good r
                   then exists q,
                          r' = set_median_vs_best r q /\
                          q == (if higher then median_of r / b
                                else b / median_of r)
                   else r' = r) rows rows')) /\
    (best = None -> rows' = rows).
Proof.
  intros higher good medians.
  split; [apply ranked_perm|]. split.
  { pose proof (ranked_sorted metric rows) as Hs.
    unfold ranking_key in Hs. fold higher in Hs.
    destruct higher; exact Hs. }
  pose proof (best_median_spec metric rows) as Hbest.
  cbv zeta in Hbest. fold good in Hbest. fold medians in Hbest. fold higher in Hbest.
  unfold rank_results.
  destruct (best_median metric rows) as [b|].
  - destruct Hbest as [Hne Hext].
    destruct (Qltb 0 b) eqn:Hpos.
    + apply Qltb_lt in Hpos.
      destruct (assign_ratios_spec metric b rows Hpos) as (rows' & Hrows & Hall).
      { intros Hdir. apply minimum_below_good.
        unfold higher in Hext. rewrite Hdir in Hext. exact Hext. }
      rewrite Hrows. cbn [res_bind].
      exists rows', (Some b). split; [reflexivity|].
      split; [split; [discriminate | intros; contradiction]|].
      split; [|discriminate].
      intros b' [= <-]. split; [exact Hext|].
      split; [intros Hle; lra | intros _; exact Hall].
    + apply Qltb_ge in Hpos.
      exists rows, (Some b). split; [reflexivity|].
      split; [split; [discriminate | intros; contradiction]|].
      split; [|discriminate].
      intros b' [= <-]. split; [exact Hext|].
      split; [reflexivity | intros Hlt; lra].
  - exists rows, None. split; [reflexivity|].
    split; [split; intros; [exact Hbest | reflexivity]|].
    split; [discriminate | reflexivity].
Qed.

(** ** Further properties of the ranking *)

Lemma sorted_by_map {A B} (f : A -> B) (key : B -> Q) (l : list A) :
  sorted_by key (map f l) = map f (sorted_by (fun a => key (f a)) l).
Proof.
  induction l as [|x l IH]; [reflexivity|].
  cbn [map sorted_by fold_right]. fold (sorted_by key (map f l)).
  fold (sorted_by (fun a => key (f a)) l). rewrite IH.
  generalize (sorted_by (fun a => key (f a)) l). intros s.
  induction s as [|y s IHs]; [reflexivity|].
  cbn [map insert_by]. destruct (Qle_bool (key (f x)) (key (f y))); [reflexivity|].
  cbn [map]. now rewrite IHs.
Qed.

(** The Markdown ranking and the HTML chart list the backends in the same
    order: the rows of the chart are the names and medians of the ranked
    rows. *)
Theorem chart_rows_follow_ranking (metric : MetricConfig) (rows : list result_row) :
  chart_rows metric rows
  = map (fun r => (row_name r, median_of r)) (ranked metric rows).
Proof.
  exact (sorted_by_map (fun r => (row_name r, median_of r))
           (fun item => ranking_key (m_direction metric) (snd item))
           (filter is_good rows)).
Qed.

Lemma insert_by_filter {A} (key : A -> Q) (P : A -> bool) (x : A) (l : list A) :
  (forall a b, P a = true -> P b = true -> key a == key b) ->
  List.filter P (insert_by key x l)
  = if P x then x :: List.filter P l else List.filter P l.
Proof.
  intros HP. induction l as [|y l IH]; [reflexivity|].
  cbn [insert_by]. destruct (Qle_bool (key x) (key y)) eqn:E; [reflexivity|].
  cbn [List.filter]. rewrite IH.
  destruct (P x) eqn:Px; [|reflexivity].
  destruct (P y) eqn:Py; [|reflexivity].
  pose proof (HP x y Px Py) as Heq.
  assert (Hle : key x <= key y) by (rewrite Heq; apply Qle_refl).
  apply Qle_bool_iff in Hle. congruence.
Qed.

Lemma sorted_by_filter {A} (key : A -> Q) (P : A -> bool) (l : list A) :
  (forall a b, P a = true -> P b = true -> key a == key b) ->
  List.filter P (sorted_by key l) = List.filter P l.
Proof.
  intros HP. induction l as [|x l IH]; [reflexivity|].
  cbn [sorted_by fold_right]. fold (sorted_by key l).
  rewrite insert_by_filter by exact HP. cbn [List.filter]. now rewrite IH.
Qed.

(** The ranking is stable: backends whose medians are equal appear in the
    ranking in the order of the configuration. *)
Theorem ranking_is_stable (metric : MetricConfig) (rows : list result_row) (m : Q) :
  List.filter (fun r => Qeq_bool (median_of r) m) (ranked metric rows)
  = List.filter (fun r => Qeq_bool (median_of r) m) (filter is_good rows).
Proof.
  unfold ranked. apply sorted_by_filter.
  intros a b Ha Hb. apply Qeq_bool_iff in Ha, Hb.
  unfold ranking_key. destruct (String.eqb (m_direction metric) "higher");
    rewrite Ha, Hb; reflexivity.
Qed.

(** The backend ranked first is one with the best median: the head of the
    ranking has the median [main] reports as [best_median], and there is
    a ranked backend exactly when [best_median] is defined. *)
Theorem first_ranked_has_best_median (metric : MetricConfig) (rows : list result_row) :
  (ranked metric rows = [] <-> best_median metric rows = None) /\
  forall first others,
    ranked metric rows = first :: others ->
    exists best, best_median metric rows = Some best /\ median_of first == best.
Proof.
  pose proof (ranked_perm metric rows) as Hperm.
  pose proof (ranked_sorted metric rows) as Hsorted.
  pose proof (best_median_spec metric rows) as Hbest. cbv zeta in Hbest.
  split.
  - destruct (best_median metric rows) as [b|].
    + destruct Hbest as [Hne _]. split; [|discriminate].
      intros Hnil. rewrite Hnil in Hperm. apply Permutation_nil_r in Hperm. congruence.
    + rewrite Hbest in Hperm. split; [reflexivity|]. intros _.
      now apply Permutation_nil_l in Hperm.
  - intros first others Hr. rewrite Hr in Hperm, Hsorted.
    destruct (best_median metric rows) as [b|].
    + exists b. split; [reflexivity|]. destruct Hbest as [_ Hext].
      inversion Hsorted as [|? ? _ Hall]; subst.
      rewrite Forall_forall in Hall.
      assert (Hfirst : In first (filter is_good rows)).
      { apply (Permutation_in _ (Permutation_sym Hperm)). now left. }
      assert (Hmem : forall r, In r (filter is_good rows) ->
                ranking_key (m_direction metric) (median_of first)
                <= ranking_key (m_direction metric) (median_of r)).
      { intros r Hin. apply (Permutation_in _ Hperm) in Hin.
        destruct Hin as [<-|Hin]; [apply Qle_refl|].
        apply Hall. now apply list_elem_of_In. }
      unfold ranking_key in Hmem.
      destruct (String.eqb (m_direction metric) "higher").
      * destruct Hext as [Hin Hmax]. rewrite Forall_forall in Hmax.
        apply in_map_iff in Hin. destruct Hin as (rb & Hrb & Hinb).
        pose proof (Hmem rb Hinb) as H1. rewrite Hrb in H1.
        assert (H2 : median_of first <= b).
        { apply Hmax. apply list_elem_of_In, in_map. exact Hfirst. }
        lra.
      * destruct Hext as [Hin Hmin]. rewrite Forall_forall in Hmin.
        apply in_map_iff in Hin. destruct Hin as (rb & Hrb & Hinb).
        pose proof (Hmem rb Hinb) as H1. rewrite Hrb in H1.
        assert (H2 : b <= median_of first).
        { apply Hmin. apply list_elem_of_In, in_map. exact Hfirst. }
        lra.
    + rewrite Hbest in Hperm. apply Permutation_nil_l in Hperm. discriminate.
Qed.

(** ** Metric extraction: properties *)

Section ExtractionProperties.
Variable re_search : string -> string -> re_flags -> re_outcome.
Variable py_float : string -> option Q.

Local Abbreviation parse := (parse_numeric_metric re_search py_float).
Local Abbreviation capture := (numeric_capture re_search py_float).
Local Abbreviation in_contract := (pattern_in_contract re_search).

Lemma parse_skips (text pattern : string) (rest : list string) :
  in_contract text pattern = true ->
  capture text pattern = None ->
  parse text (pattern :: rest) = parse text rest.
Proof.
  unfold pattern_in_contract, numeric_capture. cbn [parse_numeric_metric].
  destruct (re_search pattern text (mk_flags true true)) as [| |[|[c|] gs]];
    try discriminate; try reflexivity.
  intros _ Hf. now rewrite Hf.
Qed.

Lemma parse_skips_prefix (text : string) (pre rest : list string) :
  Forall (fun p => in_contract text p = true) pre ->
  Forall (fun p => capture text p = None) pre ->
  parse text (pre ++ rest) = parse text rest.
Proof.
  induction pre as [|p pre IH]; intros Hok Hnone; [reflexivity|].
  inversion Hok; inversion Hnone; subst.
  change ((p :: pre) ++ rest)%list with (p :: (pre ++ rest))%list.
  rewrite parse_skips by assumption. now apply IH.
Qed.

Lemma parse_in_contract (text : string) (regexes : list string) :
  Forall (fun p => in_contract text p = true) regexes ->
  parse text regexes = Ok (first_numeric_capture re_search py_float text regexes).
Proof.
  induction regexes as [|p rest IH]; intros Hok; [reflexivity|].
  inversion Hok as [|? ? Hp Hrest]; subst.
  cbn [first_numeric_capture].
  destruct (capture text p) as [v|] eqn:Hc.
  - revert Hp Hc. unfold pattern_in_contract, numeric_capture.
    cbn [parse_numeric_metric].
    destruct (re_search p text (mk_flags true true)) as [| |[|[c|] gs]];
      try discriminate.
    intros _ Hf. now rewrite Hf.
  - rewrite parse_skips by assumption. now apply IH.
Qed.

(** C3 (amended). Patterns are tried in declaration order,
    case-insensitively.  When every pattern is within the contract (a
    valid regex whose capture group 1 takes part in its match),
    extraction returns the first capture group of the first pattern that
    matches with a numeric capture, skipping matches whose capture is
    not numeric, and returns absent, without raising, when no pattern
    yields a number.  The patterns after the winning one are not tried.
    A pattern outside the contract that is reached makes the extraction
    raise. *)
Theorem parse_numeric_metric_first_numeric (text : string) (regexes : list string) :
  (Forall (fun p => in_contract text p = true) regexes ->
   parse text regexes
     = Ok (first_numeric_capture re_search py_float text regexes)) /\
  (forall pre p post v,
     regexes = (pre ++ p :: post)%list ->
     Forall (fun q => in_contract text q = true) pre ->
     Forall (fun q => capture text q = None) pre ->
     capture text p = Some v ->
     parse text regexes = Ok (Some v)) /\
  (forall pre p post,
     regexes = (pre ++ p :: post)%list ->
     Forall (fun q => in_contract text q = true) pre ->
     Forall (fun q => capture text q = None) pre ->
     in_contract text p = false ->
     exists e, parse text regexes = Raise e /\
               (e = ReError \/ e = IndexError \/ e = TypeError)).
Proof.
  split; [apply parse_in_contract|]. split.
  - intros pre p post v -> Hok Hnone Hv.
    rewrite parse_skips_prefix by assumption.
    revert Hv. unfold numeric_capture. cbn [parse_numeric_metric].
    destruct (re_search p text (mk_flags true true)) as [| |[|[c|] gs]];
      try discriminate.
    intros Hf. now rewrite Hf.
  - intros pre p post -> Hok Hnone Hp.
    rewrite parse_skips_prefix by assumption.
    revert Hp. unfold pattern_in_contract. cbn [parse_numeric_metric].
    destruct (re_search p text (mk_flags true true)) as [| |[|[c|] gs]];
      try discriminate; intros _; eexists; split; eauto.
Qed.
End ExtractionProperties.

(** ** Auxiliary extraction rules: properties *)

Lemma dict_get_set_eq {V} (k : string) (v : V) (d : list (string * V)) :
  dict_get k (dict_set k v d) = Some v.
Proof.
  induction d as [|[k' v'] d IH]; cbn [dict_set dict_get].
  - now rewrite String.eqb_refl.
  - destruct (String.eqb k k') eqn:E; cbn [dict_get].
    + now rewrite String.eqb_refl.
    + now rewrite E.
Qed.

Lemma dict_get_set_ne {V} (k k' : string) (v : V) (d : list (string * V)) :
  k <> k' -> dict_get k' (dict_set k v d) = dict_get k' d.
Proof.
  intros Hne. induction d as [|[k0 v0] d IH]; cbn [dict_set dict_get].
  - destruct (String.eqb_spec k' k); [congruence | reflexivity].
  - destruct (String.eqb_spec k k0) as [->|Hk]; cbn [dict_get].
    + destruct (String.eqb_spec k' k0); [congruence | reflexivity].
    + destruct (String.eqb_spec k' k0); [reflexivity | exact IH].
Qed.

Lemma dict_get_not_in {V} (k : string) (d : list (string * V)) :
  ~ In k (map fst d) -> dict_get k d = None.
Proof.
  induction d as [|[k' v'] d IH]; intros Hn; [reflexivity|].
  cbn [dict_get]. destruct (String.eqb_spec k k') as [->|Hk].
  - exfalso. apply Hn. now left.
  - apply IH. intros Hin. apply Hn. now right.
Qed.

Lemma dict_mem_get {V} (k : string) (d : list (string * V)) :
  dict_mem k d = false <-> dict_get k d = None.
Proof. unfold dict_mem. destruct (dict_get k d); split; congruence. Qed.

Lemma aux_from_section_spec (section : list (string * jvalue)) :
  Stdlib.Lists.List.NoDup (map fst section) ->
  forall acc aux, aux_from_section section acc = Ok aux ->
  forall k,
    (forall v, dict_get k section = Some v ->
       exists rs, normalize_regexes v = Ok rs /\ dict_get k aux = Some rs) /\
    (dict_get k section = None -> dict_get k aux = dict_get k acc).
Proof.
  induction section as [|[k0 v0] rest IH]; intros Hnd acc aux Haux k.
  - cbn in Haux. injection Haux as <-. split; [discriminate | reflexivity].
  - inversion Hnd as [|? ? Hnotin Hnd']; subst.
    cbn [aux_from_section] in Haux.
    destruct (normalize_regexes v0) as [rs0|e] eqn:Hn; [|discriminate].
    cbn [res_bind] in Haux.
    pose proof (IH Hnd' _ _ Haux) as IH'.
    cbn [dict_get]. destruct (String.eqb_spec k k0) as [->|Hk].
    + split; [|discriminate].
      intros v [= <-]. exists rs0. split; [exact Hn|].
      destruct (IH' k0) as [_ H2]. rewrite H2 by now apply dict_get_not_in.
      apply dict_get_set_eq.
    + destruct (IH' k) as [H1 H2]. split; [exact H1|].
      intros Hnone. rewrite (H2 Hnone). apply dict_get_set_ne. congruence.
Qed.

Lemma aux_from_parse_spec (metric_key : string) (parse_section : list (string * jvalue)) :
  forall acc aux, aux_from_parse metric_key parse_section acc = Ok aux ->
  forall k,
    (forall rs, dict_get k acc = Some rs -> dict_get k aux = Some rs) /\
    (dict_get k acc = None -> k <> metric_key ->
     forall v, dict_get k parse_section = Some v ->
       exists rs, normalize_regexes v = Ok rs /\ dict_get k aux = Some rs) /\
    (dict_get k acc = None -> k = metric_key \/ dict_get k parse_section = None ->
     dict_get k aux = None).
Proof.
  induction parse_section as [|[k0 v0] rest IH]; intros acc aux Haux k.
  - cbn in Haux. injection Haux as <-.
    split; [auto|]. split; [discriminate | auto].
  - cbn [aux_from_parse] in Haux. cbn [dict_get].
    destruct (String.eqb_spec k0 metric_key) as [->|Hmk].
    + destruct (IH _ _ Haux k) as (H1 & H2 & H3).
      split; [exact H1|]. split.
      * intros Hacc Hk v. destruct (String.eqb_spec k metric_key); [congruence|].
        now apply H2.
      * intros Hacc Hor. apply H3; [exact Hacc|].
        destruct (String.eqb_spec k metric_key); [now left|].
        destruct Hor; [congruence | now right].
    + destruct (dict_mem k0 acc) eqn:Hmem.
      * destruct (IH _ _ Haux k) as (H1 & H2 & H3).
        assert (Hk0 : dict_get k acc = None -> k <> k0).
        { intros Hacc ->. apply dict_mem_get in Hacc. congruence. }
        split; [exact H1|]. split.
        -- intros Hacc Hk v. destruct (String.eqb_spec k k0) as [->|_].
           ++ now destruct (Hk0 Hacc).
           ++ now apply H2.
        -- intros Hacc Hor. apply H3; [exact Hacc|].
           destruct (String.eqb_spec k k0) as [->|_].
           ++ now destruct (Hk0 Hacc).
           ++ exact Hor.
      * apply dict_mem_get in Hmem.
        destruct (normalize_regexes v0) as [rs0|e] eqn:Hn; [|discriminate].
        cbn [res_bind] in Haux.
        destruct (IH _ _ Haux k) as (H1 & H2 & H3).
        destruct (String.eqb_spec k k0) as [->|Hk].
        -- split; [intros rs Hacc; congruence|]. split.
           ++ intros _ _ v [= <-]. exists rs0. split; [exact Hn|].
              apply H1, dict_get_set_eq.
           ++ intros _ [Heq|Hnone]; [congruence | discriminate].
        -- split.
           ++ intros rs Hacc. apply H1.
              rewrite dict_get_set_ne by congruence. exact Hacc.
           ++ split.
              ** intros Hacc Hkm v Hv. apply H2; try assumption.
                 rewrite dict_get_set_ne by congruence. exact Hacc.
              ** intros Hacc Hor. apply H3; [|exact Hor].
                 rewrite dict_get_set_ne by congruence. exact Hacc.
Qed.

Lemma normalize_regexes_total (v : jvalue) :
  v <> JOther -> exists rs, normalize_regexes v = Ok rs.
Proof. destruct v; intros H; try congruence; eexists; reflexivity. Qed.

Lemma aux_from_section_total (section : list (string * jvalue)) :
  Forall (fun kv => snd kv <> JOther) section ->
  forall acc, exists aux, aux_from_section section acc = Ok aux.
Proof.
  induction 1 as [|[k v] rest Hv _ IH]; intros acc.
  - exists acc. reflexivity.
  - destruct (normalize_regexes_total v Hv) as (rs & Hrs).
    cbn [aux_from_section]. rewrite Hrs. cbn [res_bind]. apply IH.
Qed.

Lemma aux_from_parse_total (metric_key : string) (parse_section : list (string * jvalue)) :
  Forall (fun kv => snd kv <> JOther) parse_section ->
  forall acc, exists aux, aux_from_parse metric_key parse_section acc = Ok aux.
Proof.
  induction 1 as [|[k v] rest Hv _ IH]; intros acc.
  - exists acc. reflexivity.
  - cbn [aux_from_parse].
    destruct (String.eqb k metric_key); [apply IH|].
    destruct (dict_mem k acc); [apply IH|].
    destruct (normalize_regexes_total v Hv) as (rs & Hrs).
    rewrite Hrs. cbn [res_bind]. apply IH.
Qed.

(** C9. The auxiliary extraction rules of a backend hold every key of its
    [aux_metrics] mapping, with the regex list given there (so for a key
    of both mappings the [aux_metrics] list wins), and a key of its
    [parse] mapping exactly when it is neither the primary metric key nor
    a key of [aux_metrics], with the regex list given in [parse].  The
    assembly succeeds whenever every value is a string, a list or null. *)
Theorem aux_regexes_precedence (metric : MetricConfig) (b : backend) :
  Stdlib.Lists.List.NoDup (map fst (b_aux_metrics b)) ->
  (Forall (fun kv => snd kv <> JOther) (b_aux_metrics b) ->
   Forall (fun kv => snd kv <> JOther) (b_parse b) ->
   exists aux_regexes, build_aux_regexes metric b = Ok aux_regexes) /\
  (forall aux_regexes,
     build_aux_regexes metric b = Ok aux_regexes ->
     forall k,
       (forall v, dict_get k (b_aux_metrics b) = Some v ->
          exists rs, normalize_regexes v = Ok rs /\
                     dict_get k aux_regexes = Some rs) /\
       (forall v, dict_get k (b_aux_metrics b) = None ->
          dict_get k (b_parse b) = Some v -> k <> m_key metric ->
          exists rs, normalize_regexes v = Ok rs /\
                     dict_get k aux_regexes = Some rs) /\
       (dict_get k (b_aux_metrics b) = None ->
        k = m_key metric \/ dict_get k (b_parse b) = None ->
        dict_get k aux_regexes = None)).
Proof.
  intros Hnd. split.
  - intros Haux Hparse. unfold build_aux_regexes.
    destruct (aux_from_section_total _ Haux []) as (a1 & Ha1).
    rewrite Ha1. cbn [res_bind]. now apply aux_from_parse_total.
  - intros aux_regexes Hbuild k. unfold build_aux_regexes in Hbuild.
    destruct (aux_from_section (b_aux_metrics b) []) as [a1|e] eqn:Ha1; [|discriminate].
    cbn [res_bind] in Hbuild.
    destruct (aux_from_section_spec _ Hnd _ _ Ha1 k) as [S1 S2].
    destruct (aux_from_parse_spec _ _ _ _ Hbuild k) as (P1 & P2 & P3).
    split; [|split].
    + intros v Hv. destruct (S1 v Hv) as (rs & Hrs & Hget).
      exists rs. split; [exact Hrs | now apply P1].
    + intros v Hnone Hv Hk. apply P2; try assumption.
      now rewrite (S2 Hnone).
    + intros Hnone Hor. apply P3; [|exact Hor]. now rewrite (S2 Hnone).
Qed.

(** ** The loops of one backend: properties *)

Section LoopProperties.
Variable call : list spawn -> res run_output * list spawn.
Variable strict_mode : bool.
Variable timeout_s : Z.



Lemma measure_step_timeout (i : Z) (st : measure_state) (t t' : list spawn) :
  call t = (Raise TimeoutExpired, t') ->
  measure_step call strict_mode timeout_s i st t =
  if strict_mode then (Exit (Returned 2) (after_timeout timeout_s i st), t')
  else (Done (after_timeout timeout_s i st), t').
Proof. intros H. unfold measure_step. now rewrite H. Qed.
End LoopProperties.

Section BodyProperties.
Variable py_sqrt : Q -> Q.
Variable call : list spawn -> res run_output * list spawn.
Variable timeout_s n_warmup n_runs : Z.
Variable name command cwd : string.

Local Abbreviation body strict_mode :=
  (run_loops py_sqrt call strict_mode timeout_s n_warmup n_runs name command cwd).



End BodyProperties.

(** ** Processes spawned by the loops *)

Section TraceProperties.
Variable call : list spawn -> res run_output * list spawn.
Variable name command : string.
Hypothesis call_spawns : spawns_for name command call.

Local Abbreviation for_backend :=
  (fun sp : spawn => sp_backend sp = name /\ sp_command sp = command).

Lemma call_trace (t : list spawn) (r : res run_output) (t' : list spawn) :
  call t = (r, t') -> exists sp, t' = (t ++ [sp])%list /\ for_backend sp.
Proof using call_spawns.
  intros H. destruct (call_spawns t) as (sp & Hsp & Hn & Hc).
  rewrite H in Hsp. exists sp. auto.
Qed.

Lemma warmup_loop_trace (strict_mode : bool) (n : nat) :
  forall t f t', warmup_loop call strict_mode n t = (f, t') ->
  exists l, t' = (t ++ l)%list /\ Forall for_backend l.
Proof using call_spawns.
  induction n as [|n IH]; intros t f t' H.
  - injection H as _ <-. exists []. split; [now rewrite app_nil_r | constructor].
  - cbn [warmup_loop] in H.
    destruct (call t) as [r t1] eqn:Hc.
    destruct (call_trace _ _ _ Hc) as (sp & -> & Hsp).
    assert (Hstop : forall g, (g, (t ++ [sp])%list) = (f, t') ->
              exists l, t' = (t ++ l)%list /\ Forall for_backend l).
    { intros g [= _ <-]. exists [sp]. split; [reflexivity | now constructor]. }
    assert (Hgo : warmup_loop call strict_mode n (t ++ [sp]) = (f, t') ->
              exists l, t' = (t ++ l)%list /\ Forall for_backend l).
    { intros Hn. destruct (IH _ _ _ Hn) as (l & -> & Hl).
      exists (sp :: l). split; [now rewrite <- app_assoc | now constructor]. }
    destruct r as [ro|e]; [exact (Hgo H)|].
    destruct e; try exact (Hstop _ H).
    destruct strict_mode; [exact (Hstop _ H) | exact (Hgo H)].
Qed.

Lemma measure_step_trace (strict_mode : bool) (timeout_s i : Z) :
  forall st t f t', measure_step call strict_mode timeout_s i st t = (f, t') ->
  exists sp, t' = (t ++ [sp])%list /\ for_backend sp.
Proof using call_spawns.
  intros st t f t' H. unfold measure_step in H.
  destruct (call t) as [r t1] eqn:Hc.
  destruct (call_trace _ _ _ Hc) as (sp & -> & Hsp).
  exists sp. split; [|exact Hsp].
  destruct r as [ro|e].
  - destruct (_ && _); [|destruct strict_mode]; now injection H.
  - destruct e; try (now injection H).
    destruct strict_mode; now injection H.
Qed.

Lemma measure_loop_trace (strict_mode : bool) (timeout_s : Z) (indices : list Z) :
  forall st t f t',
    measure_loop call strict_mode timeout_s indices st t = (f, t') ->
    exists l, t' = (t ++ l)%list /\ Forall for_backend l.
Proof using call_spawns.
  induction indices as [|i rest IH]; intros st t f t' H.
  - injection H as _ <-. exists []. split; [now rewrite app_nil_r | constructor].
  - cbn [measure_loop] in H.
    destruct (measure_step call strict_mode timeout_s i st t) as [g t1] eqn:Hs.
    destruct (measure_step_trace _ _ _ _ _ _ _ Hs) as (sp & -> & Hsp).
    destruct g as [st'|x st'].
    + destruct (IH _ _ _ _ H) as (l & -> & Hl).
      exists (sp :: l). split; [now rewrite <- app_assoc | now constructor].
    + injection H as _ <-. exists [sp]. split; [reflexivity | now constructor].
Qed.

Lemma run_loops_trace (py_sqrt : Q -> Q) (strict_mode : bool)
    (timeout_s n_warmup n_runs : Z) (nm cmd cwd : string) :
  forall t f t',
    run_loops py_sqrt call strict_mode timeout_s n_warmup n_runs nm cmd cwd t
      = (f, t') ->
    exists l, t' = (t ++ l)%list /\ Forall for_backend l.
Proof using call_spawns.
  intros t f t' H. unfold run_loops in H.
  destruct (warmup_loop call strict_mode (Z.to_nat n_warmup) t) as [w t1] eqn:Hw.
  destruct (warmup_loop_trace _ _ _ _ _ Hw) as (l1 & -> & Hl1).
  destruct w as [u|x u]; [|injection H as _ <-; eauto].
  destruct (measure_loop call strict_mode timeout_s (py_range1 n_runs)
              initial_measure (t ++ l1)) as [m t2] eqn:Hm.
  destruct (measure_loop_trace _ _ _ _ _ _ _ Hm) as (l2 & -> & Hl2).
  assert (Hall : Forall for_backend (l1 ++ l2)) by (apply Forall_app; auto).
  destruct m as [st|x st].
  - destruct (build_row py_sqrt nm cmd cwd st); injection H as _ <-;
      exists (l1 ++ l2)%list; (split; [now rewrite app_assoc | exact Hall]).
  - injection H as _ <-.
    exists (l1 ++ l2)%list. split; [now rewrite app_assoc | exact Hall].
Qed.
End TraceProperties.

(** ** The schedule: properties *)

Section ScheduleProperties.
Variable str_format : string -> gmap string string -> res string.
Variable re_search : string -> string -> re_flags -> re_outcome.
Variable py_float : string -> option Q.
Variable py_sqrt : Q -> Q.
Variable os_environ : gmap string string.
Variable resolve_path : string -> string.
Variable subprocess_run : nat -> spawn -> proc_outcome.

Local Abbreviation b_call :=
  (backend_call str_format re_search py_float os_environ resolve_path
                subprocess_run).
Local Abbreviation r_backend :=
  (run_backend str_format re_search py_float py_sqrt os_environ resolve_path
               subprocess_run).
Local Abbreviation r_backends :=
  (run_backends str_format re_search py_float py_sqrt os_environ resolve_path
                subprocess_run).

Variable metric : MetricConfig.
Variable vars : gmap string string.
Variable strict_mode fallback : bool.
Variable n_runs n_warmup timeout_s : Z.

Lemma run_once_spawns (name command cwd : string) (env : gmap string string)
    (metric_regexes : list string) (aux_regexes : list (string * list string)) :
  spawns_for name command
    (run_once re_search py_float subprocess_run name command cwd timeout_s env
              metric_regexes aux_regexes fallback).
Proof.
  intros t. exists (mk_spawn name command cwd env timeout_s).
  split; [|split; reflexivity].
  unfold run_once. now destruct (subprocess_run _ _).
Qed.

Lemma backend_call_spawns (b : backend) (command : string)
    (call : list spawn -> res run_output * list spawn) :
  b_call metric vars fallback timeout_s b command = Ok call ->
  spawns_for (b_name b) command call.
Proof.
  unfold backend_call. intros H.
  destruct (build_env _ _ _ _) as [env|]; [|discriminate].
  destruct (select_metric_regexes _ _ _) as [mr|]; [|discriminate].
  destruct (build_aux_regexes _ _) as [ar|]; [|discriminate].
  injection H as <-. apply run_once_spawns.
Qed.

Lemma run_backend_trace (b : backend) (command : string) :
  forall t f t',
    r_backend metric vars strict_mode fallback n_runs n_warmup timeout_s
              b command t = (f, t') ->
    exists l, t' = (t ++ l)%list /\
              Forall (fun sp => sp_backend sp = b_name b /\
                                sp_command sp = command) l.
Proof.
  intros t f t' H. unfold run_backend in H.
  destruct (b_call metric vars fallback timeout_s b command) as [call|e] eqn:Hc.
  - eapply run_loops_trace; [|exact H]. eapply backend_call_spawns, Hc.
  - injection H as _ <-. exists []. split; [now rewrite app_nil_r | constructor].
Qed.

Lemma build_row_name (name command cwd : string) (st : measure_state)
    (row : result_row) :
  build_row py_sqrt name command cwd st = Ok row ->
  row_name row = name /\ row_command row = command /\
  row_runs row = measured_runs st.
Proof.
  unfold build_row. intros H.
  destruct (summarize py_sqrt (success_metrics st)); [|discriminate].
  destruct (summarize py_sqrt (success_wall st)); [|discriminate].
  destruct (summarize_aux py_sqrt (aux_values st)); [|discriminate].
  injection H as <-. auto.
Qed.

Lemma run_backend_row (b : backend) (command : string) (t t' : list spawn)
    (row : result_row) :
  r_backend metric vars strict_mode fallback n_runs n_warmup timeout_s
            b command t = (RowDone row, t') ->
  row_name row = b_name b /\ row_command row = command.
Proof.
  unfold run_backend, run_loops. intros H.
  destruct (b_call _ _ _ _ _ _) as [call|]; [|discriminate].
  destruct (warmup_loop _ _ _ _) as [[u|x u] t1]; [|discriminate].
  destruct (measure_loop _ _ _ _ _ _) as [[st|x st] t2]; [|discriminate].
  destruct (build_row _ _ _ _ _) as [row'|] eqn:Hr; [|discriminate].
  injection H as <- _. apply build_row_name in Hr. tauto.
Qed.

Variable backend_commands : gmap string string.

Local Abbreviation schedule :=
  (r_backends metric vars strict_mode fallback n_runs n_warmup timeout_s
              backend_commands).

Lemma run_backends_skip (b : backend) (rest : list backend)
    (rows : list result_row) (t : list spawn) :
  is_scheduled backend_commands b = false ->
  schedule (b :: rest) rows t = schedule rest rows t.
Proof.
  unfold is_scheduled. intros H. cbn [run_backends].
  destruct (b_enabled b); [|reflexivity]. cbn [negb].
  destruct (backend_commands !! b_name b); [discriminate | reflexivity].
Qed.

Lemma run_backends_run (b : backend) (rest : list backend) (command : string)
    (rows : list result_row) (t : list spawn) :
  b_enabled b = true ->
  backend_commands !! b_name b = Some command ->
  schedule (b :: rest) rows t =
  match r_backend metric vars strict_mode fallback n_runs n_warmup timeout_s
                  b command t with
  | (RowExit x measured, t') => (Stopped x rows measured, t')
  | (RowDone row, t') => schedule rest (rows ++ [row])%list t'
  end.
Proof. intros He Hc. cbn [run_backends]. now rewrite He, Hc. Qed.

Lemma run_backends_app (pre post : list backend) :
  forall rows t,
    schedule (pre ++ post) rows t =
    match schedule pre rows t with
    | (Completed rows', t') => schedule post rows' t'
    | (Stopped x rows' measured, t') => (Stopped x rows' measured, t')
    end.
Proof.
  induction pre as [|b pre IH]; intros rows t; [reflexivity|].
  change ((b :: pre) ++ post)%list with (b :: (pre ++ post))%list.
  cbn [run_backends].
  destruct (negb (b_enabled b)); [apply IH|].
  destruct (backend_commands !! b_name b) as [command|]; [|apply IH].
  destruct (r_backend _ _ _ _ _ _ _ _ _ _) as [[row|x m] t']; [apply IH | reflexivity].
Qed.

Lemma is_scheduled_true (b : backend) :
  is_scheduled backend_commands b = true ->
  b_enabled b = true /\ exists command, backend_commands !! b_name b = Some command.
Proof.
  unfold is_scheduled. destruct (b_enabled b); [|discriminate].
  destruct (backend_commands !! b_name b) as [c|]; [eauto | discriminate].
Qed.


(** When the schedule completes, it has added one row per scheduled
    backend, in order, under the backend's name. *)
Lemma run_backends_names (bs : list backend) :
  forall rows t rows' t',
    schedule bs rows t = (Completed rows', t') ->
    map row_name rows' =
    (map row_name rows
     ++ map b_name (filter (fun b => is_scheduled backend_commands b = true) bs))%list.
Proof.
  induction bs as [|b rest IH]; intros rows t rows' t' H.
  - injection H as <- _. cbn. now rewrite app_nil_r.
  - destruct (is_scheduled backend_commands b) eqn:Hs.
    + destruct (is_scheduled_true b Hs) as (He & command & Hc).
      rewrite (run_backends_run b rest command rows t He Hc) in H.
      destruct (r_backend _ _ _ _ _ _ _ _ _ _) as [[row|x m] t1] eqn:Hb;
        [|discriminate].
      apply run_backend_row in Hb. destruct Hb as [Hname _].
      rewrite (IH _ _ _ _ H).
      rewrite filter_cons_True by exact Hs.
      rewrite map_app. cbn [map]. rewrite Hname, <- app_assoc. reflexivity.
    + rewrite (run_backends_skip b rest rows t Hs) in H.
      rewrite (IH _ _ _ _ H).
      rewrite filter_cons_False by (rewrite Hs; discriminate). reflexivity.
Qed.
End ScheduleProperties.

(** ** Command resolution: properties *)

Section ResolveProperties.
Variable str_format : string -> gmap string string -> res string.
Variable vars : gmap string string.
Variable filters : list string.

Local Abbreviation resolve := (resolve_commands str_format vars filters).

Lemma resolve_commands_app (pre post : list backend) :
  forall acc,
    resolve (pre ++ post) acc =
    (let* acc' := resolve pre acc in resolve post acc').
Proof.
  induction pre as [|b pre IH]; intros acc; [reflexivity|].
  change ((b :: pre) ++ post)%list with (b :: (pre ++ post))%list.
  cbn [resolve_commands].
  destruct (negb (b_enabled b)); [apply IH|].
  destruct (negb (nonempty (strip (b_name b)))); [reflexivity|].
  destruct (negb (backend_is_selected (strip (b_name b)) filters)); [apply IH|].
  destruct (negb (nonempty (strip (b_command b)))); [reflexivity|].
  destruct (format_command str_format (strip (b_command b)) vars); [apply IH | reflexivity].
Qed.





(** An undefined variable in the template of an enabled, selected
    backend stops the loop. *)
Lemma resolve_commands_missing (pre : list backend) (b : backend)
    (post : list backend) (acc cmds0 : gmap string string) (k : string) :
  resolve pre acc = Ok cmds0 ->
  is_resolved filters b = true ->
  nonempty (strip (b_name b)) = true ->
  nonempty (strip (b_command b)) = true ->
  str_format (strip (b_command b)) vars = Raise (KeyError k) ->
  resolve (pre ++ b :: post) acc
    = Raise (ValueError (missing_variable k (strip (b_command b)))).
Proof.
  unfold is_resolved. intros Hpre Hr Hn Hc Hk. apply andb_prop in Hr as [He Hs].
  rewrite resolve_commands_app, Hpre. cbn [res_bind resolve_commands].
  rewrite He, Hn, Hs, Hc. cbn [negb]. unfold format_command. now rewrite Hk.
Qed.

Lemma build_env_missing (ipre : list (string * string)) (key v : string)
    (ipost : list (string * string)) (k : string) :
  Forall (fun item => exists s, str_format (snd item) vars = Ok s) ipre ->
  str_format v vars = Raise (KeyError k) ->
  forall env,
    build_env str_format vars (ipre ++ (key, v) :: ipost) env
      = Raise (ValueError (missing_variable k v)).
Proof.
  intros Hpre Hk. induction Hpre as [|[k0 v0] rest [s Hs] _ IH]; intros env.
  - cbn [app build_env]. unfold format_command. now rewrite Hk.
  - change (((k0, v0) :: rest) ++ (key, v) :: ipost)%list
      with ((k0, v0) :: (rest ++ (key, v) :: ipost))%list.
    cbn [build_env]. unfold format_command at 1. cbn [snd] in Hs. rewrite Hs.
    cbn [res_bind]. apply IH.
Qed.
End ResolveProperties.

(** ** [main]: properties *)

Section MainProperties.
Variable str_format : string -> gmap string string -> res string.
Variable re_search : string -> string -> re_flags -> re_outcome.
Variable py_float : string -> option Q.
Variable py_sqrt : Q -> Q.
Variable os_environ : gmap string string.
Variable resolve_path : string -> string.
Variable repo_root : string.
Variable path_name : string -> string.
Variable subprocess_run : nat -> spawn -> proc_outcome.

Local Abbreviation the_main :=
  (main str_format re_search py_float py_sqrt os_environ resolve_path repo_root
        path_name subprocess_run).
Local Abbreviation tvars :=
  (build_template_variables resolve_path repo_root path_name).
Local Abbreviation b_call :=
  (backend_call str_format re_search py_float os_environ resolve_path
                subprocess_run).
Local Abbreviation r_backend :=
  (run_backend str_format re_search py_float py_sqrt os_environ resolve_path
               subprocess_run).
Local Abbreviation schedule args cfg metric :=
  (run_backends str_format re_search py_float py_sqrt os_environ resolve_path
                subprocess_run metric (tvars cfg) (strict cfg)
                (effective_fallback metric cfg) (effective_runs args cfg)
                (effective_warmup_runs args cfg) (timeout_seconds cfg)).
Local Abbreviation resolved args cfg :=
  (resolve_commands str_format (tvars cfg)
                    (parse_backend_filters (arg_backend args)) (backends cfg) ∅).

(** An error of the first loop ends [main] before any process. *)
Lemma main_resolve_raises (args : cli_args) (cfg : config)
    (metric : MetricConfig) (e : exn) :
  from_config cfg = Ok metric ->
  resolved args cfg = Raise e ->
  the_main args (Some cfg) = mk_outcome (Raised e) [] [] [] None.
Proof.
  intros Hm Hr. unfold main. rewrite Hm.
  destruct (backends cfg) as [|b bs] eqn:Hb; [discriminate|].
  cbv zeta. now rewrite Hr.
Qed.

(** Past the first loop, [main] is the schedule followed by [finish]. *)
Lemma main_schedule (args : cli_args) (cfg : config) (metric : MetricConfig)
    (cmds : gmap string string) (n c : string) :
  from_config cfg = Ok metric ->
  resolved args cfg = Ok cmds ->
  cmds !! n = Some c ->
  arg_dry_run args = false ->
  the_main args (Some cfg)
    = finish metric (schedule args cfg metric cmds (backends cfg) [] []).
Proof.
  intros Hm Hr Hn Hd. unfold main. rewrite Hm.
  destruct (backends cfg) as [|b bs] eqn:Hb.
  - cbn in Hr. injection Hr as <-. now rewrite lookup_empty in Hn.
  - cbv zeta. rewrite Hr, Hd.
    rewrite bool_decide_eq_false_2; [reflexivity|].
    intros ->. now rewrite lookup_empty in Hn.
Qed.

Lemma finish_stopped (metric : MetricConfig) (x : exit_kind)
    (rows : list result_row) (measured : list run_entry) (t : list spawn) :
  finish metric (Stopped x rows measured, t) = mk_outcome x t rows measured None.
Proof. reflexivity. Qed.

Lemma assign_ratios_names (metric : MetricConfig) (best : Q) (rows : list result_row) :
  forall rows', assign_ratios metric best rows = Ok rows' ->
  map row_name rows' = map row_name rows.
Proof.
  induction rows as [|r rest IH]; intros rows' H.
  - now injection H as <-.
  - cbn [assign_ratios] in H.
    destruct (is_good r).
    + destruct (median_ratio metric best r) as [q|]; [|discriminate].
      cbn [res_bind] in H.
      destruct (assign_ratios metric best rest) as [rest'|]; [|discriminate].
      injection H as <-. cbn [map]. now rewrite (IH rest' eq_refl).
    + cbn [res_bind] in H.
      destruct (assign_ratios metric best rest) as [rest'|]; [|discriminate].
      injection H as <-. cbn [map]. now rewrite (IH rest' eq_refl).
Qed.

Lemma rank_results_names (metric : MetricConfig) (rows rows' : list result_row)
    (best : option Q) :
  rank_results metric rows = Ok (rows', best) ->
  map row_name rows' = map row_name rows.
Proof.
  unfold rank_results. intros H.
  destruct (best_median metric rows) as [b|]; [|now injection H as <- _].
  destruct (Qltb 0 b); [|now injection H as <- _].
  destruct (assign_ratios metric b rows) as [r'|] eqn:Ha; [|discriminate].
  injection H as <- _. eapply assign_ratios_names, Ha.
Qed.

Lemma finish_trace (metric : MetricConfig) (f : schedule_flow) (t : list spawn) :
  out_trace (finish metric (f, t)) = t.
Proof.
  unfold finish. destruct f as [rows|x rows m]; [|reflexivity].
  destruct (rank_results metric rows) as [[rows' b]|]; reflexivity.
Qed.

Lemma finish_written (metric : MetricConfig) (f : schedule_flow) (t : list spawn)
    (rows' : list result_row) :
  out_written (finish metric (f, t)) = Some rows' ->
  exists rows, f = Completed rows /\ map row_name rows' = map row_name rows.
Proof.
  unfold finish. destruct f as [rows|x rows m]; [|discriminate].
  destruct (rank_results metric rows) as [[rows1 b]|] eqn:Hr; [|discriminate].
  cbn. intros [= <-]. exists rows. split; [reflexivity|].
  eapply rank_results_names, Hr.
Qed.


Lemma py_range1_first (n : Z) :
  (1 <= n)%Z -> exists others, py_range1 n = 1%Z :: others.
Proof.
  intros Hn. unfold py_range1.
  destruct (Z.to_nat n) as [|k] eqn:E; [lia|].
  cbn [seq map]. eexists. reflexivity.
Qed.

Lemma measure_step_failure (call : list spawn -> res run_output * list spawn)
    (strict_mode : bool) (timeout_s i : Z) (st : measure_state)
    (t t' : list spawn) (record : run_output) :
  call t = (Ok record, t') ->
  run_ok record = false ->
  measure_step call strict_mode timeout_s i st t =
  if strict_mode then (Exit (Returned 2) (after_failure i record st), t')
  else (Done (after_failure i record st), t').
Proof.
  intros Hc Hok. unfold measure_step. rewrite Hc.
  unfold run_ok in Hok. unfold after_failure, measured_entry, run_ok.
  now rewrite Hok.
Qed.

(** C1 (amended). Three backends under strict mode, the first completing
    and the second failing on its first measured run (by a timeout, a
    non-zero exit code or a missing metric): [main] stops with exit code
    2; at that point [result_rows] holds exactly backend-1's full result
    and no entry for backend-2 or backend-3; the failing run is the one
    entry of backend-2's own run list, which is not part of the result;
    no process was spawned for backend-3 and no report is written. *)
Theorem strict_halt_after_first_failure (args : cli_args) (cfg : config)
    (metric : MetricConfig) (cmds : gmap string string)
    (b1 b2 b3 : backend) (c1 c2 : string) (row1 : result_row)
    (call2 : list spawn -> res run_output * list spawn)
    (t1 t2 t3 : list spawn) (r : res run_output) :
  from_config cfg = Ok metric ->
  strict cfg = true ->
  arg_dry_run args = false ->
  backends cfg = [b1; b2; b3] ->
  resolved args cfg = Ok cmds ->
  b_enabled b1 = true -> cmds !! b_name b1 = Some c1 ->
  b_enabled b2 = true -> cmds !! b_name b2 = Some c2 ->
  r_backend metric (tvars cfg) true (effective_fallback metric cfg)
            (effective_runs args cfg) (effective_warmup_runs args cfg)
            (timeout_seconds cfg) b1 c1 [] = (RowDone row1, t1) ->
  b_call metric (tvars cfg) (effective_fallback metric cfg)
         (timeout_seconds cfg) b2 c2 = Ok call2 ->
  warmup_loop call2 true (Z.to_nat (effective_warmup_runs args cfg)) t1
    = (Done tt, t2) ->
  (1 <= effective_runs args cfg)%Z ->
  call2 t2 = (r, t3) ->
  (r = Raise TimeoutExpired \/
   exists record, r = Ok record /\ run_ok record = false) ->
  exists entry,
    the_main args (Some cfg)
      = mk_outcome (Returned 2) t3 [row1] [entry] None /\
    entry_index entry = 1%Z /\ entry_ok entry = false /\
    row_name row1 = b_name b1 /\
    Forall (fun sp => sp_backend sp = b_name b1 \/ sp_backend sp = b_name b2) t3.
Proof.
  intros Hm Hstrict Hdry Hbs Hres He1 Hc1 He2 Hc2 Hb1 Hcall2 Hw2 Hruns Hcall Hfail.
  pose proof (backend_call_spawns _ _ _ _ _ _ _ _ _ _ _ _ _ Hcall2) as Hsp2.
  destruct (run_backend_trace _ _ _ _ _ _ _ _ _ _ _ _ _ _ _ _ _ _ _ Hb1)
    as (l1 & Ht1 & Hl1).
  destruct (warmup_loop_trace _ _ _ Hsp2 _ _ _ _ _ Hw2) as (l2 & Ht2 & Hl2).
  destruct (call_trace _ _ _ Hsp2 _ _ _ Hcall) as (sp & Ht3 & Hsp).
  destruct (py_range1_first _ Hruns) as (others & Hrange).
  assert (Htrace : Forall (fun sp => sp_backend sp = b_name b1 \/
                                     sp_backend sp = b_name b2) t3).
  { subst t3 t2 t1. cbn [app].
    apply Forall_app. split; [apply Forall_app; split|].
    - eapply Forall_impl; [exact Hl1|]. intros ? [? _]. now left.
    - eapply Forall_impl; [exact Hl2|]. intros ? [? _]. now right.
    - constructor; [right; apply Hsp | constructor]. }
  assert (Hstep : exists st,
            measure_step call2 true (timeout_seconds cfg) 1 initial_measure t2
              = (Exit (Returned 2) st, t3) /\
            exists entry, measured_runs st = [entry] /\
              entry_index entry = 1%Z /\ entry_ok entry = false).
  { destruct Hfail as [->|(record & -> & Hok)].
    - rewrite (measure_step_timeout _ _ _ _ _ _ _ Hcall).
      eexists. split; [reflexivity|]. eexists. split; [reflexivity|]. auto.
    - rewrite (measure_step_failure _ _ _ _ _ _ _ _ Hcall Hok).
      eexists. split; [reflexivity|]. eexists. split; [reflexivity|].
      cbn. auto. }
  destruct Hstep as (st & Hstep & entry & Hentry & Hidx & Hnok).
  exists entry. split; [|split; [exact Hidx|split; [exact Hnok|split; [|exact Htrace]]]].
  - rewrite (main_schedule args cfg metric cmds _ _ Hm Hres Hc1 Hdry).
    rewrite Hbs, Hstrict.
    rewrite run_backends_run with (command := c1) by assumption.
    rewrite Hb1.
    rewrite run_backends_run with (command := c2) by assumption.
    unfold run_backend. rewrite Hcall2. unfold run_loops.
    rewrite Hw2, Hrange. cbn [measure_loop]. rewrite Hstep.
    cbn [finish app]. now rewrite Hentry.
  - eapply run_backend_row in Hb1. apply Hb1.
Qed.

(** C2 (amended). An undefined variable in the command template of an
    enabled, filter-selected backend makes [main] fail, with an error
    naming the variable and the template, before any process is
    spawned.  An undefined variable in an environment value of a
    backend makes [main] fail with the same kind of error when the
    schedule reaches that backend: no process of that backend or of a
    later one is spawned, the processes of the backends before it have
    run, and no report is written. *)
Theorem undefined_variable_stops_main (args : cli_args) (cfg : config)
    (metric : MetricConfig) :
  from_config cfg = Ok metric ->
  let vars := tvars cfg in
  let filters := parse_backend_filters (arg_backend args) in
  (forall pre b post cmds0 k,
     backends cfg = (pre ++ b :: post)%list ->
     resolve_commands str_format vars filters pre ∅ = Ok cmds0 ->
     is_resolved filters b = true ->
     nonempty (strip (b_name b)) = true ->
     nonempty (strip (b_command b)) = true ->
     str_format (strip (b_command b)) vars = Raise (KeyError k) ->
     the_main args (Some cfg)
       = mk_outcome
           (Raised (ValueError (missing_variable k (strip (b_command b)))))
           [] [] [] None) /\
  (forall cmds pre b post rows t command ipre key v ipost k,
     resolved args cfg = Ok cmds ->
     arg_dry_run args = false ->
     backends cfg = (pre ++ b :: post)%list ->
     schedule args cfg metric cmds pre [] [] = (Completed rows, t) ->
     b_enabled b = true ->
     cmds !! b_name b = Some command ->
     b_env b = (ipre ++ (key, v) :: ipost)%list ->
     Forall (fun item => exists s, str_format (snd item) vars = Ok s) ipre ->
     str_format v vars = Raise (KeyError k) ->
     the_main args (Some cfg)
       = mk_outcome (Raised (ValueError (missing_variable k v))) t rows [] None).
Proof.
  intros Hm vars filters. split.
  - intros pre b post cmds0 k Hbs Hpre Hr Hn Hc Hk.
    apply main_resolve_raises with (metric := metric); [exact Hm|].
    rewrite Hbs. now apply resolve_commands_missing with (cmds0 := cmds0).
  - intros cmds pre b post rows t command ipre key v ipost k
           Hres Hdry Hbs Hpre He Hc Henv Hipre Hk.
    rewrite (main_schedule args cfg metric cmds _ _ Hm Hres Hc Hdry).
    rewrite Hbs, run_backends_app, Hpre.
    rewrite run_backends_run with (command := command) by assumption.
    unfold run_backend, backend_call. rewrite Henv.
    rewrite (build_env_missing str_format (tvars cfg) ipre key v ipost k Hipre Hk).
    reflexivity.
Qed.


End MainProperties.

(** ** Further properties of the statistics *)

Lemma Qfloor_unique (x : Q) (z : Z) :
  inject_Z z <= x -> x < inject_Z z + 1 -> Qfloor x = z.
Proof.
  intros H1 H2.
  pose proof (Qfloor_le x) as F1. pose proof (Qlt_floor x) as F2.
  rewrite inject_Z_plus in F2. change (inject_Z 1) with 1 in F2.
  assert (A : (Qfloor x < z + 1)%Z).
  { rewrite Zlt_Qlt, inject_Z_plus. change (inject_Z 1) with 1. lra. }
  assert (B : (z < Qfloor x + 1)%Z).
  { rewrite Zlt_Qlt, inject_Z_plus. change (inject_Z 1) with 1. lra. }
  lia.
Qed.

Lemma Qceiling_unique (x : Q) (z : Z) :
  inject_Z z - 1 < x -> x <= inject_Z z -> Qceiling x = z.
Proof.
  intros H1 H2.
  pose proof (Qle_ceiling x) as F1. pose proof (Qceiling_lt x) as F2.
  replace (Qceiling x - 1)%Z with (Qceiling x + -1)%Z in F2 by lia.
  rewrite inject_Z_plus in F2. change (inject_Z (-1)) with (-1 # 1) in F2.
  assert (A : (Qceiling x < z + 1)%Z).
  { rewrite Zlt_Qlt, inject_Z_plus. change (inject_Z 1) with 1. lra. }
  assert (B : (z < Qceiling x + 1)%Z).
  { rewrite Zlt_Qlt, inject_Z_plus. change (inject_Z 1) with 1. lra. }
  lia.
Qed.

(** The median [summarize] reports is the 50th percentile of the same
    series: [statistics.median] and [percentile(values, 50)] agree on
    every non-empty series. *)
Theorem median_is_percentile_50 (values : list Q) :
  values <> [] ->
  exists m v,
    statistics_median values = Ok m /\ percentile values 50 = Ok v /\ m == v.
Proof.
  intros Hne.
  destruct (percentile_between values 50 Hne) as (v & lo & hi & Hv & Hlo & Hhi & Heq);
    [reflexivity | reflexivity |].
  set (k := (Qlen values - 1) * (50 / 100)) in *.
  set (s := py_sorted values) in *.
  set (n := Z.of_nat (length s)).
  assert (Hlen : length s = length values) by apply sorted_by_length.
  assert (Hn : (1 <= n)%Z).
  { subst n. rewrite Hlen. destruct values; [congruence | simpl length; lia]. }
  assert (HQ : Qlen values = inject_Z n).
  { unfold Qlen. subst n. now rewrite Hlen. }
  unfold statistics_median. fold s. fold n.
  destruct (Z.eqb_spec n 0) as [E|_]; [lia|].
  destruct (Z.odd n) eqn:Hodd.
  - assert (Hnq : (n = 2 * (n / 2) + 1)%Z).
    { rewrite (Z.div_mod n 2) at 1 by lia. rewrite Zmod_odd, Hodd. lia. }
    assert (Hk : k == inject_Z (n / 2)).
    { subst k. rewrite HQ. rewrite Hnq at 1.
      rewrite inject_Z_plus, inject_Z_mult.
      change (inject_Z 2) with 2. change (inject_Z 1) with 1. field. }
    assert (Hfl : Qfloor k = (n / 2)%Z) by (apply Qfloor_unique; lra).
    assert (Hce : Qceiling k = (n / 2)%Z) by (apply Qceiling_unique; lra).
    rewrite Hfl in Hlo, Heq. rewrite Hce in Hhi.
    destruct (py_index_ok s (n / 2)) as (m & Hm & Hnth); [subst n; lia|].
    exists m, v. split; [exact Hm|]. split; [exact Hv|].
    assert (m = lo) by congruence. assert (m = hi) by congruence. subst lo hi.
    lra.
  - assert (Hnq : (n = 2 * (n / 2))%Z).
    { rewrite (Z.div_mod n 2) at 1 by lia. rewrite Zmod_odd, Hodd. lia. }
    assert (Hq : (1 <= n / 2)%Z) by lia.
    assert (Hk : k == inject_Z (n / 2) - (1 # 2)).
    { subst k. rewrite HQ. rewrite Hnq at 1.
      rewrite inject_Z_mult. change (inject_Z 2) with 2. field. }
    assert (Hfl : Qfloor k = (n / 2 - 1)%Z).
    { replace (n / 2 - 1)%Z with (n / 2 + -1)%Z by lia.
      apply Qfloor_unique; rewrite inject_Z_plus;
        change (inject_Z (-1)) with (-1 # 1); lra. }
    assert (Hce : Qceiling k = (n / 2)%Z) by (apply Qceiling_unique; lra).
    rewrite Hfl in Hlo, Heq. rewrite Hce in Hhi.
    assert (Hinj : inject_Z (n / 2 - 1) == inject_Z (n / 2) - 1).
    { replace (n / 2 - 1)%Z with (n / 2 + -1)%Z by lia.
      rewrite inject_Z_plus. change (inject_Z (-1)) with (-1 # 1). lra. }
    destruct (py_index_ok s (n / 2 - 1)) as (a & Ha & Hna); [subst n; lia|].
    destruct (py_index_ok s (n / 2)) as (b & Hb & Hnb); [subst n; lia|].
    rewrite Ha, Hb. cbn [res_bind].
    exists ((a + b) / 2), v. split; [reflexivity|]. split; [exact Hv|].
    assert (a = lo) by congruence. assert (b = hi) by congruence. subst lo hi.
    rewrite Heq, Hinj, Hk. field.
Qed.

(** ** Backend selection *)

Local Close Scope Q_scope.

Lemma append_cons (c : ascii) (t post : string) :
  String c t ++ post = String c (t ++ post).
Proof. reflexivity. Qed.

Lemma append_nil (post : string) : EmptyString ++ post = post.
Proof. reflexivity. Qed.

Lemma prefix_spec (t s : string) :
  String.prefix t s = true <-> exists post, s = t ++ post.
Proof.
  revert s. induction t as [|c t IH]; intros s.
  - split; [intros _; now exists s | intros _; now destruct s].
  - destruct s as [|d s]; cbn [String.prefix].
    + split; [discriminate | intros [post H]; discriminate H].
    + destruct (Ascii.ascii_dec c d) as [->|Hne].
      * rewrite IH. split; intros [post H]; exists post.
        -- rewrite append_cons. now rewrite H.
        -- rewrite append_cons in H. now injection H.
      * split; [discriminate|]. intros [post H].
        rewrite append_cons in H. congruence.
Qed.

Lemma is_substring_spec (t s : string) :
  is_substring t s = true <-> exists pre post, s = pre ++ t ++ post.
Proof.
  induction s as [|d s IH]; cbn [is_substring].
  - rewrite orb_false_r, prefix_spec. split.
    + intros [post H]. exists EmptyString, post. exact H.
    + intros (pre & post & H). destruct pre as [|p pre]; [now exists post|].
      discriminate H.
  - rewrite orb_true_iff, prefix_spec, IH. split.
    + intros [[post H]|(pre & post & H)].
      * exists EmptyString, post. exact H.
      * exists (String d pre), post. rewrite append_cons. now rewrite H.
    + intros (pre & post & H). destruct pre as [|p pre].
      * left. now exists post.
      * right. rewrite append_cons in H. injection H as _ H. now exists pre, post.
Qed.

Lemma append_empty_r (s : string) : s ++ EmptyString = s.
Proof.
  induction s as [|c s IH]; [reflexivity|]. rewrite append_cons. now rewrite IH.
Qed.

Lemma lower_char_idempotent (c : ascii) : lower_char (lower_char c) = lower_char c.
Proof.
  destruct c as [[] [] [] [] [] [] [] []]; vm_compute; reflexivity.
Qed.

Lemma lower_idempotent (s : string) : lower (lower s) = lower s.
Proof.
  induction s as [|c s IH]; [reflexivity|].
  cbn [lower]. now rewrite lower_char_idempotent, IH.
Qed.

Lemma lower_nonempty (s : string) : nonempty (lower s) = nonempty s.
Proof. now destruct s. Qed.

Lemma string_append_assoc (a b c : string) : (a ++ b) ++ c = a ++ (b ++ c).
Proof.
  induction a as [|x a IH]; [reflexivity|]. rewrite !append_cons. now rewrite IH.
Qed.

Lemma string_of_list_ascii_snoc (l : list ascii) (c : ascii) :
  string_of_list_ascii (l ++ [c])%list = string_of_list_ascii l ++ String c EmptyString.
Proof.
  induction l as [|x l IH]; [reflexivity|].
  cbn [app string_of_list_ascii]. rewrite IH. reflexivity.
Qed.

Lemma string_rev_cons (c : ascii) (s : string) :
  string_rev (String c s) = string_rev s ++ String c EmptyString.
Proof.
  unfold string_rev. cbn [list_ascii_of_string rev]. apply string_of_list_ascii_snoc.
Qed.

Lemma all_chars_app (f : ascii -> bool) (a b : string) :
  all_chars f (a ++ b) = all_chars f a && all_chars f b.
Proof.
  induction a as [|x a IH]; [reflexivity|].
  rewrite append_cons. cbn [all_chars]. rewrite IH. apply andb_assoc.
Qed.

Lemma split_comma_go_nonempty (s cur : string) : split_comma_go cur s <> [].
Proof.
  revert cur. induction s as [|c s IH]; intros cur; cbn [split_comma_go];
    [discriminate|].
  destruct (Ascii.eqb c ","); [discriminate | apply IH].
Qed.

Lemma join_comma_cons (item : string) (rest : list string) :
  rest <> [] -> join_comma (item :: rest) = item ++ "," ++ join_comma rest.
Proof. destruct rest; [congruence | reflexivity]. Qed.

(** [split(",")] loses nothing: joining the items with commas gives the
    text back, and no item holds a comma. *)
Lemma split_comma_go_join (s : string) :
  forall cur, join_comma (split_comma_go cur s) = string_rev cur ++ s.
Proof.
  induction s as [|c s IH]; intros cur; cbn [split_comma_go].
  - cbn [join_comma]. now rewrite append_empty_r.
  - destruct (Ascii.eqb_spec c ",") as [->|Hne].
    + rewrite join_comma_cons by apply split_comma_go_nonempty.
      rewrite IH. reflexivity.
    + rewrite IH, string_rev_cons, string_append_assoc. reflexivity.
Qed.

Lemma split_comma_go_no_comma (s : string) :
  forall cur,
    no_comma (string_rev cur) = true ->
    Forall (fun item => no_comma item = true) (split_comma_go cur s).
Proof.
  induction s as [|c s IH]; intros cur Hcur; cbn [split_comma_go].
  - constructor; [exact Hcur | constructor].
  - destruct (Ascii.eqb c ",") eqn:E.
    + constructor; [exact Hcur | apply IH; reflexivity].
    + apply IH. rewrite string_rev_cons. unfold no_comma in *.
      rewrite all_chars_app, Hcur. cbn [all_chars]. now rewrite E.
Qed.

Lemma kept_items_nil (items : list string) :
  map (fun item => lower (strip item))
      (filter (fun item => nonempty (strip item) = true) items) = []
  <-> Forall (fun item => strip item = EmptyString) items.
Proof.
  induction items as [|x l IH]; [split; [constructor | reflexivity]|].
  destruct (nonempty (strip x)) eqn:E.
  - rewrite filter_cons_True by exact E. cbn [map]. split; [discriminate|].
    intros H. inversion H as [|? ? Hx _]; subst. rewrite Hx in E. discriminate.
  - rewrite filter_cons_False by (rewrite E; discriminate). rewrite IH. split.
    + intros H. constructor; [now destruct (strip x) | exact H].
    + intros H. now inversion H.
Qed.

Lemma kept_items_In (items : list string) (token : string) :
  In token (map (fun item => lower (strip item))
                (filter (fun item => nonempty (strip item) = true) items))
  <-> exists item, In item items /\ nonempty (strip item) = true /\
                   token = lower (strip item).
Proof.
  rewrite in_map_iff. split.
  - intros (item & <- & Hitem).
    apply list_elem_of_In, list_elem_of_filter in Hitem. destruct Hitem as [Hne Hitem].
    exists item. split; [now apply list_elem_of_In | now split].
  - intros (item & Hitem & Hne & ->). exists item. split; [reflexivity|].
    apply list_elem_of_In, list_elem_of_filter. split; [exact Hne|].
    now apply list_elem_of_In.
Qed.

(** The [--backend] option, end to end.  Its value is cut at every comma
    (joining the items with commas gives the value back, and no item
    holds a comma); the filter tokens are exactly the stripped,
    lowercased items that are not blank, so there is none exactly when
    every item is blank.  A backend is selected exactly when every item is
    blank, or when some item that is not blank, stripped and lowercased,
    occurs inside the lowercased backend name (the exact-name test of the
    source adds nothing to the substring test).  The tokens are non-empty
    and lowercase, and selection does not depend on the case of the
    name. *)
Theorem backend_filter_semantics (raw name : string) :
  (join_comma (split_comma raw) = raw /\
   Forall (fun item => no_comma item = true) (split_comma raw)) /\
  (forall token,
     In token (parse_backend_filters raw) <->
     exists item, In item (split_comma raw) /\ nonempty (strip item) = true /\
                  token = lower (strip item)) /\
  (parse_backend_filters raw = [] <->
   Forall (fun item => strip item = EmptyString) (split_comma raw)) /\
  (backend_is_selected name (parse_backend_filters raw) = true <->
   (Forall (fun item => strip item = EmptyString) (split_comma raw) \/
    exists item pre post,
      In item (split_comma raw) /\ nonempty (strip item) = true /\
      lower name = pre ++ lower (strip item) ++ post)) /\
  Forall (fun token => nonempty token = true /\ lower token = token)
         (parse_backend_filters raw) /\
  backend_is_selected (lower name) (parse_backend_filters raw)
    = backend_is_selected name (parse_backend_filters raw).
Proof.
  split; [|split; [|split; [|split; [|split]]]].
  - split.
    + unfold split_comma. now rewrite split_comma_go_join.
    + apply split_comma_go_no_comma. reflexivity.
  - intros token. apply kept_items_In.
  - apply kept_items_nil.
  - rewrite <- (kept_items_nil (split_comma raw)).
    fold (parse_backend_filters raw).
    unfold backend_is_selected.
    destruct (parse_backend_filters raw) as [|t ts] eqn:E.
    + split; [now left | reflexivity].
    + rewrite <- E. rewrite existsb_exists. split.
      * intros (token & Hin & Hsel). right.
        apply kept_items_In in Hin. destruct Hin as (item & Hitem & Hne & ->).
        apply orb_true_iff in Hsel. destruct Hsel as [Heq|Hsub].
        -- apply String.eqb_eq in Heq.
           exists item, EmptyString, EmptyString.
           split; [exact Hitem|]. split; [exact Hne|].
           rewrite append_nil, append_empty_r. now rewrite Heq.
        -- apply is_substring_spec in Hsub. destruct Hsub as (pre & post & H).
           exists item, pre, post. auto.
      * intros [Hnil|(item & pre & post & Hitem & Hne & H)].
        -- congruence.
        -- exists (lower (strip item)). split.
           ++ apply kept_items_In. exists item. auto.
           ++ apply orb_true_iff. right. apply is_substring_spec. eauto.
  - apply Forall_forall. intros token Hin.
    apply list_elem_of_In, kept_items_In in Hin. destruct Hin as (item & _ & Hne & ->).
    split; [now rewrite lower_nonempty | apply lower_idempotent].
  - unfold backend_is_selected. now rewrite lower_idempotent.
Qed.

Local Open Scope Q_scope.

(** ** Template variables *)

Local Close Scope Q_scope.

Lemma dict_get_app {V} (k : string) (d1 d2 : list (string * V)) :
  dict_get k (d1 ++ d2) =
  match dict_get k d1 with Some v => Some v | None => dict_get k d2 end.
Proof.
  induction d1 as [|[k' v'] d1 IH]; [reflexivity|].
  cbn [app dict_get]. now destruct (String.eqb k k').
Qed.

Lemma user_variables_lookup (l : list (string * string)) :
  forall (m : gmap string string) (k : string),
    fold_left (fun m kv => <[fst kv := snd kv]> m) l m !! k =
    match dict_get k (rev l) with Some v => Some v | None => m !! k end.
Proof.
  induction l as [|[k0 v0] l IH]; intros m k; [reflexivity|].
  cbn [fold_left rev fst snd]. rewrite IH, dict_get_app.
  destruct (dict_get k (rev l)) as [v|]; [reflexivity|].
  cbn [dict_get]. destruct (String.eqb_spec k k0) as [->|Hne].
  - apply lookup_insert_eq.
  - apply lookup_insert_ne. congruence.
Qed.

(** The five computed template variables overwrite user variables of the
    same name; every other name has the value the user's [variables]
    mapping gives it (its last binding), and is undefined when the
    mapping does not have it. *)
Theorem computed_variables_overwrite_user (resolve_path : string -> string)
    (repo_root : string) (path_name : string -> string) (cfg : config) :
  let vars := build_template_variables resolve_path repo_root path_name cfg in
  let path := if nonempty (model_path cfg) then resolve_path (model_path cfg)
              else EmptyString in
  vars !! "repo_root" = Some repo_root /\
  vars !! "model_path" = Some path /\
  vars !! "model_name"
    = Some (match model_name cfg with
            | Some n => n
            | None => if nonempty path then path_name path else EmptyString
            end) /\
  vars !! "prompt" = Some (prompt cfg) /\
  vars !! "max_tokens" = Some (str_of_Z (max_tokens cfg)) /\
  forall k,
    k <> "repo_root" -> k <> "model_path" -> k <> "model_name" ->
    k <> "prompt" -> k <> "max_tokens" ->
    vars !! k = dict_get k (rev (variables cfg)).
Proof.
  intros vars path. subst vars. unfold build_template_variables.
  assert (Hpath : (if nonempty (model_path cfg) then resolve_path (model_path cfg)
                   else model_path cfg) = path).
  { subst path. destruct (model_path cfg); reflexivity. }
  rewrite Hpath.
  repeat split.
  - now rewrite !lookup_insert_ne, lookup_insert_eq by discriminate.
  - now rewrite !lookup_insert_ne, lookup_insert_eq by discriminate.
  - now rewrite !lookup_insert_ne, lookup_insert_eq by discriminate.
  - now rewrite !lookup_insert_ne, lookup_insert_eq by discriminate.
  - now rewrite lookup_insert_eq.
  - intros k H1 H2 H3 H4 H5.
    rewrite !lookup_insert_ne by congruence.
    rewrite user_variables_lookup, lookup_empty.
    now destruct (dict_get k (rev (variables cfg))).
Qed.

Local Open Scope Q_scope.

(** ** Extraction rules and single runs *)

Local Close Scope Q_scope.

(** The primary-metric rules of a backend: the explicit [metric_regexes]
    win over the [parse] entry of the metric key, which is used only when
    the explicit list is empty; the result is empty only when the wall-time
    fallback is enabled, and with both lists empty and the fallback
    disabled the backend is rejected with a [ValueError]. *)
Theorem metric_regexes_selection (metric : MetricConfig) (fallback : bool)
    (b : backend) (explicit from_parse : list string) :
  normalize_regexes (b_metric_regexes b) = Ok explicit ->
  normalize_regexes (match dict_get (m_key metric) (b_parse b) with
                     | Some v => v
                     | None => JNull
                     end) = Ok from_parse ->
  (explicit <> [] ->
   select_metric_regexes metric fallback b = Ok explicit) /\
  (explicit = [] -> from_parse <> [] ->
   select_metric_regexes metric fallback b = Ok from_parse) /\
  (explicit = [] -> from_parse = [] ->
   select_metric_regexes metric fallback b =
   if fallback then Ok []
   else Raise (ValueError ("Backend '" ++ b_name b
                           ++ "' has no metric regexes for '" ++ m_key metric
                           ++ "' and fallback is disabled."))) /\
  (forall rs, select_metric_regexes metric fallback b = Ok rs ->
              fallback = false -> rs <> []).
Proof.
  intros He Hp. unfold select_metric_regexes. rewrite He. cbn [res_bind].
  split; [|split; [|split]].
  - intros Hne. destruct explicit as [|e es]; [congruence | reflexivity].
  - intros -> Hne. rewrite Hp. cbn [res_bind].
    destruct from_parse as [|p ps]; [congruence | reflexivity].
  - intros -> ->. rewrite Hp. cbn [res_bind]. now destruct fallback.
  - intros rs H Hf. subst fallback.
    destruct explicit as [|e es].
    + rewrite Hp in H. cbn [res_bind] in H.
      destruct from_parse as [|p ps]; [discriminate|].
      injection H as <-. discriminate.
    + cbn [res_bind] in H. injection H as <-. discriminate.
Qed.

Section RunProperties.
Variable re_search : string -> string -> re_flags -> re_outcome.
Variable py_float : string -> option Q.
Variable subprocess_run : nat -> spawn -> proc_outcome.

Local Abbreviation parse := (parse_numeric_metric re_search py_float).
Local Abbreviation aux_of := (extract_aux re_search py_float).

Lemma extract_aux_spec (combined : string) (aux_regexes : list (string * list string)) :
  Stdlib.Lists.List.NoDup (map fst aux_regexes) ->
  forall acc m, aux_of combined aux_regexes acc = Ok m ->
  forall k,
    (forall rs, dict_get k aux_regexes = Some rs ->
       exists r, parse combined rs = Ok r /\
                 dict_get k m = match r with
                                | Some v => Some v
                                | None => dict_get k acc
                                end) /\
    (dict_get k aux_regexes = None -> dict_get k m = dict_get k acc).
Proof.
  induction aux_regexes as [|[k0 rs0] rest IH]; intros Hnd acc m H k.
  - cbn in H. injection H as <-. split; [discriminate | reflexivity].
  - inversion Hnd as [|? ? Hnotin Hnd']; subst.
    cbn [extract_aux] in H.
    destruct (parse combined rs0) as [r0|e] eqn:Hr0; [|discriminate].
    cbn [res_bind] in H.
    pose proof (IH Hnd' _ _ H) as IH'.
    cbn [dict_get]. destruct (String.eqb_spec k k0) as [->|Hk].
    + split; [|discriminate].
      intros rs [= <-]. exists r0. split; [exact Hr0|].
      destruct (IH' k0) as [_ H2]. rewrite H2 by now apply dict_get_not_in.
      destruct r0 as [v|]; [apply dict_get_set_eq | reflexivity].
    + destruct (IH' k) as [H1 H2]. split.
      * intros rs Hrs. destruct (H1 rs Hrs) as (r & Hr & Hget).
        exists r. split; [exact Hr|]. rewrite Hget.
        destruct r as [v|]; [reflexivity|].
        destruct r0 as [v0|]; [apply dict_get_set_ne; congruence | reflexivity].
      * intros Hnone. rewrite (H2 Hnone).
        destruct r0 as [v0|]; [apply dict_get_set_ne; congruence | reflexivity].
Qed.

(** Auxiliary metrics are extracted independently of one another: when
    [run_once]'s loop over the auxiliary rules raises nothing, a key is in
    the result exactly when its own regex list yields a number on the
    combined output, with that number, whatever the other rules do. *)
Theorem aux_metrics_independent (combined : string)
    (aux_regexes : list (string * list string)) (aux_metrics : list (string * Q)) :
  Stdlib.Lists.List.NoDup (map fst aux_regexes) ->
  aux_of combined aux_regexes [] = Ok aux_metrics ->
  forall k,
    (forall rs, dict_get k aux_regexes = Some rs ->
                parse combined rs = Ok (dict_get k aux_metrics)) /\
    (dict_get k aux_regexes = None -> dict_get k aux_metrics = None).
Proof.
  intros Hnd H k. destruct (extract_aux_spec combined aux_regexes Hnd [] _ H k) as [H1 H2].
  split; [|exact H2].
  intros rs Hrs. destruct (H1 rs Hrs) as (r & Hr & Hget).
  rewrite Hr, Hget. now destruct r.
Qed.

(** One call of [run_once] issues exactly one call of [subprocess.run],
    whatever comes of it.  It raises exactly what that call raises
    ([TimeoutExpired] or another exception) and, when the call returns,
    what the extraction of the primary metric or, after it, of the
    auxiliary metrics raises.  Otherwise the record carries the exit code
    and the streams of the process; its primary metric is the extracted
    number, or the elapsed wall time when nothing was extracted and the
    fallback is enabled, and is absent otherwise; the run counts as
    successful exactly when the exit code is zero and a number was
    extracted or the fallback is enabled.  Both loops of [main] catch
    [TimeoutExpired] only: any other exception of the call ends them with
    that exception, under strict and lenient mode alike, and leaves the
    measured state as it was. *)
Theorem run_once_record (name command cwd : string) (timeout_s : Z)
    (env : gmap string string) (metric_regexes : list string)
    (aux_regexes : list (string * list string)) (fallback : bool)
    (trace : list spawn) :
  let sp := mk_spawn name command cwd env timeout_s in
  let call := run_once re_search py_float subprocess_run name command cwd
                       timeout_s env metric_regexes aux_regexes fallback in
  snd (call trace) = (trace ++ [sp])%list /\
  (subprocess_run (length trace) sp = ProcTimeout ->
   fst (call trace) = Raise TimeoutExpired) /\
  (forall e,
     subprocess_run (length trace) sp = ProcRaises e ->
     fst (call trace) = Raise e) /\
  (forall returncode stdout stderr wall_s,
     subprocess_run (length trace) sp = ProcExit returncode stdout stderr wall_s ->
     let combined := stdout ++ newline ++ stderr in
     (forall e, parse combined metric_regexes = Raise e ->
                fst (call trace) = Raise e) /\
     (forall parsed e,
        parse combined metric_regexes = Ok parsed ->
        aux_of combined aux_regexes [] = Raise e ->
        fst (call trace) = Raise e) /\
     (forall parsed aux,
        parse combined metric_regexes = Ok parsed ->
        aux_of combined aux_regexes [] = Ok aux ->
        exists record,
          fst (call trace) = Ok record /\
          ro_exit_code record = returncode /\
          ro_wall_seconds record = wall_s /\
          ro_stdout record = stdout /\ ro_stderr record = stderr /\
          ro_aux_metrics record = aux /\
          ro_primary_metric record
            = match parsed with
              | Some v => Some v
              | None => if fallback then Some wall_s else None
              end /\
          (run_ok record = true <->
           returncode = 0%Z /\ (parsed <> None \/ fallback = true)))) /\
  (forall e strict_mode,
     fst (call trace) = Raise e -> e <> TimeoutExpired ->
     (forall n, warmup_loop call strict_mode (S n) trace
                = (Exit (Raised e) tt, (trace ++ [sp])%list)) /\
     (forall i st, measure_step call strict_mode timeout_s i st trace
                   = (Exit (Raised e) st, (trace ++ [sp])%list))).
Proof.
  intros sp call.
  assert (Hsnd : snd (call trace) = (trace ++ [sp])%list).
  { subst call. unfold run_once. fold sp.
    now destruct (subprocess_run (length trace) sp). }
  split; [exact Hsnd|].
  split; [subst call; unfold run_once; fold sp; now intros ->|].
  split; [subst call; unfold run_once; fold sp; now intros e ->|].
  split.
  - intros returncode stdout stderr wall_s Hrun combined.
    subst call. unfold run_once. fold sp. rewrite Hrun. fold combined.
    split; [now intros e ->|].
    split; [intros parsed e -> Ha; cbn [res_bind]; now rewrite Ha|].
    intros parsed aux Hp Ha.
    rewrite Hp. cbn [res_bind]. rewrite Ha. cbn [res_bind fst].
    eexists. split; [reflexivity|]. cbn.
    repeat (split; [reflexivity|]).
    unfold run_ok. cbn. rewrite andb_true_iff, Z.eqb_eq.
    destruct parsed as [v|]; [|destruct fallback]; split; intros [H1 H2];
      (split; [exact H1|]); try reflexivity; try discriminate;
      try (left; discriminate); try (now right).
    now destruct H2.
  - intros e strict_mode He Hne.
    assert (Hcall : call trace = (Raise e, (trace ++ [sp])%list)).
    { rewrite <- He, <- Hsnd. now destruct (call trace). }
    split.
    + intros n. cbn [warmup_loop]. rewrite Hcall. now destruct e.
    + intros i st. unfold measure_step. rewrite Hcall. now destruct e.
Qed.
End RunProperties.

Local Open Scope Q_scope.

(** ** Counters and rows *)

Local Close Scope Q_scope.

Section CounterProperties.
Variable call : list spawn -> res run_output * list spawn.
Variable strict_mode : bool.
Variable timeout_s : Z.

Lemma filter_ok_snoc (l : list run_entry) (e : run_entry) :
  length (filter (fun e => entry_ok e = true) (l ++ [e])%list)
  = (length (filter (fun e => entry_ok e = true) l)
     + if entry_ok e then 1 else 0)%nat.
Proof.
  rewrite filter_app, length_app. f_equal.
  destruct (entry_ok e) eqn:E.
  - now rewrite filter_cons_True.
  - rewrite filter_cons_False; [reflexivity|]. congruence.
Qed.

Lemma measure_step_consistent (i : Z) (st : measure_state) (t : list spawn) :
  measure_consistent st ->
  forall f t', measure_step call strict_mode timeout_s i st t = (f, t') ->
  match f with
  | Done st' =>
      measure_consistent st' /\
      length (measured_runs st') = S (length (measured_runs st)) /\
      (strict_mode = true -> failed_runs st' = failed_runs st)
  | Exit _ st' => measure_consistent st'
  end.
Proof.
  intros (I1 & I2 & I3) f t' H. unfold measure_step in H.
  destruct (call t) as [[record|e] t1].
  - destruct ((ro_exit_code record =? 0)%Z &&
              match ro_primary_metric record with Some _ => true | None => false end)
      eqn:Hok.
    + injection H as <- _. cbn [measured_runs success_metrics success_wall failed_runs].
      split; [|split; [|reflexivity]].
      * unfold measure_consistent.
        cbn [measured_runs success_metrics success_wall failed_runs].
        rewrite filter_ok_snoc. cbn [entry_ok]. rewrite !length_app. cbn [length].
        repeat split; lia.
      * rewrite length_app. cbn [length]. lia.
    + assert (Hc : measure_consistent
                (mk_measure
                   (measured_runs st ++
                    [RunMeasured i false (ro_exit_code record) (ro_wall_seconds record)
                       (ro_primary_metric record) (ro_aux_metrics record)
                       (last_chars 1200 (ro_stdout record))
                       (last_chars 1200 (ro_stderr record))])%list
                   (success_metrics st) (success_wall st) (aux_values st)
                   (failed_runs st + 1))).
      { unfold measure_consistent.
        cbn [measured_runs success_metrics success_wall failed_runs].
        rewrite filter_ok_snoc. cbn [entry_ok]. rewrite !length_app. cbn [length].
        repeat split; lia. }
      destruct strict_mode; injection H as <- _; [exact Hc|].
      split; [exact Hc|]. cbn [measured_runs]. rewrite length_app. cbn [length].
      split; [lia | discriminate].
  - assert (Hc : measure_consistent
                (mk_measure
                   (measured_runs st ++
                    [RunTimedOut i ("timeout after " ++ str_of_Z timeout_s ++ "s")])%list
                   (success_metrics st) (success_wall st) (aux_values st)
                   (failed_runs st + 1))).
    { unfold measure_consistent.
      cbn [measured_runs success_metrics success_wall failed_runs].
      rewrite filter_ok_snoc. cbn [entry_ok]. rewrite !length_app. cbn [length].
      repeat split; lia. }
    destruct e; try (injection H as <- _; now repeat split).
    destruct strict_mode; injection H as <- _; [exact Hc|].
    split; [exact Hc|]. cbn [measured_runs]. rewrite length_app. cbn [length].
    split; [lia | discriminate].
Qed.

Lemma measure_loop_consistent (indices : list Z) :
  forall st t f t',
    measure_consistent st ->
    measure_loop call strict_mode timeout_s indices st t = (f, t') ->
    match f with
    | Done st' =>
        measure_consistent st' /\
        length (measured_runs st')
          = (length (measured_runs st) + length indices)%nat /\
        (strict_mode = true -> failed_runs st' = failed_runs st)
    | Exit _ st' => measure_consistent st'
    end.
Proof.
  induction indices as [|i rest IH]; intros st t f t' Hc H.
  - injection H as <- _. cbn [length]. repeat split; [apply Hc.. | lia].
  - cbn [measure_loop] in H.
    destruct (measure_step call strict_mode timeout_s i st t) as [g t1] eqn:Hs.
    pose proof (measure_step_consistent i st t Hc _ _ Hs) as Hg.
    destruct g as [st1|x st1].
    + destruct Hg as (Hc1 & Hlen1 & Hf1).
      specialize (IH _ _ _ _ Hc1 H).
      destruct f as [st'|x st']; [|exact IH].
      destruct IH as (Hc' & Hlen' & Hf').
      split; [exact Hc'|]. split; [cbn [length]; lia|].
      intros Hs'. rewrite (Hf' Hs'). now apply Hf1.
    + injection H as <- _. exact Hg.
Qed.
End CounterProperties.

Lemma initial_measure_consistent : measure_consistent initial_measure.
Proof. repeat split. Qed.

Lemma summarize_returns (py_sqrt : Q -> Q) (values : list Q) :
  values <> [] -> exists st, summarize py_sqrt values = Ok (Summary st).
Proof.
  intros Hne. destruct values as [|x xs]; [congruence|].
  destruct (median_between (min_from x xs) (max_from x xs) (x :: xs) Hne)
    as (med & Hmed & _);
    [apply (min_from_spec xs x) | apply (max_from_spec xs x) |].
  destruct (percentile_between (x :: xs) 95 Hne) as (p95 & _ & _ & Hp95 & _);
    [reflexivity | reflexivity |].
  unfold summarize.
  change (statistics_mean (x :: xs)) with (Ok (Qsum (x :: xs) / Qlen (x :: xs))%Q).
  change (py_min (x :: xs)) with (Ok (min_from x xs)).
  change (py_max (x :: xs)) with (Ok (max_from x xs)).
  rewrite Hmed, Hp95. cbn [res_bind].
  destruct (1 <? Z.of_nat (length (x :: xs)))%Z.
  - unfold statistics_pstdev.
    change (statistics_mean (x :: xs)) with (Ok (Qsum (x :: xs) / Qlen (x :: xs))%Q).
    cbn [res_bind]. eexists. reflexivity.
  - cbn [res_bind]. eexists. reflexivity.
Qed.

Lemma summarize_empty_iff (py_sqrt : Q -> Q) (values : list Q) (s : summary_dict) :
  summarize py_sqrt values = Ok s ->
  (summary_median s <> None <-> values <> []).
Proof.
  destruct values as [|x xs].
  - cbn. intros [= <-]. cbn. split; congruence.
  - intros H.
    destruct (summarize_returns py_sqrt (x :: xs)) as (st & Hst); [discriminate|].
    rewrite Hst in H. injection H as <-. cbn. split; intros _; discriminate.
Qed.

Lemma build_row_consistent (py_sqrt : Q -> Q) (name command cwd : string)
    (st : measure_state) (row : result_row) :
  measure_consistent st ->
  build_row py_sqrt name command cwd st = Ok row ->
  row_consistent row /\ row_runs row = measured_runs st /\
  sm_failed_runs (row_summary row) = failed_runs st.
Proof.
  intros (I1 & I2 & I3) H. unfold build_row in H.
  destruct (summarize py_sqrt (success_metrics st)) as [primary|] eqn:Hp; [|discriminate].
  destruct (summarize py_sqrt (success_wall st)) as [wall|]; [|discriminate].
  destruct (summarize_aux py_sqrt (aux_values st)) as [aux|]; [|discriminate].
  cbn [res_bind] in H. injection H as <-.
  pose proof (summarize_empty_iff py_sqrt _ _ Hp) as Hmed.
  split; [|split; reflexivity].
  unfold row_consistent, is_good, row_median.
  cbn [row_summary row_runs row_status sm_success_runs sm_failed_runs sm_primary_metric].
  rewrite I2.
  split; [reflexivity|]. split; [lia|].
  destruct (success_metrics st) as [|v vs] eqn:Hsm.
  - assert (Hnone : summary_median primary = None).
    { destruct (summary_median primary) as [q|] eqn:Hq; [|reflexivity].
      assert (Hx : @nil Q <> []) by (apply Hmed; discriminate).
      congruence. }
    rewrite Hnone. cbn [length].
    split; [now right|]. split; [split; [discriminate | lia]|].
    split; [split; [discriminate | congruence]|].
    split; [discriminate | discriminate].
  - assert (Hsome : summary_median primary <> None) by (apply Hmed; discriminate).
    cbn [length].
    split; [now left|]. split; [split; [lia | reflexivity]|].
    split; [split; [intros _; exact Hsome | reflexivity]|].
    destruct (summary_median primary) as [m|]; [|congruence].
    split; reflexivity.
Qed.

Local Open Scope Q_scope.

(** ** Exits, counts and invariants of the schedule *)

Local Close Scope Q_scope.

Section ExitProperties.
Variable call : list spawn -> res run_output * list spawn.
Variable strict_mode : bool.
Variable timeout_s : Z.

Lemma warmup_loop_exit (n : nat) :
  forall t x u t', warmup_loop call strict_mode n t = (Exit x u, t') ->
  exists e, x = Raised e.
Proof.
  induction n as [|n IH]; intros t x u t' H; [discriminate|].
  cbn [warmup_loop] in H.
  destruct (call t) as [[ro|e] t1]; [now apply IH in H|].
  destruct e; try (injection H as <- _ _; eauto).
  destruct strict_mode; [injection H as <- _ _; eauto | now apply IH in H].
Qed.

Lemma measure_step_exit (i : Z) (st : measure_state) (t : list spawn) :
  forall x st' t', measure_step call strict_mode timeout_s i st t = (Exit x st', t') ->
  loop_exit strict_mode x /\
  (x = Returned 2 ->
   exists entry, measured_runs st' = (measured_runs st ++ [entry])%list /\
                 entry_index entry = i /\ entry_ok entry = false).
Proof.
  intros x st' t' H. unfold measure_step in H.
  destruct (call t) as [[record|e] t1].
  - destruct ((ro_exit_code record =? 0)%Z && _) eqn:Hok; [discriminate|].
    destruct strict_mode; [|discriminate].
    injection H as <- <- _. split; [right; auto|].
    intros _. eexists. split; [reflexivity|]. split; reflexivity.
  - destruct e; try (injection H as <- _ _; split; [left; eauto | discriminate]).
    destruct strict_mode; [|discriminate].
    injection H as <- <- _. split; [right; auto|].
    intros _. eexists. split; [reflexivity|]. split; reflexivity.
Qed.

Lemma measure_loop_exit (indices : list Z) :
  forall st t x st' t',
    measure_loop call strict_mode timeout_s indices st t = (Exit x st', t') ->
    loop_exit strict_mode x /\
    (x = Returned 2 ->
     exists entry, last (measured_runs st') = Some entry /\ entry_ok entry = false).
Proof.
  induction indices as [|i rest IH]; intros st t x st' t' H; [discriminate|].
  cbn [measure_loop] in H.
  destruct (measure_step call strict_mode timeout_s i st t) as [[st1|x1 st1] t1] eqn:Hs.
  - now apply IH in H.
  - injection H as <- <- _.
    destruct (measure_step_exit _ _ _ _ _ _ Hs) as [Hx Hentry].
    split; [exact Hx|]. intros H2. destruct (Hentry H2) as (entry & Hruns & _ & Hok).
    exists entry. split; [|exact Hok]. rewrite Hruns. apply last_snoc.
Qed.
End ExitProperties.

Section BodyInvariants.
Variable py_sqrt : Q -> Q.
Variable call : list spawn -> res run_output * list spawn.
Variable strict_mode : bool.
Variable timeout_s n_warmup n_runs : Z.
Variable name command cwd : string.

Local Abbreviation body :=
  (run_loops py_sqrt call strict_mode timeout_s n_warmup n_runs name command cwd).

Lemma py_range1_length (n : Z) : length (py_range1 n) = Z.to_nat n.
Proof. unfold py_range1. now rewrite length_map, length_seq. Qed.

Lemma run_loops_row (t t' : list spawn) (row : result_row) :
  body t = (RowDone row, t') ->
  row_consistent row /\
  length (row_runs row) = Z.to_nat n_runs /\
  (strict_mode = true -> sm_failed_runs (row_summary row) = 0%Z).
Proof.
  unfold run_loops. intros H.
  destruct (warmup_loop call strict_mode (Z.to_nat n_warmup) t) as [[u|x u] t1];
    [|discriminate].
  destruct (measure_loop call strict_mode timeout_s (py_range1 n_runs)
              initial_measure t1) as [[st|x st] t2] eqn:Hm; [|discriminate].
  destruct (build_row py_sqrt name command cwd st) as [row'|] eqn:Hr; [|discriminate].
  injection H as <- _.
  destruct (measure_loop_consistent call strict_mode timeout_s _ _ _ _ _
              initial_measure_consistent Hm) as (Hc & Hlen & Hf).
  destruct (build_row_consistent py_sqrt _ _ _ _ _ Hc Hr) as (Hrow & Hruns & Hfail).
  split; [exact Hrow|]. split.
  - rewrite Hruns, Hlen, py_range1_length. reflexivity.
  - intros Hs. rewrite Hfail. now apply Hf.
Qed.

Lemma run_loops_exit (t t' : list spawn) (x : exit_kind) (measured : list run_entry) :
  body t = (RowExit x measured, t') ->
  loop_exit strict_mode x /\
  (x = Returned 2 ->
   exists entry, last measured = Some entry /\ entry_ok entry = false).
Proof.
  unfold run_loops. intros H.
  destruct (warmup_loop call strict_mode (Z.to_nat n_warmup) t) as [[u|x1 u] t1] eqn:Hw.
  - destruct (measure_loop call strict_mode timeout_s (py_range1 n_runs)
                initial_measure t1) as [[st|x2 st] t2] eqn:Hm.
    + destruct (build_row py_sqrt name command cwd st) as [row'|e]; [discriminate|].
      injection H as <- _ _. split; [left; eauto | discriminate].
    + injection H as <- <- _. eapply measure_loop_exit, Hm.
  - injection H as <- _ _. apply warmup_loop_exit in Hw. destruct Hw as [e ->].
    split; [left; eauto | discriminate].
Qed.
End BodyInvariants.

Local Open Scope Q_scope.

(** ** No retries: a bound on the processes spawned *)

Local Close Scope Q_scope.

Section CountProperties.
Variable call : list spawn -> res run_output * list spawn.
Variable name command : string.
Hypothesis call_spawns : spawns_for name command call.

Lemma call_length (t : list spawn) (r : res run_output) (t' : list spawn) :
  call t = (r, t') -> length t' = S (length t).
Proof using call_spawns.
  intros H. destruct (call_trace call name command call_spawns _ _ _ H) as (sp & -> & _).
  rewrite length_app. cbn. lia.
Qed.

Lemma warmup_loop_length (strict_mode : bool) (n : nat) :
  forall t f t', warmup_loop call strict_mode n t = (f, t') ->
  (length t' <= length t + n)%nat /\
  (forall u, f = Done u -> length t' = (length t + n)%nat).
Proof using call_spawns.
  induction n as [|n IH]; intros t f t' H.
  - injection H as <- <-. split; [lia | intros; lia].
  - cbn [warmup_loop] in H. destruct (call t) as [r t1] eqn:Hc.
    pose proof (call_length _ _ _ Hc) as Hl.
    assert (Hgo : warmup_loop call strict_mode n t1 = (f, t') ->
              (length t' <= length t + S n)%nat /\
              (forall u, f = Done u -> length t' = (length t + S n)%nat)).
    { intros Hn. destruct (IH _ _ _ Hn) as [H1 H2].
      split; [lia|]. intros u Hu. rewrite (H2 u Hu). lia. }
    assert (Hstop : forall x u, (Exit x u, t1) = (f, t') ->
              (length t' <= length t + S n)%nat /\
              (forall u, f = Done u -> length t' = (length t + S n)%nat)).
    { intros x u [= <- <-]. split; [lia | discriminate]. }
    destruct r as [ro|e]; [exact (Hgo H)|].
    destruct e; try exact (Hstop _ _ H).
    destruct strict_mode; [exact (Hstop _ _ H) | exact (Hgo H)].
Qed.

Lemma measure_loop_length (strict_mode : bool) (timeout_s : Z) (indices : list Z) :
  forall st t f t',
    measure_loop call strict_mode timeout_s indices st t = (f, t') ->
    (length t' <= length t + length indices)%nat /\
    (forall st', f = Done st' -> length t' = (length t + length indices)%nat).
Proof using call_spawns.
  induction indices as [|i rest IH]; intros st t f t' H.
  - injection H as <- <-. cbn [length]. split; [lia | intros; lia].
  - cbn [measure_loop] in H.
    destruct (measure_step call strict_mode timeout_s i st t) as [g t1] eqn:Hs.
    destruct (measure_step_trace call name command call_spawns _ _ _ _ _ _ _ Hs)
      as (sp & -> & _).
    destruct g as [st1|x st1].
    + destruct (IH _ _ _ _ H) as [H1 H2]. rewrite length_app in H1, H2.
      cbn [length] in *. split; [lia|]. intros st' Hd. rewrite (H2 st' Hd). lia.
    + injection H as <- <-. rewrite length_app. cbn [length].
      split; [lia | discriminate].
Qed.

Lemma run_loops_length (py_sqrt : Q -> Q) (strict_mode : bool)
    (timeout_s n_warmup n_runs : Z) (nm cmd cwd : string) :
  forall t f t',
    run_loops py_sqrt call strict_mode timeout_s n_warmup n_runs nm cmd cwd t
      = (f, t') ->
    (length t' <= length t + (Z.to_nat n_warmup + Z.to_nat n_runs))%nat /\
    (forall row, f = RowDone row ->
       length t' = (length t + (Z.to_nat n_warmup + Z.to_nat n_runs))%nat).
Proof using call_spawns.
  intros t f t' H. unfold run_loops in H.
  destruct (warmup_loop call strict_mode (Z.to_nat n_warmup) t) as [w t1] eqn:Hw.
  destruct (warmup_loop_length _ _ _ _ _ Hw) as [W1 W2].
  destruct w as [u|x u]; [|injection H as <- <-; split; [lia | discriminate]].
  specialize (W2 u eq_refl).
  destruct (measure_loop call strict_mode timeout_s (py_range1 n_runs)
              initial_measure t1) as [m t2] eqn:Hm.
  destruct (measure_loop_length _ _ _ _ _ _ _ Hm) as [M1 M2].
  rewrite py_range1_length in M1, M2.
  destruct m as [st|x st].
  - specialize (M2 st eq_refl).
    destruct (build_row py_sqrt nm cmd cwd st); injection H as <- <-;
      (split; [lia|]); [intros; lia | discriminate].
  - injection H as <- <-. split; [lia | discriminate].
Qed.
End CountProperties.

Local Open Scope Q_scope.

Section MainInvariants.
Variable str_format : string -> gmap string string -> res string.
Variable re_search : string -> string -> re_flags -> re_outcome.
Variable py_float : string -> option Q.
Variable py_sqrt : Q -> Q.
Variable os_environ : gmap string string.
Variable resolve_path : string -> string.
Variable repo_root : string.
Variable path_name : string -> string.
Variable subprocess_run : nat -> spawn -> proc_outcome.

Local Abbreviation the_main :=
  (main str_format re_search py_float py_sqrt os_environ resolve_path repo_root
        path_name subprocess_run).
Local Abbreviation tvars :=
  (build_template_variables resolve_path repo_root path_name).
Local Abbreviation r_backend :=
  (run_backend str_format re_search py_float py_sqrt os_environ resolve_path
               subprocess_run).
Local Abbreviation r_backends :=
  (run_backends str_format re_search py_float py_sqrt os_environ resolve_path
                subprocess_run).

Section Schedule.
Variable metric : MetricConfig.
Variable vars : gmap string string.
Variable strict_mode fallback : bool.
Variable n_runs n_warmup timeout_s : Z.
Variable backend_commands : gmap string string.

Local Abbreviation schedule :=
  (r_backends metric vars strict_mode fallback n_runs n_warmup timeout_s
              backend_commands).

(** What holds of every row the schedule produces. *)
Local Abbreviation good_row :=
  (fun row : result_row =>
     row_consistent row /\
     length (row_runs row) = Z.to_nat n_runs /\
     (strict_mode = true -> sm_failed_runs (row_summary row) = 0%Z)).

Lemma run_backend_cases (b : backend) (command : string) (t : list spawn) :
  forall f t',
    r_backend metric vars strict_mode fallback n_runs n_warmup timeout_s
              b command t = (f, t') ->
    match f with
    | RowDone row => good_row row
    | RowExit x measured =>
        loop_exit strict_mode x /\
        (x = Returned 2 ->
         exists entry, last measured = Some entry /\ entry_ok entry = false)
    end.
Proof.
  intros f t' H. unfold run_backend in H.
  destruct (backend_call _ _ _ _ _ _ _ _ _ _ _ _) as [call|e].
  - destruct f as [row|x measured].
    + eapply run_loops_row, H.
    + eapply run_loops_exit, H.
  - injection H as <- _. split; [left; eauto | discriminate].
Qed.

Lemma run_backends_cases (bs : list backend) :
  forall rows t f t',
    Forall good_row rows ->
    schedule bs rows t = (f, t') ->
    match f with
    | Completed rows' => Forall good_row rows'
    | Stopped x rows' measured =>
        Forall good_row rows' /\ loop_exit strict_mode x /\
        (x = Returned 2 ->
         exists entry, last measured = Some entry /\ entry_ok entry = false)
    end.
Proof.
  induction bs as [|b rest IH]; intros rows t f t' Hrows H.
  - injection H as <- _. exact Hrows.
  - destruct (is_scheduled backend_commands b) eqn:Hs.
    + destruct (is_scheduled_true _ _ Hs) as (He & command & Hc).
      rewrite run_backends_run with (command := command) in H by assumption.
      destruct (r_backend _ _ _ _ _ _ _ _ _ _) as [g t1] eqn:Hb.
      pose proof (run_backend_cases _ _ _ _ _ Hb) as Hg.
      destruct g as [row|x measured].
      * apply IH in H; [exact H|]. apply Forall_app. split; [exact Hrows|].
        constructor; [exact Hg | constructor].
      * injection H as <- _. split; [exact Hrows | exact Hg].
    + rewrite run_backends_skip in H by assumption. now apply IH in H.
Qed.
End Schedule.

Local Abbreviation schedule_of args cfg metric :=
  (r_backends metric (tvars cfg) (strict cfg) (effective_fallback metric cfg)
              (effective_runs args cfg) (effective_warmup_runs args cfg)
              (timeout_seconds cfg)).

(** The two ways [main] can go: it ends before the schedule, having
    spawned and written nothing, or it runs the schedule and [finish]. *)
Lemma main_cases (args : cli_args) (loaded : option config) :
  let out := the_main args loaded in
  (out = mk_outcome (out_exit out) [] [] [] None /\
   (out_exit out = Returned 1 \/ (exists e, out_exit out = Raised e) \/
    (out_exit out = Returned 0 /\ arg_dry_run args = true))) \/
  (exists cfg metric cmds,
     loaded = Some cfg /\ from_config cfg = Ok metric /\
     arg_dry_run args = false /\
     resolve_commands str_format (tvars cfg)
       (parse_backend_filters (arg_backend args)) (backends cfg) ∅ = Ok cmds /\
     out = finish metric (schedule_of args cfg metric cmds (backends cfg) [] [])).
Proof.
  intros out. subst out. unfold main.
  destruct loaded as [cfg|]; [|left; split; [reflexivity | now left]].
  destruct (from_config cfg) as [metric|e] eqn:Hm;
    [|left; split; [reflexivity | right; left; eauto]].
  destruct (backends cfg) as [|b bs] eqn:Hb;
    [left; split; [reflexivity | now left]|].
  cbv zeta.
  destruct (resolve_commands str_format (tvars cfg)
              (parse_backend_filters (arg_backend args)) (b :: bs) ∅)
    as [cmds|e] eqn:Hr; [|left; split; [reflexivity | right; left; eauto]].
  destruct (bool_decide (cmds = ∅)); [left; split; [reflexivity | now left]|].
  destruct (arg_dry_run args) eqn:Hd;
    [left; split; [reflexivity | right; right; auto]|].
  right. exists cfg, metric, cmds. rewrite Hb. auto.
Qed.

Lemma set_median_vs_best_consistent (row : result_row) (q : Q) :
  row_consistent row -> row_consistent (set_median_vs_best row q).
Proof. intros H. exact H. Qed.

Lemma assign_ratios_preserves (P : result_row -> Prop) (metric : MetricConfig)
    (best : Q) :
  (forall row q, P row -> P (set_median_vs_best row q)) ->
  forall rows rows', Forall P rows ->
    assign_ratios metric best rows = Ok rows' -> Forall P rows'.
Proof.
  intros HP. induction rows as [|r rest IH]; intros rows' Hall H.
  - injection H as <-. constructor.
  - inversion Hall as [|? ? Hr Hrest]; subst. cbn [assign_ratios] in H.
    destruct (is_good r).
    + destruct (median_ratio metric best r) as [q|]; [|discriminate].
      cbn [res_bind] in H.
      destruct (assign_ratios metric best rest) as [rest'|] eqn:Ha; [|discriminate].
      injection H as <-. constructor; [now apply HP | now apply IH].
    + cbn [res_bind] in H.
      destruct (assign_ratios metric best rest) as [rest'|] eqn:Ha; [|discriminate].
      injection H as <-. constructor; [exact Hr | now apply IH].
Qed.

Lemma rank_results_preserves (P : result_row -> Prop) (metric : MetricConfig)
    (rows rows' : list result_row) (best : option Q) :
  (forall row q, P row -> P (set_median_vs_best row q)) ->
  Forall P rows -> rank_results metric rows = Ok (rows', best) -> Forall P rows'.
Proof.
  intros HP Hall H. unfold rank_results in H.
  destruct (best_median metric rows) as [b|]; [|now injection H as <- _].
  destruct (Qltb 0 b); [|now injection H as <- _].
  destruct (assign_ratios metric b rows) as [r'|] eqn:Ha; [|discriminate].
  injection H as <- _. eapply assign_ratios_preserves; eassumption.
Qed.

(** Every row [main] holds when it stops, and so every row of a written
    report, is consistent: [success_runs] is the number of successful
    entries of its run list and [success_runs + failed_runs] the length of
    that list, which is the number of measured runs asked for; its status
    is "ok" exactly when a run succeeded, which is exactly when its median
    is defined; and under strict mode it has no failed run. *)
Theorem result_rows_consistent (args : cli_args) (cfg : config) :
  let out := the_main args (Some cfg) in
  Forall (fun row =>
            row_consistent row /\
            length (row_runs row) = Z.to_nat (effective_runs args cfg) /\
            (strict cfg = true -> sm_failed_runs (row_summary row) = 0%Z))
         (out_result_rows out) /\
  (forall rows, out_written out = Some rows -> rows = out_result_rows out).
Proof.
  intros out.
  pose proof (main_cases args (Some cfg)) as Hcases. cbv zeta in Hcases.
  change (the_main args (Some cfg)) with out in Hcases.
  destruct Hcases as [[Hout _]|Hsched].
  - rewrite Hout. cbn. split; [constructor | discriminate].
  - destruct Hsched as (cfg' & metric & cmds & [= <-] & Hm & Hd & Hr & Hout).
    rewrite Hout.
    destruct (schedule_of args cfg metric cmds (backends cfg) [] []) as [f t] eqn:Hs.
    pose proof (run_backends_cases _ _ _ _ _ _ _ _ _ _ _ _ _
                  (Forall_nil_2 _) Hs) as Hf.
    unfold finish. destruct f as [rows|x rows measured].
    + destruct (rank_results metric rows) as [[rows' best]|e] eqn:Hrank.
      * cbn. split; [|now intros ? [= <-]].
        eapply rank_results_preserves; [|exact Hf | exact Hrank].
        intros row q Hrow. exact Hrow.
      * cbn. split; [exact Hf | discriminate].
    + cbn. split; [apply Hf | discriminate].
Qed.

(** [main] returns only 0, 1 or 2.  It returns 2 only under strict mode,
    outside a dry run, with a failed run as the last entry of the current
    run list; it returns 1 only before any process was spawned; it writes
    its reports only when it returns 0, and a run that does not return 0
    writes nothing. *)
Theorem main_exit_codes (args : cli_args) (loaded : option config) :
  let out := the_main args loaded in
  (forall c, out_exit out = Returned c -> c = 0 \/ c = 1 \/ c = 2)%Z /\
  (out_exit out = Returned 2 ->
   exists cfg entry,
     loaded = Some cfg /\ strict cfg = true /\ arg_dry_run args = false /\
     last (out_measured_runs out) = Some entry /\ entry_ok entry = false) /\
  (out_exit out = Returned 1 -> out_trace out = []) /\
  (forall rows, out_written out = Some rows ->
                out_exit out = Returned 0 /\ arg_dry_run args = false) /\
  (out_exit out <> Returned 0 -> out_written out = None).
Proof.
  intros out.
  pose proof (main_cases args loaded) as Hcases. cbv zeta in Hcases.
  change (the_main args loaded) with out in Hcases.
  destruct Hcases as [[Hout Hexit]|Hsched].
  - rewrite Hout. cbn.
    split; [|split; [|split; [|split]]]; try discriminate; try reflexivity.
    + intros c Hc. destruct Hexit as [H|[[e H]|[H _]]]; rewrite H in Hc;
        [injection Hc as <-; auto | discriminate | injection Hc as <-; auto].
    + intros H2. destruct Hexit as [H|[[e H]|[H _]]]; congruence.
  - destruct Hsched as (cfg & metric & cmds & -> & Hm & Hd & Hr & Hout).
    rewrite Hout.
    destruct (schedule_of args cfg metric cmds (backends cfg) [] []) as [f t] eqn:Hs.
    pose proof (run_backends_cases _ _ _ _ _ _ _ _ _ _ _ _ _
                  (Forall_nil_2 _) Hs) as Hf.
    unfold finish. destruct f as [rows|x rows measured].
    + destruct (rank_results metric rows) as [[rows' best]|e] eqn:Hrank; cbn.
      * split; [intros c [= <-]; auto|].
        split; [discriminate|]. split; [discriminate|].
        split; [auto | congruence].
      * split; [discriminate|]. split; [discriminate|]. split; [discriminate|].
        split; [discriminate | reflexivity].
    + destruct Hf as (_ & Hx & Hlast). cbn.
      split; [|split; [|split; [|split]]]; try discriminate; try reflexivity.
      * intros c ->. destruct Hx as [[e He]|[Hc _]]; [discriminate|].
        injection Hc as ->. auto.
      * intros ->. destruct Hx as [[e He]|[_ Hstrict]]; [discriminate|].
        destruct (Hlast eq_refl) as (entry & Hl & Hok).
        exists cfg, entry. auto.
      * intros ->. destruct Hx as [[e He]|[Hc _]]; discriminate.
Qed.

(** A dry run spawns no process and writes no report, and so does any
    run that ends with exit code 1. *)
Theorem dry_run_spawns_nothing (args : cli_args) (loaded : option config) :
  arg_dry_run args = true ->
  let out := the_main args loaded in
  out_trace out = [] /\ out_written out = None /\ out_result_rows out = [] /\
  out_exit out <> Returned 2.
Proof.
  intros Hdry out.
  pose proof (main_cases args loaded) as Hcases. cbv zeta in Hcases.
  change (the_main args loaded) with out in Hcases.
  destruct Hcases as [[Hout Hexit]|Hsched].
  - rewrite Hout. cbn. repeat split.
    destruct Hexit as [H|[[e H]|[H _]]]; rewrite H; discriminate.
  - destruct Hsched as (cfg & metric & cmds & _ & _ & Hd & _). congruence.
Qed.



Lemma run_backend_length (metric : MetricConfig) (vars : gmap string string)
    (strict_mode fallback : bool) (n_runs n_warmup timeout_s : Z)
    (b : backend) (command : string) :
  forall t f t',
    r_backend metric vars strict_mode fallback n_runs n_warmup timeout_s
              b command t = (f, t') ->
    (length t' <= length t + (Z.to_nat n_warmup + Z.to_nat n_runs))%nat /\
    (forall row, f = RowDone row ->
       length t' = (length t + (Z.to_nat n_warmup + Z.to_nat n_runs))%nat).
Proof.
  intros t f t' H. unfold run_backend in H.
  destruct (backend_call str_format re_search py_float os_environ resolve_path
              subprocess_run metric vars fallback timeout_s b command)
    as [call|e] eqn:Hc.
  - eapply run_loops_length; [|exact H]. eapply backend_call_spawns, Hc.
  - injection H as <- <-. split; [lia | discriminate].
Qed.

Lemma run_backends_length (metric : MetricConfig) (vars : gmap string string)
    (strict_mode fallback : bool) (n_runs n_warmup timeout_s : Z)
    (cmds : gmap string string) (bs : list backend) :
  forall rows t f t',
    r_backends metric vars strict_mode fallback n_runs n_warmup timeout_s cmds
               bs rows t = (f, t') ->
    (length t' <= length t
       + length (filter (fun b => is_scheduled cmds b = true) bs)
         * (Z.to_nat n_warmup + Z.to_nat n_runs))%nat /\
    (forall rows', f = Completed rows' ->
       length t' = (length t
         + length (filter (fun b => is_scheduled cmds b = true) bs)
           * (Z.to_nat n_warmup + Z.to_nat n_runs))%nat).
Proof.
  induction bs as [|b rest IH]; intros rows t f t' H.
  - injection H as <- <-. cbn. split; [lia | intros; lia].
  - destruct (is_scheduled cmds b) eqn:Hs.
    + destruct (is_scheduled_true _ _ Hs) as (He & command & Hc).
      rewrite run_backends_run with (command := command) in H by assumption.
      rewrite filter_cons_True by exact Hs. cbn [length].
      destruct (r_backend _ _ _ _ _ _ _ _ _ _) as [g t1] eqn:Hb.
      destruct (run_backend_length _ _ _ _ _ _ _ _ _ _ _ _ Hb) as [B1 B2].
      destruct g as [row|x m].
      * specialize (B2 row eq_refl). destruct (IH _ _ _ _ H) as [H1 H2].
        split; [lia|]. intros rows' Hr. rewrite (H2 rows' Hr). lia.
      * injection H as <- <-. split; [lia | discriminate].
    + rewrite run_backends_skip in H by assumption.
      rewrite filter_cons_False by (rewrite Hs; discriminate). now apply IH in H.
Qed.

Lemma scheduled_are_enabled (cmds : gmap string string) (bs : list backend) :
  (length (filter (fun b => is_scheduled cmds b = true) bs)
   <= length (filter (fun b => b_enabled b = true) bs))%nat.
Proof.
  induction bs as [|b rest IH]; [reflexivity|].
  destruct (is_scheduled cmds b) eqn:Hs.
  - destruct (is_scheduled_true _ _ Hs) as [He _].
    rewrite (filter_cons_True (fun b => b_enabled b = true)) by exact He.
    rewrite filter_cons_True by exact Hs. cbn [length]. lia.
  - rewrite filter_cons_False by (rewrite Hs; discriminate).
    destruct (b_enabled b) eqn:He.
    + rewrite (filter_cons_True (fun b => b_enabled b = true)) by exact He.
      cbn [length]. lia.
    + rewrite (filter_cons_False (fun b => b_enabled b = true))
        by (rewrite He; discriminate).
      exact IH.
Qed.

(** No retries: [main] never spawns more than
    [warmup_runs + runs] processes per enabled backend, and a run that
    writes its reports has spawned exactly that many for each backend it
    scheduled. *)
Theorem processes_are_bounded (args : cli_args) (cfg : config) :
  let out := the_main args (Some cfg) in
  let per_backend :=
    (Z.to_nat (effective_warmup_runs args cfg)
     + Z.to_nat (effective_runs args cfg))%nat in
  (length (out_trace out)
   <= length (filter (fun b => b_enabled b = true) (backends cfg)) * per_backend)%nat /\
  (forall rows, out_written out = Some rows ->
     length (out_trace out) = (length rows * per_backend)%nat).
Proof.
  intros out per_backend.
  pose proof (main_cases args (Some cfg)) as Hcases. cbv zeta in Hcases.
  change (the_main args (Some cfg)) with out in Hcases.
  destruct Hcases as [[Hout _]|Hsched].
  - rewrite Hout. cbn. split; [lia | discriminate].
  - destruct Hsched as (cfg' & metric & cmds & [= <-] & Hm & Hd & Hr & Hout).
    rewrite Hout.
    destruct (schedule_of args cfg metric cmds (backends cfg) [] []) as [f t] eqn:Hs.
    destruct (run_backends_length _ _ _ _ _ _ _ _ _ _ _ _ _ Hs) as [L1 L2].
    pose proof (scheduled_are_enabled cmds (backends cfg)) as Hle.
    cbn [length] in L1, L2. rewrite finish_trace. split.
    + fold per_backend in L1.
      transitivity (length (filter (fun b => is_scheduled cmds b = true) (backends cfg))
                    * per_backend)%nat; [lia|].
      apply Nat.mul_le_mono_r. exact Hle.
    + intros rows Hw. destruct (finish_written _ _ _ _ Hw) as (rows0 & -> & Hnames).
      rewrite (L2 rows0 eq_refl). fold per_backend.
      pose proof (run_backends_names _ _ _ _ _ _ _ _ _ _ _ _ _ _ _ _ _ _ _ _ Hs)
        as Hsched.
      cbn [map app] in Hsched.
      apply (f_equal (@length string)) in Hnames, Hsched.
      rewrite !length_map in Hnames, Hsched. lia.
Qed.

(** A written report holds one row per backend the second loop runs, in
    the order of the configuration: the rows' names are the names of the
    enabled backends whose name is a key of the resolved commands, in the
    order of [config["backends"]], whatever the ranking is. *)
Theorem written_rows_follow_config_order (args : cli_args) (cfg : config)
    (rows : list result_row) :
  out_written (the_main args (Some cfg)) = Some rows ->
  exists cmds,
    resolve_commands str_format (tvars cfg)
      (parse_backend_filters (arg_backend args)) (backends cfg) ∅ = Ok cmds /\
    map row_name rows
    = map b_name (filter (fun b => is_scheduled cmds b = true) (backends cfg)).
Proof.
  pose proof (main_cases args (Some cfg)) as Hcases. cbv zeta in Hcases.
  destruct Hcases as [[Hout _]|Hsched].
  - rewrite Hout. cbn. discriminate.
  - destruct Hsched as (cfg' & metric & cmds & [= <-] & Hm & Hd & Hr & Hout).
    rewrite Hout. intros Hw. exists cmds. split; [exact Hr|].
    destruct (schedule_of args cfg metric cmds (backends cfg) [] []) as [f t] eqn:Hs.
    unfold finish in Hw. destruct f as [rows0|x rows0 measured]; [|discriminate Hw].
    destruct (rank_results metric rows0) as [[rows' best]|e] eqn:Hrank;
      [|discriminate Hw].
    cbn in Hw. injection Hw as <-.
    rewrite (rank_results_names _ _ _ _ Hrank).
    eapply run_backends_names in Hs. exact Hs.
Qed.

End MainInvariants.

(** ** Metric descriptor and output stem *)

Local Close Scope Q_scope.

(** [from_config] accepts the direction in any letter case and stores it
    in lowercase, leaving key and unit as written: after it the direction
    is exactly "higher" or "lower", and it raises a [ValueError] exactly
    when the lowercased direction is neither. *)
Theorem from_config_direction (raw : config) :
  (forall m, from_config raw = Ok m ->
     (m_direction m = "higher" \/ m_direction m = "lower") /\
     m_direction m = lower (m_direction (metric raw)) /\
     m_key m = m_key (metric raw) /\ m_unit m = m_unit (metric raw)) /\
  ((exists e, from_config raw = Raise e) <->
   lower (m_direction (metric raw)) <> "higher" /\
   lower (m_direction (metric raw)) <> "lower").
Proof.
  unfold from_config.
  destruct (String.eqb_spec (lower (m_direction (metric raw))) "higher") as [Hh|Hh];
    destruct (String.eqb_spec (lower (m_direction (metric raw))) "lower") as [Hl|Hl];
    cbn [orb negb]; split;
    try (intros m [= <-]; cbn; auto);
    try discriminate;
    try (split; [intros [e He]; discriminate He | intros [H1 H2]; congruence]).
  split; [intros _; auto | intros _; eauto].
Qed.

Lemma map_chars_length (f : ascii -> ascii) (s : string) :
  String.length (map_chars f s) = String.length s.
Proof. induction s as [|c s IH]; cbn; congruence. Qed.

Lemma map_chars_all (f : ascii -> ascii) (P : ascii -> bool) (s : string) :
  (forall c, P (f c) = true) -> all_chars P (map_chars f s) = true.
Proof.
  intros H. induction s as [|c s IH]; [reflexivity|].
  cbn [map_chars all_chars]. now rewrite H, IH.
Qed.

Lemma map_chars_fixed (f : ascii -> ascii) (P : ascii -> bool) (s : string) :
  (forall c, P c = true -> f c = c) -> all_chars P s = true -> map_chars f s = s.
Proof.
  intros H. induction s as [|c s IH]; [reflexivity|].
  cbn [map_chars all_chars]. intros Hall. apply andb_prop in Hall as [Hc Hs].
  now rewrite (H c Hc), (IH Hs).
Qed.

(** The stem of the output file names is never empty and holds only
    alphanumeric characters, [_] and [-]; it has the length of the
    stripped benchmark name (of the default name when that is empty), and
    a stripped name that is already safe is kept as it is. *)
Theorem output_stem_is_safe (py_isalnum : ascii -> bool) (cfg : config) :
  let name := match strip (benchmark_name cfg) with
              | EmptyString => "gguf_compare"
              | String c rest => String c rest
              end in
  nonempty (output_stem py_isalnum cfg) = true /\
  all_chars (stem_char_ok py_isalnum) (output_stem py_isalnum cfg) = true /\
  String.length (output_stem py_isalnum cfg) = String.length name /\
  (all_chars (stem_char_ok py_isalnum) name = true ->
   output_stem py_isalnum cfg = name).
Proof.
  intros name. unfold output_stem. fold name.
  split; [|split; [|split]].
  - assert (Hn : nonempty name = true) by (subst name; now destruct (strip _)).
    destruct name; [discriminate | reflexivity].
  - apply map_chars_all. intros c.
    destruct (stem_char_ok py_isalnum c) eqn:E; [exact E|].
    unfold stem_char_ok. cbn. now rewrite orb_true_r.
  - apply map_chars_length.
  - apply map_chars_fixed. intros c Hc. now rewrite Hc.
Qed.

Local Open Scope Q_scope.

(** ** The recorded tails of the output streams *)

Local Close Scope Q_scope.

Lemma substring_all (s : string) : String.substring 0 (String.length s) s = s.
Proof. induction s as [|c s IH]; [reflexivity|]. cbn. now rewrite IH. Qed.

Lemma substring_suffix (s : string) :
  forall a, (a <= String.length s)%nat ->
  exists pre, s = pre ++ String.substring a (String.length s - a) s /\
              String.length pre = a.
Proof.
  induction s as [|c s IH]; intros a Ha.
  - cbn in Ha. assert (a = 0%nat) by lia. subst a.
    exists EmptyString. split; reflexivity.
  - destruct a as [|a].
    + exists EmptyString. rewrite Nat.sub_0_r, substring_all. split; reflexivity.
    + cbn [String.length] in Ha. destruct (IH a) as (pre & Hpre & Hlen); [lia|].
      exists (String c pre). cbn [String.length Nat.sub String.substring].
      rewrite append_cons. split; [now rewrite <- Hpre | now rewrite Hlen].
Qed.

Lemma append_length (s1 s2 : string) :
  String.length (s1 ++ s2) = (String.length s1 + String.length s2)%nat.
Proof.
  induction s1 as [|c s1 IH]; [reflexivity|].
  rewrite append_cons. cbn [String.length]. now rewrite IH.
Qed.

Lemma last_chars_suffix (n : nat) (s : string) :
  String.length (last_chars n s) = Nat.min n (String.length s) /\
  exists pre, s = pre ++ last_chars n s.
Proof.
  unfold last_chars.
  destruct (substring_suffix s (String.length s - n)) as (pre & Hpre & Hlen); [lia|].
  replace (String.length s - (String.length s - n))%nat
    with (Nat.min n (String.length s)) in Hpre by lia.
  split; [|now exists pre].
  apply (f_equal String.length) in Hpre. rewrite append_length, Hlen in Hpre. lia.
Qed.

(** The entry recorded for a completed measured run keeps of each output
    stream its last 1200 characters at most: each tail is a suffix of its
    stream, of length [min 1200 (len stream)], so a stream of up to 1200
    characters is kept whole. *)
Theorem recorded_tails_are_bounded (call : list spawn -> res run_output * list spawn)
    (strict_mode : bool) (timeout_s i : Z) (st : measure_state)
    (t t' : list spawn) (record : run_output) :
  call t = (Ok record, t') ->
  exists f ok out_tail err_tail pre_out pre_err,
    measure_step call strict_mode timeout_s i st t = (f, t') /\
    measured_runs (match f with Done s => s | Exit _ s => s end)
      = (measured_runs st
         ++ [RunMeasured i ok (ro_exit_code record) (ro_wall_seconds record)
               (ro_primary_metric record) (ro_aux_metrics record)
               out_tail err_tail])%list /\
    ro_stdout record = pre_out ++ out_tail /\
    ro_stderr record = pre_err ++ err_tail /\
    String.length out_tail = Nat.min 1200 (String.length (ro_stdout record)) /\
    String.length err_tail = Nat.min 1200 (String.length (ro_stderr record)).
Proof.
  intros Hc.
  destruct (last_chars_suffix 1200 (ro_stdout record)) as (Lo & pre_out & Ho).
  destruct (last_chars_suffix 1200 (ro_stderr record)) as (Le & pre_err & He).
  unfold measure_step. rewrite Hc.
  destruct ((ro_exit_code record =? 0)%Z && _) eqn:Hok.
  - eexists _, true, _, _, pre_out, pre_err. split; [reflexivity|].
    cbn [measured_runs]. split; [reflexivity|]. auto.
  - destruct strict_mode.
    + eexists _, false, _, _, pre_out, pre_err. split; [reflexivity|].
      cbn [measured_runs]. split; [reflexivity|]. auto.
    + eexists _, false, _, _, pre_out, pre_err. split; [reflexivity|].
      cbn [measured_runs]. split; [reflexivity|]. auto.
Qed.

Local Open Scope Q_scope.

(* ================================================================= *)
(** * The program on concrete inputs *)

Local Open Scope Q_scope.

Example format_expands :
  py_format "run --model {model_name} --tokens {max_tokens}"
            (<["model_name" := "m"]> (<["max_tokens" := "16"]> ∅))
  = Ok "run --model m --tokens 16".
Proof. vm_compute. reflexivity. Qed.

Lemma percentile_order_statistics_witness :
  [3; 1; 2; 4] <> [] /\
  exists v, percentile [3; 1; 2; 4] 50 = Ok v /\ v == 5 # 2.
Proof.
  split; [discriminate|].
  destruct (percentile_order_statistics [3; 1; 2; 4] 50) as (_ & _ & H & _);
    [discriminate|].
  destruct H as (v & lo & hi & Hv & Hlo & Hhi & Heq); [split; reflexivity|].
  exists v. split; [exact Hv|].
  vm_compute in Hlo, Hhi.
  injection Hlo as <-. injection Hhi as <-.
  rewrite Heq. vm_compute. reflexivity.
Defined.


Example re_search_model_runs :
  re_search_model "tok:(\d+\.?\d*)" "TOK:12.5" (mk_flags true true)
    = ReMatch [Some "12.5"] /\
  re_search_model "nope:(\d+)" "tok:12.5" (mk_flags true true) = ReNoMatch /\
  re_search_model "tokens/sec:\s*([0-9.]+)" "x
tokens/sec: 41.7000
" (mk_flags true true)
    = ReMatch [Some "41.7000"] /\
  re_search_model "tok" "tok" (mk_flags true true) = ReMatch [] /\
  re_search_model "a|(b)" "a" (mk_flags true true) = ReMatch [None] /\
  re_search_model "(" "a" (mk_flags true true) = RePatternError /\
  re_search_model "(a|b)+c" "xxabac" (mk_flags false true) = ReMatch [Some "a"].
Proof. vm_compute. repeat split. Qed.

(** ** Strict-mode halt (C1) *)

(** C1, as stated, fails: with three backends and the second failing on
    its first measured run under strict mode, [main] returns 2 with
    backend-1's row alone in [result_rows]; no row of backend-2 exists,
    and no result is written. *)
Lemma strict_halt_result_lacks_failed_backend :
  out_exit strict_halt_run = Returned 2 /\
  map row_name (out_result_rows strict_halt_run) = ["b1"] /\
  ~ (exists row, In row (out_result_rows strict_halt_run) /\ row_name row = "b2") /\
  out_written strict_halt_run = None.
Proof.
  split; [vm_compute; reflexivity|].
  split; [vm_compute; reflexivity|].
  split; [|vm_compute; reflexivity].
  intros (row & Hin & Hname).
  assert (Hnames : In (row_name row) (map row_name (out_result_rows strict_halt_run)))
    by (apply in_map; exact Hin).
  rewrite Hname in Hnames. vm_compute in Hnames.
  destruct Hnames as [H|[]]. discriminate H.
Qed.

Lemma strict_halt_after_first_failure_witness :
  exists row1 entry trace,
    strict_halt_run = mk_outcome (Returned 2) trace [row1] [entry] None /\
    row_name row1 = "b1" /\ entry_index entry = 1%Z /\ entry_ok entry = false /\
    Forall (fun sp => sp_backend sp = "b1" \/ sp_backend sp = "b2") trace.
Proof.
  edestruct (strict_halt_after_first_failure
               py_format re_search_model float_of_decimal sqrt_6dp ∅
               resolve_path_model "/repo" path_name_model mock_process
               demo_args (demo_config true 2 1 three_backends) demo_metric)
    as (entry & Hmain & Hidx & Hok & Hname & Htrace).
  - reflexivity.
  - reflexivity.
  - reflexivity.
  - reflexivity.
  - lazy. reflexivity.
  - reflexivity.
  - lazy. reflexivity.
  - reflexivity.
  - lazy. reflexivity.
  - lazy. reflexivity.
  - reflexivity.
  - lazy. reflexivity.
  - lazy. discriminate.
  - lazy. reflexivity.
  - right. eexists. split; [reflexivity | lazy; reflexivity].
  - eexists _, entry, _. repeat split; eassumption.
Defined.

(** ** Undefined template variables (C2) *)

(** C2, as stated, fails for environment values: the undefined variable
    in the second backend's environment is reported only after the three
    processes of the first backend have run. *)
Lemma env_failure_comes_after_processes :
  out_exit bad_env_run
    = Raised (ValueError (missing_variable "cache_dir" "{cache_dir}/b2")) /\
  map sp_backend (out_trace bad_env_run) = ["b1"; "b1"; "b1"] /\
  out_trace bad_env_run <> [].
Proof.
  split; [vm_compute; reflexivity|].
  split; [vm_compute; reflexivity|].
  intros H. apply (f_equal (@length spawn)) in H. vm_compute in H. discriminate H.
Qed.

Lemma undefined_variable_stops_main_witness :
  bad_template_run
    = mk_outcome
        (Raised (ValueError (missing_variable "threads" "mock --threads {threads}")))
        [] [] [] None /\
  exists rows t,
    bad_env_run
      = mk_outcome
          (Raised (ValueError (missing_variable "cache_dir" "{cache_dir}/b2")))
          t rows [] None /\
    map row_name rows = ["b1"].
Proof.
  destruct (undefined_variable_stops_main
              py_format re_search_model float_of_decimal sqrt_6dp ∅
              resolve_path_model "/repo" path_name_model mock_process
              demo_args (demo_config true 2 1 bad_template_backends) demo_metric
              eq_refl) as [Hcmd _].
  destruct (undefined_variable_stops_main
              py_format re_search_model float_of_decimal sqrt_6dp ∅
              resolve_path_model "/repo" path_name_model mock_process
              demo_args (demo_config true 2 1 bad_env_backends) demo_metric
              eq_refl) as [_ Henv].
  split.
  - apply (Hcmd [demo_backend "b1" "mock" []]
                (demo_backend "b2" "mock --threads {threads}" []) []
                (<["b1" := "mock"]> ∅) "threads");
      vm_compute; reflexivity.
  - exists bad_env_rows, bad_env_trace. split.
    + apply (Henv (<["b2" := "mock"]> (<["b1" := "mock"]> ∅))
                  [demo_backend "b1" "mock" []]
                  (demo_backend "b2" "mock" [("CACHE_DIR", "{cache_dir}/b2")]) []
                  bad_env_rows bad_env_trace "mock" [] "CACHE_DIR"
                  "{cache_dir}/b2" [] "cache_dir").
      * vm_compute. reflexivity.
      * reflexivity.
      * reflexivity.
      * vm_compute. reflexivity.
      * reflexivity.
      * vm_compute. reflexivity.
      * reflexivity.
      * constructor.
      * vm_compute. reflexivity.
    + vm_compute. reflexivity.
Defined.

(** ** Metric extraction (C3) *)

(** C3, as stated, fails: a pattern without a capture group matches, no
    pattern yields a number, and the extraction raises. *)
Lemma extraction_raises_without_group :
  first_numeric_capture re_search_model float_of_decimal "tok:12.5" ["tok:\d+"]
    = None /\
  parse_numeric_metric re_search_model float_of_decimal "tok:12.5" ["tok:\d+"]
    = Raise IndexError /\
  parse_numeric_metric re_search_model float_of_decimal "fast" ["fast|tok:(\d+)"]
    = Raise TypeError /\
  ~ (exists v, parse_numeric_metric re_search_model float_of_decimal
                 "tok:12.5" ["tok:\d+"] = Ok v).
Proof.
  split; [vm_compute; reflexivity|].
  split; [vm_compute; reflexivity|].
  split; [vm_compute; reflexivity|].
  intros [v H]. vm_compute in H. discriminate H.
Qed.

Lemma parse_numeric_metric_first_numeric_witness :
  parse_numeric_metric re_search_model float_of_decimal "tok:12.5"
    ["nope:(\d+)"; "tok:(\d+\.?\d*)"] = Ok (Some (125 # 10)) /\
  parse_numeric_metric re_search_model float_of_decimal "rate: n/a; TOK:7"
    ["rate: (\S+)"; "tok:(\d+)"; "("] = Ok (Some (7 # 1)) /\
  parse_numeric_metric re_search_model float_of_decimal "nothing here"
    ["nope:(\d+)"; "tok:(\d+\.?\d*)"] = Ok None.
Proof.
  split; [|split].
  - destruct (parse_numeric_metric_first_numeric re_search_model float_of_decimal
                "tok:12.5" ["nope:(\d+)"; "tok:(\d+\.?\d*)"]) as (H & _ & _).
    rewrite H; [vm_compute; reflexivity|].
    repeat constructor.
  - destruct (parse_numeric_metric_first_numeric re_search_model float_of_decimal
                "rate: n/a; TOK:7" ["rate: (\S+)"; "tok:(\d+)"; "("]) as (_ & H & _).
    apply (H ["rate: (\S+)"] "tok:(\d+)" ["("] (7 # 1)).
    + reflexivity.
    + repeat constructor.
    + repeat constructor.
    + vm_compute. reflexivity.
  - destruct (parse_numeric_metric_first_numeric re_search_model float_of_decimal
                "nothing here" ["nope:(\d+)"; "tok:(\d+\.?\d*)"]) as (H & _ & _).
    rewrite H; [vm_compute; reflexivity|].
    repeat constructor.
Defined.

(** ** Ranking (C4) *)

(** C4, as stated, fails: one ranked backend with a negative median has a
    best median that is not zero, and yet its ratio is omitted. *)
Lemma negative_best_median_omits_ratios :
  filter is_good [row_with_median "a" (-1)] <> [] /\
  best_median demo_metric [row_with_median "a" (-1)] = Some (-1) /\
  ~ (-1 == 0) /\
  rank_results demo_metric [row_with_median "a" (-1)]
    = Ok ([row_with_median "a" (-1)], Some (-1)) /\
  row_ratio (row_with_median "a" (-1)) = None.
Proof.
  split; [vm_compute; discriminate|].
  split; [vm_compute; reflexivity|].
  split; [intros H; vm_compute in H; discriminate H|].
  split; vm_compute; reflexivity.
Qed.

Lemma ranking_and_ratios_witness :
  map row_name (ranked demo_metric [row_with_median "b50" 50; row_with_median "b100" 100])
    = ["b100"; "b50"] /\
  exists r50 r100 q50 q100,
    rank_results demo_metric [row_with_median "b50" 50; row_with_median "b100" 100]
      = Ok ([r50; r100], Some 100) /\
    row_ratio r50 = Some q50 /\ q50 == 1 # 2 /\
    row_ratio r100 = Some q100 /\ q100 == 1.
Proof.
  split; [vm_compute; reflexivity|].
  destruct (ranking_and_ratios demo_metric
              [row_with_median "b50" 50; row_with_median "b100" 100])
    as (_ & _ & rows' & best & Hrank & _ & Hbest & _).
  assert (Hb : best = Some 100).
  { vm_compute in Hrank. now injection Hrank as _ <-. }
  subst best. destruct (Hbest 100 eq_refl) as (_ & _ & Hall).
  specialize (Hall eq_refl).
  inversion Hall as [|r1 r50 l1 l1' H50 Hrest]; subst.
  inversion Hrest as [|r2 r100 l2 l2' H100 Hnil]; subst.
  inversion Hnil; subst.
  destruct H50 as (q50 & -> & Hq50). destruct H100 as (q100 & -> & Hq100).
  exists (set_median_vs_best (row_with_median "b50" 50) q50),
         (set_median_vs_best (row_with_median "b100" 100) q100), q50, q100.
  split; [exact Hrank|].
  split; [reflexivity|]. split; [rewrite Hq50; vm_compute; reflexivity|].
  split; [reflexivity|]. rewrite Hq100. vm_compute. reflexivity.
Defined.

(** ** The bar chart (C8) *)

Lemma chart_never_divides_by_zero_witness :
  [("A", 0); ("B", 0)] <> [] /\
  exists c, build_svg_chart [("A", 0); ("B", 0)] demo_metric = Ok c /\
            chart_max_value [("A", 0); ("B", 0)] = Ok 1 /\
            length (bar_widths c) = 2%nat.
Proof.
  split; [discriminate|].
  destruct (chart_never_divides_by_zero [("A", 0); ("B", 0)] demo_metric)
    as (largest & d & c & _ & Hscale & _ & _ & _ & Hc & _ & Hlen); [discriminate|].
  exists c. split; [exact Hc|]. split; [reflexivity | exact Hlen].
Defined.

(** ** Auxiliary extraction rules (C9) *)

Lemma aux_regexes_precedence_witness :
  build_aux_regexes demo_metric aux_backend
    = Ok [("peak_vram_gb", ["peak_vram_gb:\s*([0-9.]+)"]);
          ("prompt_eval_ms", ["prompt_eval_ms:\s*([0-9.]+)"])] /\
  forall aux_regexes,
    build_aux_regexes demo_metric aux_backend = Ok aux_regexes ->
    dict_get "peak_vram_gb" aux_regexes = Some ["peak_vram_gb:\s*([0-9.]+)"] /\
    dict_get "tokens_per_second" aux_regexes = None.
Proof.
  split; [vm_compute; reflexivity|].
  intros aux_regexes Hbuild.
  destruct (aux_regexes_precedence demo_metric aux_backend) as [_ H].
  { repeat constructor; intros []. }
  destruct (H aux_regexes Hbuild "peak_vram_gb") as (H1 & _ & _).
  destruct (H aux_regexes Hbuild "tokens_per_second") as (_ & _ & H3).
  split.
  - destruct (H1 (JString "peak_vram_gb:\s*([0-9.]+)") eq_refl) as (rs & Hrs & Hget).
    injection Hrs as <-. exact Hget.
  - apply H3; [reflexivity | now left].
Defined.

(** ** Timeouts (C7) *)


(** ** Backends under one name (C10) *)


(** A shared name written with blanks around it is outside the theorem on
    shared names: the first loop files the command under the stripped
    name, the run loop looks up the name as written, so neither entry is
    run and the written result has no row. *)
Lemma padded_names_are_never_scheduled :
  Forall (fun b => is_resolved (parse_backend_filters (arg_backend demo_args)) b = true
                   /\ b_name b = " twin ") padded_twin_backends /\
  length padded_twin_backends = 2%nat /\
  out_exit padded_twin_run = Returned 0 /\
  out_trace padded_twin_run = [] /\
  out_written padded_twin_run = Some [] /\
  ~ (exists r1 r2 rest, out_written padded_twin_run = Some (r1 :: r2 :: rest)).
Proof.
  split; [repeat constructor|].
  split; [reflexivity|].
  split; [vm_compute; reflexivity|].
  split; [vm_compute; reflexivity|].
  split; [vm_compute; reflexivity|].
  intros (r1 & r2 & rest & H). vm_compute in H. discriminate H.
Qed.


(** ** Further properties on concrete inputs *)

Lemma median_is_percentile_50_witness :
  [7; 3] <> [] /\
  exists m v, statistics_median [7; 3] = Ok m /\ percentile [7; 3] 50 = Ok v /\
              m == v /\ m == 5.
Proof.
  split; [discriminate|].
  destruct (median_is_percentile_50 [7; 3]) as (m & v & Hm & Hv & Heq);
    [discriminate|].
  exists m, v. repeat split; try assumption.
  vm_compute in Hm. injection Hm as <-. reflexivity.
Defined.

Local Close Scope Q_scope.

Lemma metric_regexes_selection_witness :
  select_metric_regexes demo_metric false aux_backend
    = Ok ["tokens/sec:\s*([0-9.]+)"].
Proof.
  destruct (metric_regexes_selection demo_metric false aux_backend []
              ["tokens/sec:\s*([0-9.]+)"] eq_refl eq_refl) as (_ & H & _).
  apply H; [reflexivity | discriminate].
Defined.

Lemma aux_metrics_independent_witness :
  exists aux_metrics,
    extract_aux re_search_model float_of_decimal
                "peak_vram_gb: 7.5; prompt_eval_ms: n/a" two_aux_rules []
      = Ok aux_metrics /\
    parse_numeric_metric re_search_model float_of_decimal
                         "peak_vram_gb: 7.5; prompt_eval_ms: n/a"
                         ["peak_vram_gb:\s*([0-9.]+)"]
      = Ok (dict_get "peak_vram_gb" aux_metrics) /\
    dict_get "prompt_eval_ms" aux_metrics = None.
Proof.
  eexists. split; [vm_compute; reflexivity|].
  assert (Hnd : Stdlib.Lists.List.NoDup (map fst two_aux_rules)).
  { apply List.NoDup_cons; [cbn; intros [H|[]]; discriminate H|].
    apply List.NoDup_cons; [cbn; intros []|]. apply List.NoDup_nil. }
  assert (Hok : extract_aux re_search_model float_of_decimal
                  "peak_vram_gb: 7.5; prompt_eval_ms: n/a" two_aux_rules []
                = Ok [("peak_vram_gb", (75 # 10)%Q)]).
  { vm_compute. reflexivity. }
  destruct (aux_metrics_independent re_search_model float_of_decimal
              "peak_vram_gb: 7.5; prompt_eval_ms: n/a" two_aux_rules
              [("peak_vram_gb", (75 # 10)%Q)] Hnd Hok "peak_vram_gb") as [H1 _].
  split; [apply H1; reflexivity | reflexivity].
Defined.

Lemma run_once_record_witness :
  (exists record,
     mock_call [] = (Ok record, [mk_spawn "b1" "mock" "/repo/." ∅ 900]) /\
     ro_exit_code record = 0%Z /\ run_ok record = true) /\
  measure_step broken_call false 900 1 initial_measure []
    = (Exit (Raised OSError) initial_measure, [mk_spawn "b1" "mock" "/gone" ∅ 900]).
Proof.
  split.
  - destruct (run_once_record re_search_model float_of_decimal mock_process
                "b1" "mock" "/repo/." 900 ∅ ["tokens/sec:\s*([0-9.]+)"] [] false [])
      as (Htrace & _ & _ & Hexit & _).
    destruct (Hexit 0%Z _ _ _ eq_refl) as (_ & _ & Hrec).
    destruct (Hrec (Some (417000 # 10000)%Q) [])
      as (record & Hfst & Hcode & _ & _ & _ & _ & _ & Hok).
    + vm_compute. reflexivity.
    + reflexivity.
    + exists record. split; [|split; [exact Hcode|]].
      * unfold mock_call. apply injective_projections; cbn [fst snd]; assumption.
      * apply Hok. split; [reflexivity | left; discriminate].
  - destruct (run_once_record re_search_model float_of_decimal broken_process
                "b1" "mock" "/gone" 900 ∅ ["tokens/sec:\s*([0-9.]+)"] [] false [])
      as (_ & _ & Hraise & _ & Hloops).
    destruct (Hloops OSError false) as [_ Hstep];
      [apply Hraise; reflexivity | discriminate |].
    exact (Hstep 1%Z initial_measure).
Defined.

Lemma recorded_tails_are_bounded_witness :
  exists f entry,
    measure_step mock_call true 900 1 initial_measure []
      = (f, [mk_spawn "b1" "mock" "/repo/." ∅ 900]) /\
    measured_runs (match f with Done s => s | Exit _ s => s end) = [entry] /\
    entry_index entry = 1%Z.
Proof.
  destruct (recorded_tails_are_bounded mock_call true 900 1 initial_measure []
              [mk_spawn "b1" "mock" "/repo/." ∅ 900] mock_record)
    as (f & ok & out_tail & err_tail & pre_out & pre_err & Hstep & Hruns & _).
  - vm_compute. reflexivity.
  - exists f. eexists. split; [exact Hstep|]. split; [exact Hruns | reflexivity].
Defined.

Lemma dry_run_spawns_nothing_witness :
  arg_dry_run dry_args = true /\
  out_trace (demo_main dry_args (Some (demo_config true 2 1 three_backends))) = [] /\
  out_exit (demo_main dry_args (Some (demo_config true 2 1 three_backends)))
    = Returned 0.
Proof.
  split; [reflexivity|].
  destruct (dry_run_spawns_nothing py_format re_search_model float_of_decimal sqrt_6dp ∅
              resolve_path_model "/repo" path_name_model mock_process
              dry_args (Some (demo_config true 2 1 three_backends)))
    as (Htrace & _); [reflexivity|].
  split; [exact Htrace | vm_compute; reflexivity].
Defined.


Lemma main_exit_codes_witness :
  exists entry,
    last (out_measured_runs strict_halt_run) = Some entry /\ entry_ok entry = false.
Proof.
  destruct (main_exit_codes py_format re_search_model float_of_decimal sqrt_6dp ∅
              resolve_path_model "/repo" path_name_model mock_process
              demo_args (Some (demo_config true 2 1 three_backends)))
    as (_ & H2 & _).
  destruct H2 as (cfg & entry & _ & _ & _ & Hlast & Hok); [vm_compute; reflexivity|].
  exists entry. split; [exact Hlast | exact Hok].
Defined.

Lemma result_rows_consistent_witness :
  Forall (fun row => length (row_runs row) = 2%nat) (out_result_rows lenient_run) /\
  out_written lenient_run = Some (out_result_rows lenient_run).
Proof.
  destruct (result_rows_consistent py_format re_search_model float_of_decimal sqrt_6dp ∅
              resolve_path_model "/repo" path_name_model mock_process
              demo_args (demo_config false 2 1 three_backends)) as [Hrows Hwritten].
  split.
  - eapply Forall_impl; [exact Hrows|]. intros row (_ & Hlen & _). exact Hlen.
  - assert (Hw : exists rows, out_written lenient_run = Some rows)
      by (eexists; vm_compute; reflexivity).
    destruct Hw as [rows Hw]. rewrite Hw. f_equal. exact (Hwritten rows Hw).
Defined.

Lemma processes_are_bounded_witness :
  length (out_trace lenient_run) = 9%nat.
Proof.
  destruct (processes_are_bounded py_format re_search_model float_of_decimal sqrt_6dp ∅
              resolve_path_model "/repo" path_name_model mock_process
              demo_args (demo_config false 2 1 three_backends)) as [_ H].
  assert (Hw : out_written lenient_run = Some (out_result_rows lenient_run))
    by (vm_compute; reflexivity).
  etransitivity; [exact (H _ Hw) | vm_compute; reflexivity].
Defined.

Lemma first_ranked_has_best_median_witness :
  exists best, best_median demo_metric two_rows = Some best /\ (100 == best)%Q.
Proof.
  destruct (first_ranked_has_best_median demo_metric two_rows) as [_ H].
  destruct (H (row_with_median "b" 100) [row_with_median "a" 50])
    as (best & Hbest & Heq); [vm_compute; reflexivity|].
  exists best. split; [exact Hbest | exact Heq].
Defined.

Lemma from_config_direction_witness :
  exists m, from_config shouting_config = Ok m /\ m_direction m = "higher".
Proof.
  destruct (from_config_direction shouting_config) as [H _].
  assert (Hm : from_config shouting_config
               = Ok (mk_metric "tokens_per_second" "tokens/s" "higher"))
    by (vm_compute; reflexivity).
  eexists. split; [exact Hm|].
  destruct (H _ Hm) as (_ & Hdir & _). exact Hdir.
Defined.

Lemma output_stem_is_safe_witness :
  output_stem is_alnum_ascii (demo_config true 2 1 three_backends) = "demo" /\
  String.length (output_stem is_alnum_ascii shouting_config) = 9%nat.
Proof.
  split.
  - destruct (output_stem_is_safe is_alnum_ascii (demo_config true 2 1 three_backends))
      as (_ & _ & _ & H).
    apply H. reflexivity.
  - destruct (output_stem_is_safe is_alnum_ascii shouting_config) as (_ & _ & H & _).
    exact H.
Defined.

Lemma backend_filter_semantics_witness :
  backend_is_selected "Aero_ROCM" (parse_backend_filters "ROCm, cuda") = true /\
  backend_is_selected "llama_cpp" (parse_backend_filters "vulkan") = false.
Proof.
  split.
  - destruct (backend_filter_semantics "ROCm, cuda" "Aero_ROCM")
      as (_ & _ & _ & [_ H] & _).
    apply H. right. exists "ROCm", "aero_", EmptyString.
    split; [vm_compute; left; reflexivity | split; reflexivity].
  - destruct (backend_is_selected "llama_cpp" (parse_backend_filters "vulkan"))
      eqn:E; [|reflexivity].
    destruct (backend_filter_semantics "vulkan" "llama_cpp")
      as (_ & _ & _ & [H _] & _).
    destruct (H E) as [Hblank|(item & pre & post & Hitem & _ & Hname)].
    + inversion Hblank as [|? ? Hx _]. discriminate Hx.
    + destruct Hitem as [<-|[]].
      assert (Hsub : is_substring "vulkan" "llama_cpp" = true)
        by (apply is_substring_spec; exists pre, post; exact Hname).
      discriminate Hsub.
Defined.

Lemma computed_variables_overwrite_user_witness :
  build_template_variables resolve_path_model "/repo" path_name_model shadowing_config
    !! "prompt" = Some "hi" /\
  build_template_variables resolve_path_model "/repo" path_name_model shadowing_config
    !! "threads" = Some "8".
Proof.
  destruct (computed_variables_overwrite_user resolve_path_model "/repo"
              path_name_model shadowing_config) as (_ & _ & _ & Hprompt & _ & Hk).
  split; [exact Hprompt|].
  etransitivity; [apply Hk; discriminate | reflexivity].
Defined.

Lemma written_rows_follow_config_order_witness :
  map row_name (out_result_rows lenient_run) = ["b1"; "b2"; "b3"].
Proof.
  destruct (written_rows_follow_config_order py_format re_search_model
              float_of_decimal sqrt_6dp ∅ resolve_path_model "/repo" path_name_model
              mock_process demo_args (demo_config false 2 1 three_backends)
              (out_result_rows lenient_run)) as (cmds & Hcmds & Hnames);
    [vm_compute; reflexivity|].
  vm_compute in Hcmds. injection Hcmds as <-.
  etransitivity; [exact Hnames | vm_compute; reflexivity].
Defined.
